(** * Chain-event subscription and historical replay of the blockchain client

    A shallow embedding of the event engine of [blockchain/client.go]
    ([StartEventsListening], [RegisterEventsListener],
    [processSystemEventsStorageChanges] and the [pendingEvents] queue),
    followed by the properties established about it.

    Conventions of the embedding.
    - Go values are modelled by the closest Rocq data: [types.BlockNumber]
      (a [uint32]) and the opaque [types.Hash] as [N], [int] map keys as [Z],
      raw storage bytes, storage keys, decoded events and error messages as
      strings.  Block numbers are not bounded here; the only arithmetic the
      code does on them, [currentBlock++], runs under
      [currentBlock < subscriptionStartBlock] and cannot overflow.
    - The RPC services of the substrate node are external: they are the
      fields of the record [RPC], one function per call made by the client.
    - A callback invocation is recorded in a trace, in the order in which
      the invocations happen.  A send on the error channel is recorded the
      same way (the reader of the channel is assumed to receive it).
    - A goroutine is a program counter inside the state; a schedule (a list
      of actions) says which goroutine moves next.  Code that runs under a
      mutex, or that is guarded by [sync.Once], is one atomic step; so is
      one call of [callbackWrapper].  The backfill goroutine moves from one
      branching point of its loops to the next; the read of [cancelled],
      which is made without a lock, and the call of the callback that
      follows it are two steps, so that [cancel] can run between them.

    The bucket types, the [DdcClusters] and [DdcCustomers] pallets and the
    contract client are embedded after the engine, each in a module of its
    own. *)

From Stdlib Require Import ZArith NArith Lia Sorted.
From stdpp Require Import gmap strings list fin_maps sorting.

Open Scope string_scope.
Open Scope list_scope.

(** ** Basic data *)

Definition types_BlockNumber := N.
Definition types_Hash := N.
Definition types_StorageKey := string.
Definition types_StorageDataRaw := string.
Definition types_Metadata := N.
Definition pallets_Events := string.
Definition error := string.

(** [fmt.Errorf("prefix: %w", err)] *)
Definition Errorf (prefix : string) (err : error) : error :=
  (prefix ++ ": " ++ err)%string.

(** A Go result pair [(v, err)]: [inl v] when [err == nil]. *)
Definition result (A : Type) : Type := (A + error)%type.

(** The arguments of one invocation
    [callback(events, blockNumber, blockHash)] of an [EventsListener]. *)
Definition call : Type := (pallets_Events * types_BlockNumber * types_Hash)%type.

Definition call_number (c : call) : types_BlockNumber := c.1.2.

(** ** The [pendingEvents] queue *)

Record blockEvents := mkBlockEvents {
  Events : pallets_Events;
  Hash : types_Hash;
  Number : types_BlockNumber
}.

Record pendingEvents := mkPendingEvents {
  pe_list : list blockEvents;
  pe_done : bool
}.

Arguments mkBlockEvents Events%_string Hash%_N Number%_N.

(** [&pendingEvents{}] *)
Definition pendingEvents_zero : pendingEvents := mkPendingEvents [] false.

(** [func (pe *pendingEvents) TryPush(events, hash, number) bool]: the whole
    body runs with [pe.mu] held. *)
Definition TryPush (pe : pendingEvents) (events : pallets_Events)
    (hash : types_Hash) (number : types_BlockNumber) : pendingEvents * bool :=
  if negb (pe_done pe)
  then (mkPendingEvents (pe_list pe ++ [mkBlockEvents events hash number]) (pe_done pe), true)
  else (pe, false).

(** The outcome of one pass through the body of the [for] loop of [Do]. *)
Inductive DoPass :=
| DoBreak                (* the list was empty: [done] was set, the loop is left *)
| DoCalled (c : call).   (* the head was handed to the callback and removed *)

(** One pass through the loop body of [Do]; [pe.mu] is held for the whole
    pass, the callback included, and released between two passes. *)
Definition Do_pass (pe : pendingEvents) : pendingEvents * DoPass :=
  match pe_list pe with
  | [] => (mkPendingEvents (pe_list pe) true, DoBreak)
  | b :: rest =>
      (mkPendingEvents rest (pe_done pe), DoCalled (Events b, Number b, Hash b))
  end.

(** [func (pe *pendingEvents) Do(callback EventsListener)] when no other
    goroutine touches the queue meanwhile: the passes are repeated until
    the loop breaks.  [fuel] bounds the number of passes. *)
Fixpoint Do_fuel (fuel : nat) (pe : pendingEvents) : option (pendingEvents * list call) :=
  match fuel with
  | O => None
  | S fuel' =>
      match Do_pass pe with
      | (pe', DoBreak) => Some (pe', [])
      | (pe', DoCalled c) =>
          match Do_fuel fuel' pe' with
          | Some (pe'', cs) => Some (pe'', c :: cs)
          | None => None
          end
      end
  end.

Definition Do (pe : pendingEvents) : option (pendingEvents * list call) :=
  Do_fuel (S (length (pe_list pe))) pe.

Definition call_of (b : blockEvents) : call := (Events b, Number b, Hash b).

(** *** [Do] racing with [TryPush]

    While [Do] runs, other goroutines call [TryPush]; the mutex makes every
    [TryPush] and every pass of [Do] atomic, so a run is an interleaving of
    the two. *)

Inductive pe_action :=
| APush (b : blockEvents)   (* some goroutine calls [TryPush] *)
| APass.                    (* the goroutine inside [Do] makes its next pass *)

Record pe_run := mkPeRun {
  run_pe : pendingEvents;
  run_called : list call;             (* callback invocations made by [Do] *)
  run_accepted : list blockEvents;    (* entries for which [TryPush] returned true *)
  run_rejected : list blockEvents;    (* entries for which [TryPush] returned false *)
  run_returned : bool                 (* [Do] has returned *)
}.

Definition pe_step (s : pe_run) (a : pe_action) : pe_run :=
  match a with
  | APush b =>
      match TryPush (run_pe s) (Events b) (Hash b) (Number b) with
      | (pe', true) =>
          mkPeRun pe' (run_called s) (run_accepted s ++ [b]) (run_rejected s) (run_returned s)
      | (pe', false) =>
          mkPeRun pe' (run_called s) (run_accepted s) (run_rejected s ++ [b]) (run_returned s)
      end
  | APass =>
      if run_returned s then s
      else
        match Do_pass (run_pe s) with
        | (pe', DoBreak) =>
            mkPeRun pe' (run_called s) (run_accepted s) (run_rejected s) true
        | (pe', DoCalled c) =>
            mkPeRun pe' (run_called s ++ [c]) (run_accepted s) (run_rejected s) false
        end
  end.

Definition pe_exec (s : pe_run) (acts : list pe_action) : pe_run :=
  fold_left pe_step acts s.

(** [Do] is entered on the queue [pe]. *)
Definition pe_enter (pe : pendingEvents) : pe_run := mkPeRun pe [] [] [] false.

(** ** The node's services

    Every call that leaves the process.  [CreateStorageKey] and
    [DecodeEventRecords] are the codec's functions of the metadata; the
    others are RPC requests.  The storage item is always [System.Events]. *)

Record types_KeyValueOption := mkKeyValueOption {
  StorageKey : types_StorageKey;
  HasStorageData : bool;
  StorageData : types_StorageDataRaw
}.

Record types_StorageChangeSet := mkStorageChangeSet {
  Block : types_Hash;
  Changes : list types_KeyValueOption
}.

Record types_Header := mkHeader { header_Number : types_BlockNumber }.

Arguments mkStorageChangeSet Block%_N Changes%_list.
Arguments mkHeader header_Number%_N.

Record RPC := mkRPC {
  State_GetMetadataLatest : result types_Metadata;
  CreateStorageKey : types_Metadata -> result types_StorageKey;
  State_SubscribeStorageRaw : types_StorageKey -> result unit;
  Chain_GetBlockHash : N -> result types_Hash;
  State_QueryStorageAt : types_StorageKey -> types_Hash -> result (list types_StorageChangeSet);
  Chain_GetHeader : types_Hash -> result types_Header;
  DecodeEventRecords : types_Metadata -> types_StorageDataRaw -> result pallets_Events
}.

(** [codec.Eq(change.StorageKey, key)] *)
Definition codec_Eq (a b : types_StorageKey) : bool := String.eqb a b.

(** The guard [!codec.Eq(change.StorageKey, key) || !change.HasStorageData]
    under which a change is passed over, on both paths. *)
Definition skipped (key : types_StorageKey) (change : types_KeyValueOption) : bool :=
  negb (codec_Eq (StorageKey change) key) || negb (HasStorageData change).

(** ** The client: lifecycle and registry *)

(** What one successful [StartEventsListening] creates: the raw
    subscription [sub], the channel [done], the [sync.Once] of the cancel
    closure, and the dispatcher goroutine with the [meta] and [key] it
    captured. *)
Record Listening := mkListening {
  lst_meta : types_Metadata;
  lst_key : types_StorageKey;
  lst_once : bool;          (* the [once.Do] of the cancel closure has run *)
  lst_stopped : bool;       (* the dispatcher received from [done] and returned *)
  lst_unsubscribed : bool   (* [sub.Unsubscribe()] was called *)
}.

(** The fields of [Client] the engine uses.  [cancelListening] and
    [errsListening] are [None] while nil and otherwise name the closure and
    the channel by the position in [listenings] of the start that made
    them.  A value of [eventsListeners] names a [callbackWrapper] closure by
    its creation rank. *)
Record Client := mkClient {
  eventsListeners : gmap Z nat;
  isListening : Z;
  cancelListening : option nat;
  errsListening : option nat;
  listenings : list Listening;
  wrappers : nat
}.

(** The engine part of [NewClient]. *)
Definition NewClient : Client := mkClient ∅ 0 None None [] 0.

(** The triple returned by [StartEventsListening]; the error is [None]
    when nil. *)
Definition StartResult : Type := (option nat * option nat * option error)%type.

(** [func (c *Client) StartEventsListening()], as one step.  [rpc] is the
    node as it answers during this call. *)
Definition StartEventsListening (rpc : RPC) (c : Client) : Client * StartResult :=
  if negb (isListening c =? 0)%Z
  then (c, (cancelListening c, errsListening c, None))
  else
    let c1 := mkClient (eventsListeners c) 1 (cancelListening c) (errsListening c)
                (listenings c) (wrappers c) in
    match State_GetMetadataLatest rpc with
    | inr err => (c1, (None, None, Some err))
    | inl meta =>
        match CreateStorageKey rpc meta with
        | inr err => (c1, (None, None, Some err))
        | inl key =>
            match State_SubscribeStorageRaw rpc key with
            | inr err => (c1, (None, None, Some err))
            | inl _ =>
                let k := length (listenings c) in
                (mkClient (eventsListeners c) 1 (Some k) (Some k)
                   (listenings c ++ [mkListening meta key false false false])
                   (wrappers c),
                 (Some k, Some k, None))
            end
        end
    end.

(** Calls to [StartEventsListening] one after another, the node answering
    the i-th call as [rpcs !! i]. *)
Fixpoint StartEventsListening_calls (rpcs : list RPC) (c : Client) : Client * list StartResult :=
  match rpcs with
  | [] => (c, [])
  | rpc :: rest =>
      let (c1, r) := StartEventsListening rpc c in
      let (c2, rs) := StartEventsListening_calls rest c1 in
      (c2, r :: rs)
  end.

(** A call of the closure stored in [c.cancelListening] by the [k]-th
    successful start: [once.Do(func() { done <- struct{}{};
    sub.Unsubscribe(); c.isListening = 0 })]. *)
Definition call_cancelListening (k : nat) (c : Client) : Client :=
  match listenings c !! k with
  | None => c
  | Some ln =>
      if lst_once ln then c
      else
        mkClient (eventsListeners c) 0 (cancelListening c) (errsListening c)
          (<[k := mkListening (lst_meta ln) (lst_key ln) true true true]> (listenings c))
          (wrappers c)
  end.

(** Number of raw storage subscriptions opened so far. *)
Definition subscriptions_opened (c : Client) : nat := length (listenings c).

(** *** The scan for a free index

    [for i := 0; i <= math.MaxInt; i++ { if _, ok := c.eventsListeners[i];
    !ok { idx = i; break }; if i == math.MaxInt { return nil, error } }] *)

Definition math_MaxInt : Z := 2 ^ 63 - 1.

Inductive scan :=
| ScanBreak (idx : Z)   (* [idx = i; break] *)
| ScanError             (* [return nil, fmt.Errorf("too many events listeners")] *)
| ScanNext (i : Z).     (* the body fell through: the loop goes on at [i] *)

(** The loop body at [i]. [i + 1] cannot overflow: the body returns when
    [i == math.MaxInt]. *)
Definition scan_body (m : gmap Z nat) (i : Z) : scan :=
  match m !! i with
  | None => ScanBreak i
  | Some _ => if (i =? math_MaxInt)%Z then ScanError else ScanNext (i + 1)
  end.

(** [2 ^ k] passes of the loop starting at [i], stopping at the first
    [break] or [return]. *)
Fixpoint scan_pow (k : nat) (m : gmap Z nat) (i : Z) : scan :=
  match k with
  | O => scan_body m i
  | S k' =>
      match scan_pow k' m i with
      | ScanNext i' => scan_pow k' m i'
      | r => r
      end
  end.

(** The whole loop: [i] runs from [0] to [math.MaxInt], that is [2 ^ 63]
    passes at most. *)
Definition scan_loop (m : gmap Z nat) : scan := scan_pow 63 m 0.

(** ** One registered listener

    The variables that [RegisterEventsListener] allocates for one listener
    and shares between its closures ([callbackWrapper], the backfill
    goroutine, [cancel]), the state of those goroutines, and the trace of
    what they have done. *)

(** Which code invoked the user's callback. *)
Inductive path :=
| ViaBackfill   (* [callback(events, header.Number, set.Block)] in the backfill loop *)
| ViaDo         (* the callback handed to [pendingEvents.Do] *)
| ViaWrapper.   (* [callback(events, blockNumber, blockHash)] at the end of [callbackWrapper] *)

Inductive event :=
| ECallback (p : path) (c : call)
| EErr (e : error)                    (* [c.errsListening <- e] *)
| EGetMetadataLatest
| EGetBlockHash (n : N)
| EQueryStorageAt (h : types_Hash)
| EGetHeader (h : types_Hash).

(** Where the goroutine started by [RegisterEventsListener] stands. *)
Inductive pc :=
| AwaitStarted
    (* blocked on [<-subscriptionStarted] *)
| LoopHead (meta : types_Metadata) (key : types_StorageKey) (currentBlock : N)
    (* about to test [currentBlock < subscriptionStartBlock] *)
| InSets (meta : types_Metadata) (key : types_StorageKey) (currentBlock : N)
    (sets : list types_StorageChangeSet)
    (* in [range blockChangesSets], [sets] still to come *)
| InChanges (meta : types_Metadata) (key : types_StorageKey) (currentBlock : N)
    (header : types_Header) (block : types_Hash)
    (changes : list types_KeyValueOption) (sets : list types_StorageChangeSet)
    (* in [range set.Changes], [changes] still to come, then [sets] *)
| AtCallback (meta : types_Metadata) (key : types_StorageKey) (currentBlock : N)
    (header : types_Header) (block : types_Hash) (events : pallets_Events)
    (changes : list types_KeyValueOption) (sets : list types_StorageChangeSet)
    (* [cancelled] has been read as false: about to call
       [callback(events, header.Number, set.Block)] *)
| InDo
    (* inside [pendingEvents.Do(callback)], between two passes *)
| Returned.

Record Listener := mkListener {
  l_idx : Z;
  l_begin : types_BlockNumber;
  subscriptionStartBlock : N;
  subscriptionStarted : bool;     (* the channel is closed *)
  l_pendingEvents : pendingEvents;
  cancelled : bool;
  l_once : bool;                  (* the [once.Do] of [cancel] has run *)
  l_registered : bool;            (* [c.eventsListeners[idx]] is this listener's wrapper *)
  l_pc : pc;
  l_spawned : list call;          (* [go callback(...)] goroutines that have not run yet *)
  l_panicked : bool;              (* a goroutine panicked: the process is gone *)
  l_trace : list event
}.

Arguments mkListener l_idx%_Z l_begin%_N subscriptionStartBlock%_N.

(** The listener as [RegisterEventsListener] leaves it. *)
Definition Listener_new (idx : Z) (begin : types_BlockNumber) : Listener :=
  mkListener idx begin 0 false pendingEvents_zero false false true AwaitStarted [] false [].

Arguments Listener_new idx%_Z begin%_N.

Definition set_pc (p : pc) (l : Listener) : Listener :=
  mkListener (l_idx l) (l_begin l) (subscriptionStartBlock l) (subscriptionStarted l)
    (l_pendingEvents l) (cancelled l) (l_once l) (l_registered l) p (l_spawned l)
    (l_panicked l) (l_trace l).

Definition emit (es : list event) (l : Listener) : Listener :=
  mkListener (l_idx l) (l_begin l) (subscriptionStartBlock l) (subscriptionStarted l)
    (l_pendingEvents l) (cancelled l) (l_once l) (l_registered l) (l_pc l) (l_spawned l)
    (l_panicked l) (l_trace l ++ es).

Definition set_pendingEvents (pe : pendingEvents) (l : Listener) : Listener :=
  mkListener (l_idx l) (l_begin l) (subscriptionStartBlock l) (subscriptionStarted l)
    pe (cancelled l) (l_once l) (l_registered l) (l_pc l) (l_spawned l)
    (l_panicked l) (l_trace l).

Definition set_spawned (ts : list call) (l : Listener) : Listener :=
  mkListener (l_idx l) (l_begin l) (subscriptionStartBlock l) (subscriptionStarted l)
    (l_pendingEvents l) (cancelled l) (l_once l) (l_registered l) (l_pc l) ts
    (l_panicked l) (l_trace l).

(** A successful [atomic.CompareAndSwapUint32(&subscriptionStartBlock, 0,
    uint32(blockNumber))]; [closed] is the state of [subscriptionStarted]
    afterwards. *)
Definition set_start (n : N) (closed : bool) (l : Listener) : Listener :=
  mkListener (l_idx l) (l_begin l) n closed
    (l_pendingEvents l) (cancelled l) (l_once l) (l_registered l) (l_pc l) (l_spawned l)
    (l_panicked l) (l_trace l).

Definition set_panicked (l : Listener) : Listener :=
  mkListener (l_idx l) (l_begin l) (subscriptionStartBlock l) (subscriptionStarted l)
    (l_pendingEvents l) (cancelled l) (l_once l) (l_registered l) (l_pc l) (l_spawned l)
    true (l_trace l).

(** The body of [once.Do] in [cancel], on the listener's side:
    [cancelled = true] and the wrapper leaves [c.eventsListeners]. *)
Definition cancel_listener (l : Listener) : Listener :=
  if l_once l then l
  else
    mkListener (l_idx l) (l_begin l) (subscriptionStartBlock l) (subscriptionStarted l)
      (l_pendingEvents l) true true false (l_pc l) (l_spawned l)
      (l_panicked l) (l_trace l).

(** The [cancel] closure returned by [RegisterEventsListener]:
    [once.Do(func() { c.mu.Lock(); cancelled = true;
    delete(c.eventsListeners, idx); c.mu.Unlock() })]. *)
Definition cancel (l : Listener) (c : Client) : Listener * Client :=
  if l_once l then (l, c)
  else
    (cancel_listener l,
     mkClient (delete (l_idx l) (eventsListeners c)) (isListening c)
       (cancelListening c) (errsListening c) (listenings c) (wrappers c)).

(** [func (c *Client) RegisterEventsListener(begin, callback)]: the index
    scan, then the listener's variables, its wrapper stored in the map and
    its goroutine started.  The loop cannot be left by its condition; were
    it, [idx] would keep its zero value. *)
Definition RegisterEventsListener (begin : types_BlockNumber) (c : Client)
    : Client * result Listener :=
  match scan_loop (eventsListeners c) with
  | ScanError => (c, inr "too many events listeners")
  | r =>
      let idx := match r with ScanBreak i => i | _ => 0%Z end in
      (mkClient (<[idx := wrappers c]> (eventsListeners c)) (isListening c)
         (cancelListening c) (errsListening c) (listenings c) (S (wrappers c)),
       inl (Listener_new idx begin))
  end.

(** [callbackWrapper(events, blockNumber, blockHash)], run by a goroutine
    of the dispatcher.  The compare-and-swap succeeds whenever the stored
    value is 0; closing [subscriptionStarted] a second time panics.
    [blockNumber] is a [uint32] already: the conversion changes nothing. *)
Definition callbackWrapper (l : Listener) (c : call) : Listener :=
  let '(events, blockNumber, blockHash) := c in
  let swapped := (subscriptionStartBlock l =? 0)%N in
  if swapped && subscriptionStarted l then set_panicked (set_start blockNumber true l)
  else
    let l1 := if swapped then set_start blockNumber true l else l in
    match TryPush (l_pendingEvents l1) events blockHash blockNumber with
    | (pe, true) => set_pendingEvents pe l1
    | (_, false) => emit [ECallback ViaWrapper (events, blockNumber, blockHash)] l1
    end.

(** One step of the goroutine started by [RegisterEventsListener].  The
    read of [cancelled] and the call of the callback that follows it are
    two steps: the flag is read without [c.mu], and [cancel] can run
    between the two. *)
Definition backfill_step (rpc : RPC) (l : Listener) : Listener :=
  match l_pc l with
  | AwaitStarted =>
      if subscriptionStarted l then
        if (subscriptionStartBlock l <=? l_begin l)%N then set_pc Returned l
        else
          match State_GetMetadataLatest rpc with
          | inr err =>
              set_pc Returned
                (emit [EGetMetadataLatest; EErr (Errorf "get metadata" err)] l)
          | inl meta =>
              match CreateStorageKey rpc meta with
              | inr err =>
                  set_pc Returned
                    (emit [EGetMetadataLatest; EErr (Errorf "create storage key" err)] l)
              | inl key =>
                  set_pc (LoopHead meta key (l_begin l)) (emit [EGetMetadataLatest] l)
              end
          end
      else l
  | LoopHead meta key currentBlock =>
      if (currentBlock <? subscriptionStartBlock l)%N then
        match Chain_GetBlockHash rpc currentBlock with
        | inr err =>
            set_pc Returned
              (emit [EGetBlockHash currentBlock; EErr (Errorf "get block hash" err)] l)
        | inl bHash =>
            match State_QueryStorageAt rpc key bHash with
            | inr err =>
                set_pc Returned
                  (emit [EGetBlockHash currentBlock; EQueryStorageAt bHash;
                         EErr (Errorf "query storage" err)] l)
            | inl blockChangesSets =>
                set_pc (InSets meta key currentBlock blockChangesSets)
                  (emit [EGetBlockHash currentBlock; EQueryStorageAt bHash] l)
            end
        end
      else set_pc InDo l
  | InSets meta key currentBlock sets =>
      match sets with
      | [] => set_pc (LoopHead meta key (currentBlock + 1)) l
      | set :: rest =>
          match Chain_GetHeader rpc (Block set) with
          | inr err =>
              set_pc Returned
                (emit [EGetHeader (Block set); EErr (Errorf "get header" err)] l)
          | inl header =>
              set_pc (InChanges meta key currentBlock header (Block set) (Changes set) rest)
                (emit [EGetHeader (Block set)] l)
          end
      end
  | InChanges meta key currentBlock header block changes sets =>
      match changes with
      | [] => set_pc (InSets meta key currentBlock sets) l
      | change :: rest =>
          let next := InChanges meta key currentBlock header block rest sets in
          if skipped key change then set_pc next l
          else
            match DecodeEventRecords rpc meta (StorageData change) with
            | inr err => set_pc next (emit [EErr (Errorf "events decoder" err)] l)
            | inl events =>
                if cancelled l then set_pc Returned l
                else set_pc (AtCallback meta key currentBlock header block events rest sets) l
            end
      end
  | AtCallback meta key currentBlock header block events changes sets =>
      set_pc (InChanges meta key currentBlock header block changes sets)
        (emit [ECallback ViaBackfill (events, header_Number header, block)] l)
  | InDo =>
      match Do_pass (l_pendingEvents l) with
      | (pe, DoBreak) => set_pc Returned (set_pendingEvents pe l)
      | (pe, DoCalled c) => emit [ECallback ViaDo c] (set_pendingEvents pe l)
      end
  | Returned => l
  end.

(** What can happen next to a listener. *)
Inductive action :=
| ASpawn (c : call)   (* the dispatcher runs [go callback(events, header.Number, blockHash)] *)
| ARun (k : nat)      (* the [k]-th goroutine still waiting runs [callbackWrapper] *)
| ATick               (* the backfill goroutine takes its next step *)
| ACancel.            (* the [cancel] function of the listener is called *)

Definition step (rpc : RPC) (l : Listener) (a : action) : Listener :=
  if l_panicked l then l
  else
    match a with
    | ASpawn c => if l_registered l then set_spawned (l_spawned l ++ [c]) l else l
    | ARun k =>
        match l_spawned l !! k with
        | None => l
        | Some c => callbackWrapper (set_spawned (delete k (l_spawned l)) l) c
        end
    | ATick => backfill_step rpc l
    | ACancel => cancel_listener l
    end.

Definition exec (rpc : RPC) (l : Listener) (sched : list action) : Listener :=
  fold_left (step rpc) sched l.

(** *** Readings of a trace *)

Definition callback_of (e : event) : option call :=
  match e with ECallback _ c => Some c | _ => None end.

Definition backfill_callback_of (e : event) : option call :=
  match e with ECallback ViaBackfill c => Some c | _ => None end.

Definition error_of (e : event) : option error :=
  match e with EErr err => Some err | _ => None end.

Definition fetch_of (e : event) : option N :=
  match e with EGetBlockHash n => Some n | _ => None end.

Definition is_request (e : event) : bool :=
  match e with
  | EGetMetadataLatest | EGetBlockHash _ | EQueryStorageAt _ | EGetHeader _ => true
  | _ => false
  end.

(** The callback invocations of a listener, in order. *)
Definition delivered (l : Listener) : list call := omap callback_of (l_trace l).

(** The block numbers handed to the callback, in order. *)
Definition delivered_numbers (l : Listener) : list N := call_number <$> delivered l.

Definition delivered_by_backfill (l : Listener) : list call :=
  omap backfill_callback_of (l_trace l).

Definition errors_sent (l : Listener) : list error := omap error_of (l_trace l).

(** The heights for which a historical fetch was started. *)
Definition heights_fetched (l : Listener) : list N := omap fetch_of (l_trace l).

Definition requests (l : Listener) : list event := filter (fun e => is_request e = true) (l_trace l).

(** The callback invocation that the backfill loop is committed to: it
    has read [cancelled] as false and has not made the call yet. *)
Definition committed (l : Listener) : list call :=
  match l_pc l with
  | AtCallback _ _ _ header block events _ _ => [(events, header_Number header, block)]
  | _ => []
  end.

(** ** The dispatcher *)

Inductive dispatch_event :=
| DErr (e : error)                            (* [c.errsListening <- e] *)
| DGo (idx : Z) (wrapper : nat) (c : call).   (* [go callback(events, header.Number, blockHash)] *)

(** [for _, callback := range c.eventsListeners { go callback(...) }] under
    [c.mu]; Go fixes no order on the entries. *)
Definition fan_out (c : Client) (cl : call) : list dispatch_event :=
  (fun iw : Z * nat => DGo iw.1 iw.2 cl) <$> map_to_list (eventsListeners c).

(** [for _, change := range changes { ... }] of
    [processSystemEventsStorageChanges]. *)
Fixpoint dispatch_changes (rpc : RPC) (c : Client) (meta : types_Metadata)
    (storageKey : types_StorageKey) (header : types_Header) (blockHash : types_Hash)
    (changes : list types_KeyValueOption) : list dispatch_event :=
  match changes with
  | [] => []
  | change :: rest =>
      let more := dispatch_changes rpc c meta storageKey header blockHash rest in
      if skipped storageKey change then more
      else
        match DecodeEventRecords rpc meta (StorageData change) with
        | inr err => DErr (Errorf "events decoder" err) :: more
        | inl events => fan_out c (events, header_Number header, blockHash) ++ more
        end
  end.

(** [func (c *Client) processSystemEventsStorageChanges(changes, meta,
    storageKey, blockHash)]; it leaves the client as it was. *)
Definition processSystemEventsStorageChanges (rpc : RPC) (c : Client)
    (changes : list types_KeyValueOption) (meta : types_Metadata)
    (storageKey : types_StorageKey) (blockHash : types_Hash) : list dispatch_event :=
  match Chain_GetHeader rpc blockHash with
  | inr err => [DErr (Errorf "get header" err)]
  | inl header => dispatch_changes rpc c meta storageKey header blockHash changes
  end.

(** What the [select] of the dispatcher goroutine receives. *)
Inductive received :=
| FromDone                                          (* [case <-done] *)
| FromSub (c : Client) (set : types_StorageChangeSet).
    (* [case set := <-sub.Chan()], the client being [c] at that moment *)

(** The goroutine started by [StartEventsListening]:
    [for { select { case <-done: return; case set := <-sub.Chan(): ... } }] *)
Fixpoint dispatcher (rpc : RPC) (meta : types_Metadata) (key : types_StorageKey)
    (inputs : list received) : list dispatch_event :=
  match inputs with
  | [] => []
  | FromDone :: _ => []
  | FromSub c set :: rest =>
      processSystemEventsStorageChanges rpc c (Changes set) meta key (Block set)
        ++ dispatcher rpc meta key rest
  end.

(** ** Nodes, feeds and schedules used in the examples *)

(** A node on which the block at height [n] has hash [n] and one change of
    [System.Events]; the change of a block chosen by [garbled] does not
    decode. *)
Definition node (garbled : N -> bool) : RPC :=
  mkRPC (inl 1%N) (fun _ => inl "System.Events") (fun _ => inl tt)
    (fun n => inl n)
    (fun key h =>
       inl [mkStorageChangeSet h
              [mkKeyValueOption key true (if garbled h then "garbled" else "events")]])
    (fun h => inl (mkHeader h))
    (fun _ raw => if String.eqb raw "garbled" then inr "unknown variant" else inl raw).

Definition healthy_node : RPC := node (fun _ => false).

(** A node that cannot be reached. *)
Definition node_down : RPC :=
  mkRPC (inr "connection refused") (fun _ => inr "no metadata") (fun _ => inr "connection refused")
    (fun _ => inr "connection refused") (fun _ _ => inr "connection refused")
    (fun _ => inr "connection refused") (fun _ _ => inr "no metadata").

(** The wrapper invocation that the dispatcher spawns for the block at
    height [n] of [node]. *)
Definition notification (n : N) : call := ("events", n, n).

(** The first live notification is for block 5; the wrapper runs, then the
    backfill goroutine and two more notifications. *)
Definition late_schedule : list action :=
  [ASpawn (notification 5); ARun 0; ATick; ASpawn (notification 6); ARun 0; ATick;
   ASpawn (notification 7); ARun 0; ATick; ATick].

(** The first live notification is for block 3, then the backfill goroutine
    runs to its end. *)
Definition backfill_schedule : list action :=
  [ASpawn (notification 3); ARun 0] ++ replicate 16 ATick.

(** As [backfill_schedule], the listener being cancelled once the
    goroutine has entered the loop. *)
Definition cancelled_schedule : list action :=
  [ASpawn (notification 4); ARun 0; ATick; ACancel] ++ replicate 18 ATick.

(** Two notifications whose goroutines run in the opposite order. *)
Definition swapped_schedule : list action :=
  [ASpawn (notification 5); ASpawn (notification 6); ARun 1; ARun 0] ++ replicate 18 ATick.

(** Two notifications whose goroutines run in their order. *)
Definition ordered_schedule : list action :=
  [ASpawn (notification 5); ASpawn (notification 6); ARun 0; ATick; ARun 0]
    ++ replicate 14 ATick ++ [ASpawn (notification 7); ARun 0].

(** A node as [healthy_node] on which the header of block 8 cannot be
    fetched and the change "garbled" does not decode. *)
Definition flaky_node : RPC :=
  mkRPC (inl 1%N) (fun _ => inl "System.Events") (fun _ => inl tt)
    (fun n => inl n)
    (fun key h => inl [mkStorageChangeSet h [mkKeyValueOption key true "events"]])
    (fun h => if (h =? 8)%N then inr "header not found" else inl (mkHeader h))
    (fun _ raw => if String.eqb raw "garbled" then inr "unknown variant" else inl raw).

(** A listening client with two registered listeners. *)
Definition two_listeners : Client :=
  mkClient (<[0%Z := 0]> (<[1%Z := 1]> ∅)) 1 (Some 0) (Some 0)
    [mkListening 1%N "System.Events" false false false] 2.

(** The notifications for block 8, and for block 9 with a garbled change
    before the good one. *)
Definition feed_8_9 : list received :=
  [FromSub two_listeners
     (mkStorageChangeSet 8%N [mkKeyValueOption "System.Events" true "events"]);
   FromSub two_listeners
     (mkStorageChangeSet 9%N [mkKeyValueOption "System.Events" true "garbled";
                            mkKeyValueOption "System.Events" true "events"])].

(** A listener whose backfill has delivered block 1 and is about to fetch
    block 2; the first live notification was for block 3. *)
Definition before_lost_block : Listener :=
  mkListener 0 1 3 true (mkPendingEvents [mkBlockEvents "events" 3 3] false)
    false false true (LoopHead 1%N "System.Events" 2%N) [] false
    [EGetMetadataLatest; EGetBlockHash 1; EQueryStorageAt 1%N; EGetHeader 1%N;
     ECallback ViaBackfill ("events", 1%N, 1%N)].

(** A node as [healthy_node] that has lost block 2. *)
Definition node_without_block_2 : RPC :=
  mkRPC (inl 1%N) (fun _ => inl "System.Events") (fun _ => inl tt)
    (fun n => if (n =? 2)%N then inr "block not found" else inl n)
    (fun key h => inl [mkStorageChangeSet h [mkKeyValueOption key true "events"]])
    (fun h => inl (mkHeader h))
    (fun _ raw => inl raw).

(** A cancelled listener whose goroutine has fetched and decoded block 2
    and is about to read the flag. *)
Definition cancelled_at_check : Listener :=
  mkListener 0 1 4 true (mkPendingEvents [mkBlockEvents "events" 4 4] false)
    true true false
    (InChanges 1%N "System.Events" 2%N (mkHeader 2) 2%N
       [mkKeyValueOption "System.Events" true "events"] [])
    [] false
    [EGetMetadataLatest; EGetBlockHash 1; EQueryStorageAt 1%N; EGetHeader 1%N;
     ECallback ViaBackfill ("events", 1%N, 1%N);
     EGetBlockHash 2; EQueryStorageAt 2%N; EGetHeader 2%N].

(** ** Invariants and hypotheses of the properties *)

(** What every interleaving of pushes and passes keeps true. *)
Definition pe_inv (pe0 : pendingEvents) (s : pe_run) : Prop :=
  run_called s ++ (call_of <$> pe_list (run_pe s))
    = call_of <$> (pe_list pe0 ++ run_accepted s)
  /\ (pe_done (run_pe s) = true -> run_returned s = true)
  /\ (run_returned s = true -> pe_list (run_pe s) = [] /\ pe_done (run_pe s) = true).

(** Every index from [i] up to (not including) [j] is a key of [m]. *)
Definition taken (m : gmap Z nat) (i j : Z) : Prop :=
  forall x : Z, (i <= x < j)%Z -> is_Some (m !! x).

(** What holds of a listener as long as [subscriptionStartBlock] is at
    most [begin]: nothing was traced, the queue is open and the goroutine
    is either still waiting or has returned. *)
Definition quiet (l : Listener) : Prop :=
  (subscriptionStartBlock l <= l_begin l)%N ->
  l_trace l = [] /\ pe_done (l_pendingEvents l) = false
  /\ (l_pc l = AwaitStarted \/ l_pc l = Returned)
  /\ (subscriptionStarted l = false -> subscriptionStartBlock l = 0%N).

(** The reading of "an error aborts the remaining backfill": in the trace
    of the run, no historical delivery comes after an error. *)
Definition aborts_on_error (rpc : RPC) (l : Listener) (sched : list action) : Prop :=
  forall before err after,
    l_trace (exec rpc l sched) = before ++ EErr err :: after ->
    omap backfill_callback_of after = [].

(** The reading of "after cancel the backfill stops issuing historical
    queries, a fetch already issued apart": whenever the schedule calls
    [cancel], at most one height is fetched from then on. *)
Definition stops_fetching_after_cancel (rpc : RPC) (l : Listener) (sched : list action) : Prop :=
  forall before after,
    sched = before ++ ACancel :: after ->
    length (heights_fetched (exec rpc l sched))
    <= S (length (heights_fetched (exec rpc l before))).

(** Strictly increasing block numbers. *)
Definition ascending (ns : list N) : Prop := StronglySorted N.lt ns.

Definition spawn_of (a : action) : option call :=
  match a with ASpawn c => Some c | _ => None end.

(** The block numbers of the live notifications of a schedule, in the
    order in which the dispatcher spawns their wrappers. *)
Definition feed_numbers (sched : list action) : list N :=
  call_number <$> omap spawn_of sched.

(** The wrapper goroutines of the listener run one after another in the
    order in which they were spawned: the one that runs is always the
    oldest still waiting. *)
Definition runs_in_order (sched : list action) : Prop :=
  Forall (fun a => match a with ARun k => k = 0 | _ => True end) sched.

(** Number of changes of [changes] that the guard does not pass over. *)
Fixpoint live_count (key : types_StorageKey) (changes : list types_KeyValueOption) : nat :=
  match changes with
  | [] => 0
  | change :: rest => (if skipped key change then 0 else 1) + live_count key rest
  end.

Fixpoint sets_live_count (key : types_StorageKey) (sets : list types_StorageChangeSet) : nat :=
  match sets with
  | [] => 0
  | set :: rest => live_count key (Changes set) + sets_live_count key rest
  end.

(** Every set of [sets] whose header can be fetched is of height [h]. *)
Definition headers_agree (rpc : RPC) (h : N) (sets : list types_StorageChangeSet) : Prop :=
  forall set header,
    set ∈ sets -> Chain_GetHeader rpc (Block set) = inl header -> header_Number header = h.

(** The node answers a historical query for height [h] with sets of that
    height holding one change of the events key at most. *)
Definition history_faithful (rpc : RPC) : Prop :=
  forall key h bHash sets,
    Chain_GetBlockHash rpc h = inl bHash ->
    State_QueryStorageAt rpc key bHash = inl sets ->
    sets_live_count key sets <= 1 /\ headers_agree rpc h sets.

(** The block numbers delivered, then those waiting in the queue, then
    those of the wrappers spawned and not yet run, then those the rest of
    the schedule will spawn. *)
Definition timeline (l : Listener) (rest : list action) : list N :=
  delivered_numbers l
    ++ (Number <$> pe_list (l_pendingEvents l))
    ++ (call_number <$> l_spawned l)
    ++ feed_numbers rest.

(** What the position of the backfill goroutine says of the deliveries
    made so far. *)
Definition phase_ok (rpc : RPC) (l : Listener) : Prop :=
  match l_pc l with
  | AwaitStarted => delivered_numbers l = []
  | LoopHead _ _ cur =>
      (cur <= subscriptionStartBlock l)%N /\ (0 < subscriptionStartBlock l)%N
      /\ Forall (fun n => n < cur)%N (delivered_numbers l)
  | InSets _ key cur sets =>
      (cur < subscriptionStartBlock l)%N
      /\ headers_agree rpc cur sets
      /\ sets_live_count key sets <= 1
      /\ Forall (fun n => n + N.of_nat (sets_live_count key sets) <= cur)%N
           (delivered_numbers l)
  | InChanges _ key cur header _ changes sets =>
      (cur < subscriptionStartBlock l)%N
      /\ header_Number header = cur
      /\ headers_agree rpc cur sets
      /\ live_count key changes + sets_live_count key sets <= 1
      /\ Forall (fun n =>
                   n + N.of_nat (live_count key changes + sets_live_count key sets) <= cur)%N
           (delivered_numbers l)
  | AtCallback _ key cur header _ _ changes sets =>
      (cur < subscriptionStartBlock l)%N
      /\ header_Number header = cur
      /\ headers_agree rpc cur sets
      /\ live_count key changes + sets_live_count key sets = 0
      /\ Forall (fun n => n < cur)%N (delivered_numbers l)
  | InDo | Returned => True
  end.

(** The invariant of a listener whose wrappers run in order on an
    ascending feed. *)
Definition coherent (rpc : RPC) (l : Listener) (rest : list action) : Prop :=
  ascending (timeline l rest)
  /\ (l_panicked l = false ->
      phase_ok rpc l
      /\ (pe_done (l_pendingEvents l) = true ->
          l_pc l = Returned /\ pe_list (l_pendingEvents l) = [])
      /\ (subscriptionStarted l = false ->
          subscriptionStartBlock l = 0%N /\ l_pc l = AwaitStarted
          /\ pe_list (l_pendingEvents l) = [])
      /\ (subscriptionStartBlock l <> 0%N ->
          Forall (fun n => subscriptionStartBlock l <= n)%N
            ((Number <$> pe_list (l_pendingEvents l))
               ++ (call_number <$> l_spawned l) ++ feed_numbers rest))).

(** Calls of [RegisterEventsListener] one after another, with the given
    [begin] blocks; the listeners created, in order, up to the first
    failure. *)
Fixpoint RegisterEventsListener_calls (begins : list types_BlockNumber) (c : Client)
    : Client * list Listener :=
  match begins with
  | [] => (c, [])
  | begin :: rest =>
      match RegisterEventsListener begin c with
      | (c1, inl l) =>
          let (c2, ls) := RegisterEventsListener_calls rest c1 in (c2, l :: ls)
      | (c1, inr _) => (c1, [])
      end
  end.

(** The node holds the block of height [h] as [chain h] says: its hash,
    the raw value of [System.Events] in it, and the events this value
    decodes to. *)
Definition serves (rpc : RPC) (meta : types_Metadata) (key : types_StorageKey)
    (chain : N -> types_Hash * types_StorageDataRaw * pallets_Events) (h : N) : Prop :=
  Chain_GetBlockHash rpc h = inl (chain h).1.1
  /\ State_QueryStorageAt rpc key (chain h).1.1
     = inl [mkStorageChangeSet (chain h).1.1 [mkKeyValueOption key true (chain h).1.2]]
  /\ Chain_GetHeader rpc (chain h).1.1 = inl (mkHeader h)
  /\ DecodeEventRecords rpc meta (chain h).1.2 = inl (chain h).2.

(** The callback arguments for the historical block of height [h]. *)
Definition historical (chain : N -> types_Hash * types_StorageDataRaw * pallets_Events)
    (h : N) : call :=
  ((chain h).2, h, (chain h).1.1).

(** The [n] heights from [from] on. *)
Definition heights (from : N) (n : nat) : list N :=
  (fun i => from + N.of_nat i)%N <$> seq 0 n.

(** What the backfill goroutine traces for the block of height [h]. *)
Definition block_trace (chain : N -> types_Hash * types_StorageDataRaw * pallets_Events)
    (h : N) : list event :=
  [EGetBlockHash h; EQueryStorageAt (chain h).1.1; EGetHeader (chain h).1.1;
   ECallback ViaBackfill (historical chain h)].

(** The dispatcher spawns the wrapper of each notification and the wrapper
    runs before the next notification comes. *)
Definition arrivals (cs : list call) : list action :=
  flat_map (fun c => [ASpawn c; ARun 0]) cs.
(** The state of a listener whose goroutine is at the head of the loop:
    everything is as in [l] but the position of the goroutine and the
    trace. *)
Definition in_loop (meta : types_Metadata) (key : types_StorageKey)
    (l : Listener) (cur : N) (es : list event) : Listener :=
  set_pc (LoopHead meta key cur) (emit es l).

(** The queue entry that [TryPush] makes of the arguments of a call. *)
Definition entry_of (c : call) : blockEvents := mkBlockEvents c.1.1 c.2 c.1.2.

(** The wrapper invocations that a run of the dispatcher starts for the
    listener at index [idx], in order. *)
Definition started_for (idx : Z) (evs : list dispatch_event) : list call :=
  omap (fun e => match e with
                 | DGo i _ c => if decide (i = idx) then Some c else None
                 | DErr _ => None
                 end) evs.

(** The errors that a run of the dispatcher sends, in order. *)
Definition dispatch_errors (evs : list dispatch_event) : list error :=
  omap (fun e => match e with DErr err => Some err | DGo _ _ _ => None end) evs.

(** The events of the changes that pass the guard and decode, in order. *)
Definition decoded (rpc : RPC) (meta : types_Metadata) (key : types_StorageKey)
    (changes : list types_KeyValueOption) : list pallets_Events :=
  omap (fun change =>
          if skipped key change then None
          else match DecodeEventRecords rpc meta (StorageData change) with
               | inl events => Some events
               | inr _ => None
               end) changes.

(** The decoder errors of the changes that pass the guard, in order. *)
Definition undecoded (rpc : RPC) (meta : types_Metadata) (key : types_StorageKey)
    (changes : list types_KeyValueOption) : list error :=
  omap (fun change =>
          if skipped key change then None
          else match DecodeEventRecords rpc meta (StorageData change) with
               | inl _ => None
               | inr err => Some err
               end) changes.

(** * The bucket types of the contract ([package bucket])

    [types.AccountID] is an array of 32 bytes, compared with [==];
    [types.NewAddressFromAccountID] is the library's and is a parameter of
    the three exported access checks. *)

Module bucket.

Definition AccountId : Type := list Z.

(** [types.Address]; the checks read [AsAccountID] only. *)
Record types_Address := mkAddress { AsAccountID : AccountId }.

Record Bucket := mkBucket {
  OwnerId : AccountId;
  ClusterId : Z;
  ResourceReserved : Z;
  PublicAvailability : bool;
  GasConsumptionCap : Z
}.

Record BucketStatus := mkBucketStatus {
  BucketId : Z;
  bs_Bucket : Bucket;                (* the field [Bucket] *)
  Params : string;
  WriterIds : list AccountId;
  ReaderIds : list AccountId;
  RentCoveredUntilMs : Z             (* [uint64] *)
}.

Record Schedule := mkSchedule { Rate : Z; Offset : Z }.

Record Account := mkAccount {
  Deposit : Z;
  Bonded : Z;
  Negative : Z;
  UnboundedAmount : Z;
  UnbondedTimestamp : Z;
  PayableSchedule : Schedule
}.

(** [a.Bonded.Cmp(big.NewInt(0)) > 0] *)
Definition HasBalance (a : Account) : bool := (0 <? Bonded a)%Z.

(** The conversion [uint64(x)] of an [int64]. *)
Definition uint64 (x : Z) : Z := (x mod 2 ^ 64)%Z.

(** [b.RentCoveredUntilMs < uint64(time.Now().UnixMilli())]; [now] is the
    value of [time.Now().UnixMilli()], an [int64]. *)
Definition RentExpired (now : Z) (b : BucketStatus) : bool :=
  (RentCoveredUntilMs b <? uint64 now)%Z.

Definition isOwner (b : BucketStatus) (address : types_Address) : bool :=
  bool_decide (OwnerId (bs_Bucket b) = AsAccountID address).

(** [for _, id := range ids { if id == address.AsAccountID { return true } };
    return false], the loop of [isWriter] and of [isReader]. *)
Fixpoint range_finds (ids : list AccountId) (address : types_Address) : bool :=
  match ids with
  | [] => false
  | id :: rest =>
      if bool_decide (id = AsAccountID address) then true else range_finds rest address
  end.

Definition isWriter (b : BucketStatus) (address : types_Address) : bool :=
  range_finds (WriterIds b) address.

Definition isReader (b : BucketStatus) (address : types_Address) : bool :=
  range_finds (ReaderIds b) address.

Section Access.

Variable NewAddressFromAccountID : list Z -> result types_Address.

Definition HasWriteAccess (b : BucketStatus) (publicKey : list Z) : bool :=
  match NewAddressFromAccountID publicKey with
  | inr _ => false
  | inl address => isOwner b address || isWriter b address
  end.

Definition HasReadAccess (b : BucketStatus) (publicKey : list Z) : bool :=
  match NewAddressFromAccountID publicKey with
  | inr _ => false
  | inl address => isOwner b address || isWriter b address || isReader b address
  end.

Definition IsOwner (b : BucketStatus) (publicKey : list Z) : bool :=
  match NewAddressFromAccountID publicKey with
  | inr _ => false
  | inl address => isOwner b address
  end.

End Access.

(** The library's constructor: a public key has 32 bytes. *)
Definition address_of_32_bytes (publicKey : list Z) : result types_Address :=
  if decide (length publicKey = 32) then inl (mkAddress publicKey)
  else inr "invalid account ID bytes".

End bucket.

(** * The [DdcClusters] pallet ([package pallets])

    [ClusterId] and [NodePubKey] are declared elsewhere in the package;
    the SCALE codec, the hasher and the RPC call are the library's. *)

Module ddcclusters.

(** A Go slice of bytes: its elements, and what the backing array holds
    between the length and the capacity. *)
Record slice := mkSlice { elems : list Z; spare : list Z }.

Definition len (s : slice) : nat := length (elems s).
Definition cap (s : slice) : nat := length (elems s) + length (spare s).

(** What a call can come to. *)
Inductive outcome (A : Type) :=
| Ok (a : A)          (* [return a, nil] *)
| Err (err : error)   (* [return nil, err] *)
| Panic.              (* a run-time panic *)

Arguments Ok {A} a.
Arguments Err {A} err.
Arguments Panic {A}.

(** The slice expression [s[lo:hi]]: the upper bound is checked against
    the capacity, and the result reads the backing array. *)
Definition slice_range (s : slice) (lo hi : nat) : option (list Z) :=
  if decide (lo <= hi /\ hi <= cap s)
  then Some (take (hi - lo) (drop lo (elems s ++ spare s)))
  else None.

Section Api.

Variables ClusterId NodePubKey : Type.

(** The library calls made by [GetClustersNodes]. *)
Record Env := mkEnv {
  codec_Encode : ClusterId -> result (list Z);
  hash_NewBlake2b128Concat : option error;      (* the error of the constructor *)
  hasher_Write : list Z -> option error;        (* the error of [hasher.Write] *)
  hasher_Sum : list Z -> list Z;                (* [hasher.Sum(nil)] after [Write] of the bytes *)
  State_GetKeysLatest : list Z -> result (list slice);
  codec_Decode : list Z -> result NodePubKey
}.

Record ddcClustersApi := mkApi { clustersNodesKey : list Z }.

(** [for i, key := range keys { ... }]: the keys are decoded in order;
    the first error ends the loop. *)
Fixpoint decode_keys (env : Env) (prefix_len : nat) (keys : list slice)
    : outcome (list NodePubKey) :=
  match keys with
  | [] => Ok []
  | key :: rest =>
      match slice_range key (prefix_len + 16) (prefix_len + 16 + 1 + 32) with
      | None => Panic
      | Some window =>
          match codec_Decode env window with
          | inr err => Err err
          | inl nodePubKey =>
              match decode_keys env prefix_len rest with
              | Ok nodesKeys => Ok (nodePubKey :: nodesKeys)
              | Err err => Err err
              | Panic => Panic
              end
          end
      end
  end.

Definition GetClustersNodes (env : Env) (api : ddcClustersApi) (clusterId : ClusterId)
    : outcome (list NodePubKey) :=
  match codec_Encode env clusterId with
  | inr err => Err err
  | inl clusterIdBytes =>
      match hash_NewBlake2b128Concat env with
      | Some err => Err err
      | None =>
          match hasher_Write env clusterIdBytes with
          | Some err => Err err
          | None =>
              let moduleMethodPrefix1Key :=
                clustersNodesKey api ++ hasher_Sum env clusterIdBytes in
              match State_GetKeysLatest env moduleMethodPrefix1Key with
              | inr err => Err err
              | inl keys => decode_keys env (length moduleMethodPrefix1Key) keys
              end
          end
      end
  end.

End Api.

Arguments codec_Encode {ClusterId NodePubKey}.
Arguments hash_NewBlake2b128Concat {ClusterId NodePubKey}.
Arguments hasher_Write {ClusterId NodePubKey}.
Arguments hasher_Sum {ClusterId NodePubKey}.
Arguments State_GetKeysLatest {ClusterId NodePubKey}.
Arguments codec_Decode {ClusterId NodePubKey}.
Arguments decode_keys {ClusterId NodePubKey}.
Arguments GetClustersNodes {ClusterId NodePubKey}.

(** The 33 bytes that the loop hands to the decoder for a key that is
    long enough: they follow the prefix and the 16 bytes of the hash. *)
Definition window (prefix_len : nat) (key : slice) : list Z :=
  take 33 (drop (prefix_len + 16) (elems key)).

(** An environment for the examples: cluster ids are numbers encoded on
    one byte, the hasher puts 16 zero bytes before the data, a node key is
    decoded from a window that starts with the variant 0, and the node
    stores the keys [stored]. *)
Definition example_env (stored : list slice) : Env Z (list Z) :=
  mkEnv Z (list Z) (fun id => inl [id]) None (fun _ => None)
    (fun data => replicate 16 0%Z ++ data)
    (fun _ => inl stored)
    (fun w => match w with
              | 0%Z :: pk => inl pk
              | _ => inr "unknown variant"
              end).

Definition example_key (variant : Z) (pk : Z) : slice :=
  mkSlice (replicate 32 7%Z ++ replicate 16 0%Z ++ [5%Z] ++ replicate 16 9%Z
           ++ [variant] ++ replicate 32 pk) [].

End ddcclusters.

(** * The [DdcCustomers] pallet ([package pallets])

    The SCALE codec, [types.CreateStorageKey] and the RPC call
    [State.GetStorageLatest] are the library's.  [GetStorageLatest(key,
    &target)] returns [(ok, err)] and may write the target; it is given
    here the target as declared and returns it as the call leaves it. *)

Module ddccustomers.

Record UnlockChunk := mkUnlockChunk { Value : Z; uc_Block : Z }.

Record AccountsLedger := mkAccountsLedger {
  Owner : list Z;
  Total : Z;
  Active : Z;
  Unlocking : list UnlockChunk
}.

Record Bucket := mkBucket {
  BucketId : Z;
  OwnerId : list Z;
  ClusterId : list Z
}.

(** The zero values of [var bucket Bucket] and [var accountsLedger
    AccountsLedger]. *)
Definition Bucket_zero : Bucket := mkBucket 0 [] [].
Definition AccountsLedger_zero : AccountsLedger := mkAccountsLedger [] 0 0 [].

Record Env := mkEnv {
  codec_Encode_BucketId : Z -> result (list Z);
  codec_Encode_AccountID : list Z -> result (list Z);
  types_CreateStorageKey : types_Metadata -> string -> string -> list (list Z)
                           -> result (list Z);
  GetStorageLatest_Bucket : list Z -> Bucket -> bool * option error * Bucket;
  GetStorageLatest_U64 : list Z -> Z -> bool * option error * Z;
  GetStorageLatest_AccountsLedger :
    list Z -> AccountsLedger -> bool * option error * AccountsLedger
}.

Record DdcCustomersApi := mkApi { meta : types_Metadata }.

(** [err != nil] *)
Definition is_error (err : option error) : bool :=
  match err with Some _ => true | None => false end.

Definition GetBuckets (env : Env) (api : DdcCustomersApi) (bucketId : Z)
    : option Bucket * option error :=
  let maybeBucket := @None Bucket in
  match codec_Encode_BucketId env bucketId with
  | inr err => (maybeBucket, Some err)
  | inl bytes =>
      match types_CreateStorageKey env (meta api) "DdcCustomers" "Buckets" [bytes] with
      | inr err => (maybeBucket, Some err)
      | inl key =>
          let '(ok, err, bucket) := GetStorageLatest_Bucket env key Bucket_zero in
          if negb ok || is_error err then (maybeBucket, err)
          else (Some bucket, None)
      end
  end.

Definition GetBucketsCount (env : Env) (api : DdcCustomersApi) : Z * option error :=
  match types_CreateStorageKey env (meta api) "DdcCustomers" "BucketsCount" [] with
  | inr err => (0%Z, Some err)
  | inl key =>
      let '(ok, err, bucketsCount) := GetStorageLatest_U64 env key 0%Z in
      if is_error err then (0%Z, err)
      else if negb ok then (0%Z, None)
      else (bucketsCount, None)
  end.

Definition GetLedger (env : Env) (api : DdcCustomersApi) (owner : list Z)
    : option AccountsLedger * option error :=
  let maybeLedger := @None AccountsLedger in
  match codec_Encode_AccountID env owner with
  | inr err => (maybeLedger, Some err)
  | inl bytes =>
      match types_CreateStorageKey env (meta api) "DdcCustomers" "Ledger" [bytes] with
      | inr err => (maybeLedger, Some err)
      | inl key =>
          let '(ok, err, accountsLedger) :=
            GetStorageLatest_AccountsLedger env key AccountsLedger_zero in
          if negb ok || is_error err then (maybeLedger, err)
          else (Some accountsLedger, None)
      end
  end.

End ddccustomers.

(** * The DDC bucket contract client ([package bucket], contract)

    [hex.DecodeString], [types.NewHashFromHexString], the blockchain
    client behind [pkg.BlockchainClient] and the clock are the
    environment's; [Result.decodeDdcBucketContract] and [BucketInfo] are
    declared elsewhere in the package and are parameters as well. *)

Module contract.

Definition nodeCreateMethod : string := "e8aa4ade".
Definition nodeRemoveMethod : string := "e068fb34".
Definition nodeSetParamsMethod : string := "df8b696e".
Definition nodeGetMethod : string := "847f3997".
Definition nodeListMethod : string := "423286d6".
Definition cdnNodeCreateMethod : string := "e8aa4ade".
Definition cdnNodeRemoveMethod : string := "e068fb34".
Definition cdnNodeSetParamsMethod : string := "df8b696e".
Definition cdnNodeGetMethod : string := "f9a5a813".
Definition cdnNodeListMethod : string := "f8589aae".
Definition clusterCreateMethod : string := "4c0f21f6".
Definition clusterAddNodeMethod : string := "f7496bdc".
Definition clusterRemoveNodeMethod : string := "793e0778".
Definition clusterResetNodeMethod : string := "a78b2e19".
Definition clusterReplaceNodeMethod : string := "48194ab1".
Definition clusterAddCdnNodeMethod : string := "0b4199f3".
Definition clusterRemoveCdnNodeMethod : string := "ff8531d8".
Definition clusterSetParamsMethod : string := "7dac5f9a".
Definition clusterRemoveMethod : string := "2248742a".
Definition clusterSetNodeStatusMethod : string := "8078df7f".
Definition clusterSetCdnNodeStatusMethod : string := "577027ba".
Definition clusterGetMethod : string := "e75411f5".
Definition clusterListMethod : string := "d9db9d44".
Definition hasPermissionMethod : string := "e0942492".
Definition grantTrustedManagerPermissionMethod : string := "ea0cbdcd".
Definition revokeTrustedManagerPermissionMethod : string := "83532355".
Definition adminGrantPermissionMethod : string := "be41ea55".
Definition adminRevokePermissionMethod : string := "6b150666".
Definition adminTransferNodeOwnershipMethod : string := "783b382d".
Definition adminTransferCdnNodeOwnershipMethod : string := "cd9821be".
Definition bucketGetMethod : string := "3802cb77".
Definition accountGetMethod : string := "1d4220fa".
Definition accountDepositMethod : string := "1".
Definition accountBondMethod : string := "2".
Definition accountUnbondMethod : string := "3".
Definition accountGetUsdPerCereMethod : string := "4".
Definition accountSetUsdPerCereMethod : string := "5".
Definition accountWithdrawUnbondedMethod : string := "6".
Definition getAccountsMethod : string := "7".
Definition bucketCreateMethod : string := EmptyString.
Definition bucketChangeOwnerMethod : string := EmptyString.
Definition bucketAllocIntoClusterMethod : string := EmptyString.
Definition bucketSettlePaymentMethod : string := EmptyString.
Definition bucketChangeParamsMethod : string := EmptyString.
Definition bucketListMethod : string := EmptyString.
Definition bucketListForAccountMethod : string := EmptyString.
Definition bucketSetAvailabilityMethod : string := EmptyString.
Definition bucketSetResourceCapMethod : string := EmptyString.
Definition betBucketWritersMethod : string := EmptyString.
Definition betBucketReadersMethod : string := EmptyString.
Definition bucketSetWriterPermMethod : string := EmptyString.
Definition bucketRevokeWriterPermMethod : string := EmptyString.
Definition bucketSetReaderPermMethod : string := EmptyString.
Definition bucketRevokeReaderPermMethod : string := EmptyString.

Definition BucketCreatedEventId : string :=
  "004464634275636b65743a3a4275636b65744372656174656400000000000000".
Definition BucketAllocatedEventId : string :=
  "004464634275636b65743a3a4275636b6574416c6c6f63617465640000000000".
Definition BucketSettlePaymentEventId : string :=
  "004464634275636b65743a3a4275636b6574536574746c655061796d656e7400".
Definition BucketAvailabilityUpdatedId : string :=
  "8d8714b3df602b0ce92b8a3de12daedf222ff9198078f834d57176ca2a06359c".
Definition BucketParamsSetEventId : string :=
  "004464634275636b65743a3a4275636b6574506172616d735365740000000000".
Definition ClusterCreatedEventId : string :=
  "004464634275636b65743a3a436c757374657243726561746564000000000000".
Definition ClusterNodeAddedEventId : string :=
  "004464634275636b65743a3a436c75737465724e6f6465416464656400000000".
Definition ClusterNodeRemovedEventId : string :=
  "004464634275636b65743a3a436c75737465724e6f646552656d6f7665640000".
Definition ClusterCdnNodeAddedEventId : string :=
  "004464634275636b65743a3a436c757374657243646e4e6f6465416464656400".
Definition ClusterCdnNodeRemovedEventId : string :=
  "e8920de02c833de0d4c7a1cc213877437ddcc0e1f03f65dd88c7a79c91cde9d9".
Definition ClusterParamsSetEventId : string :=
  "004464634275636b65743a3a436c7573746572506172616d7353657400000000".
Definition ClusterRemovedEventId : string :=
  "004464634275636b65743a3a436c757374657252656d6f766564000000000000".
Definition ClusterNodeStatusSetEventId : string :=
  "004464634275636b65743a3a436c75737465724e6f6465537461747573536574".
Definition ClusterCdnNodeStatusSetEventId : string :=
  "b3c6265529c37cd82b1e4875fa439024770d825e335f643195801131645f3d26".
Definition ClusterNodeReplacedEventId : string :=
  "004464634275636b65743a3a436c75737465724e6f64655265706c6163656400".
Definition ClusterNodeResetEventId : string :=
  "004464634275636b65743a3a436c75737465724e6f6465526573657400000000".
Definition ClusterReserveResourceEventId : string :=
  "84d6d26a3275dced8e359779bf21488762a1d88029f52522d8fc27607759399e".
Definition ClusterDistributeRevenuesEventId : string :=
  "65441936759a16fb28d0e059b878f2e48283ca2eac57c396a8035cce9e2acdd3".
Definition ClusterDistributeCdnRevenuesEventId : string :=
  "ec0e9cad0816c5f7e9c252a83e85ca177e162dcb4a284bf80b342942f3e9faa5".
Definition CdnNodeCreatedEventId : string :=
  "004464634275636b65743a3a43646e4e6f646543726561746564000000000000".
Definition CdnNodeRemovedEventId : string :=
  "004464634275636b65743a3a43646e4e6f646552656d6f766564000000000000".
Definition CdnNodeParamsSetEventId : string :=
  "004464634275636b65743a3a43646e4e6f6465506172616d7353657400000000".
Definition DepositEventId : string :=
  "004464634275636b65743a3a4465706f73697400000000000000000000000000".
Definition NodeRemovedEventId : string :=
  "004464634275636b65743a3a4e6f646552656d6f766564000000000000000000".
Definition NodeParamsSetEventId : string :=
  "004464634275636b65743a3a4e6f6465506172616d7353657400000000000000".
Definition NodeCreatedEventId : string :=
  "004464634275636b65743a3a4e6f646543726561746564000000000000000000".
Definition GrantPermissionEventId : string :=
  "004464634275636b65743a3a5065726d697373696f6e4772616e746564000000".
Definition RevokePermissionEventId : string :=
  "004464634275636b65743a3a5065726d697373696f6e5265766f6b6564000000".
Definition NodeOwnershipTransferredEventId : string :=
  "f8da30f579016091acfaa384eee0ddbfcb94d408abc09fde35338ea47c83a0a2".
Definition CdnNodeOwnershipTransferredEventId : string :=
  "ad2b04ceaba2414e23695e96e4bd645d7616ba94cc155679497ef730c086b224".

(** [types.Hash]: 32 bytes, read as a number of 256 bits. *)
Definition types_Hash : Type := Z.

(** An [interface{}] passed to the blockchain client. *)
Inductive value :=
| VNil
| VBool (b : bool)
| VU32 (n : Z)
| VU128 (n : Z)
| VString (s : string)
| VAccountID (a : list Z)
| VAccountIDs (l : list (list Z)).

(** [pkg.BlockchainClient]: the one method used here. *)
Record BlockchainClient := mkBlockchainClient {
  CallToReadEncoded : string -> string -> list Z -> list value -> result string
}.

(** [pkg.ContractEventDispatchEntry]: the type of the event's argument,
    by name, and the handler, [None] for a nil func. *)
Record ContractEventDispatchEntry := mkEntry {
  ArgumentType : string;
  Handler : option nat
}.

(** [signature.KeyringPair] *)
Record KeyringPair := mkKeyringPair {
  URI : string;
  Address : string;
  PublicKey : list Z
}.

(** A reading of the clock; [time_zero] stands for the zero [time.Time]. *)
Definition time_Time : Type := Z.
Definition time_zero : time_Time := 0%Z.

Record ddcBucketContract := mkContract {
  contract : BlockchainClient;
  lastAccessTime : time_Time;
  contractAddressSS58 : string;
  keyringPair : KeyringPair;
  nodeCreateMethodId : list Z;
  nodeRemoveMethodId : list Z;
  nodeSetParamsMethodId : list Z;
  nodeGetMethodId : list Z;
  nodeListMethodId : list Z;
  cdnNodeCreateMethodId : list Z;
  cdnNodeRemoveMethodId : list Z;
  cdnNodeSetParamsMethodId : list Z;
  cdnNodeGetMethodId : list Z;
  cdnNodeListMethodId : list Z;
  clusterCreateMethodId : list Z;
  clusterAddNodeMethodId : list Z;
  clusterRemoveNodeMethodId : list Z;
  clusterResetNodeMethodId : list Z;
  clusterReplaceNodeMethodId : list Z;
  clusterAddCdnNodeMethodId : list Z;
  clusterRemoveCdnNodeMethodId : list Z;
  clusterSetParamsMethodId : list Z;
  clusterRemoveMethodId : list Z;
  clusterSetNodeStatusMethodId : list Z;
  clusterSetCdnNodeStatusMethodId : list Z;
  clusterGetMethodId : list Z;
  clusterListMethodId : list Z;
  hasPermissionMethodId : list Z;
  grantTrustedManagerPermissionMethodId : list Z;
  revokeTrustedManagerPermissionMethodId : list Z;
  adminGrantPermissionMethodId : list Z;
  adminRevokePermissionMethodId : list Z;
  adminTransferNodeOwnershipMethodId : list Z;
  adminTransferCdnNodeOwnershipMethodId : list Z;
  accountGetMethodId : list Z;
  accountDepositMethodId : list Z;
  accountBondMethodId : list Z;
  accountUnbondMethodId : list Z;
  accountGetUsdPerCereMethodId : list Z;
  accountSetUsdPerCereMethodId : list Z;
  accountWithdrawUnbondedMethodId : list Z;
  getAccountsMethodId : list Z;
  bucketGetMethodId : list Z;
  bucketCreateMethodId : list Z;
  bucketChangeOwnerMethodId : list Z;
  bucketAllocIntoClusterMethodId : list Z;
  bucketSettlePaymentMethodId : list Z;
  bucketChangeParamsMethodId : list Z;
  bucketListMethodId : list Z;
  bucketListForAccountMethodId : list Z;
  bucketSetAvailabilityMethodId : list Z;
  bucketSetResourceCapMethodId : list Z;
  betBucketWritersMethodId : list Z;
  betBucketReadersMethodId : list Z;
  bucketSetWriterPermMethodId : list Z;
  bucketRevokeWriterPermMethodId : list Z;
  bucketSetReaderPermMethodId : list Z;
  bucketRevokeReaderPermMethodId : list Z;
  eventDispatcher : gmap types_Hash ContractEventDispatchEntry
}.

Definition set_lastAccessTime (t : time_Time) (d : ddcBucketContract) : ddcBucketContract :=
  mkContract (contract d) t (contractAddressSS58 d) (keyringPair d)
    (nodeCreateMethodId d) (nodeRemoveMethodId d) (nodeSetParamsMethodId d)
    (nodeGetMethodId d) (nodeListMethodId d) (cdnNodeCreateMethodId d)
    (cdnNodeRemoveMethodId d) (cdnNodeSetParamsMethodId d) (cdnNodeGetMethodId d)
    (cdnNodeListMethodId d) (clusterCreateMethodId d) (clusterAddNodeMethodId d)
    (clusterRemoveNodeMethodId d) (clusterResetNodeMethodId d)
    (clusterReplaceNodeMethodId d) (clusterAddCdnNodeMethodId d)
    (clusterRemoveCdnNodeMethodId d) (clusterSetParamsMethodId d)
    (clusterRemoveMethodId d) (clusterSetNodeStatusMethodId d)
    (clusterSetCdnNodeStatusMethodId d) (clusterGetMethodId d) (clusterListMethodId d)
    (hasPermissionMethodId d) (grantTrustedManagerPermissionMethodId d)
    (revokeTrustedManagerPermissionMethodId d) (adminGrantPermissionMethodId d)
    (adminRevokePermissionMethodId d) (adminTransferNodeOwnershipMethodId d)
    (adminTransferCdnNodeOwnershipMethodId d) (accountGetMethodId d)
    (accountDepositMethodId d) (accountBondMethodId d) (accountUnbondMethodId d)
    (accountGetUsdPerCereMethodId d) (accountSetUsdPerCereMethodId d)
    (accountWithdrawUnbondedMethodId d) (getAccountsMethodId d) (bucketGetMethodId d)
    (bucketCreateMethodId d) (bucketChangeOwnerMethodId d)
    (bucketAllocIntoClusterMethodId d) (bucketSettlePaymentMethodId d)
    (bucketChangeParamsMethodId d) (bucketListMethodId d)
    (bucketListForAccountMethodId d) (bucketSetAvailabilityMethodId d)
    (bucketSetResourceCapMethodId d) (betBucketWritersMethodId d)
    (betBucketReadersMethodId d) (bucketSetWriterPermMethodId d)
    (bucketRevokeWriterPermMethodId d) (bucketSetReaderPermMethodId d)
    (bucketRevokeReaderPermMethodId d) (eventDispatcher d).

Definition set_eventDispatcher (m : gmap types_Hash ContractEventDispatchEntry) (d : ddcBucketContract) : ddcBucketContract :=
  mkContract (contract d) (lastAccessTime d) (contractAddressSS58 d) (keyringPair d)
    (nodeCreateMethodId d) (nodeRemoveMethodId d) (nodeSetParamsMethodId d)
    (nodeGetMethodId d) (nodeListMethodId d) (cdnNodeCreateMethodId d)
    (cdnNodeRemoveMethodId d) (cdnNodeSetParamsMethodId d) (cdnNodeGetMethodId d)
    (cdnNodeListMethodId d) (clusterCreateMethodId d) (clusterAddNodeMethodId d)
    (clusterRemoveNodeMethodId d) (clusterResetNodeMethodId d)
    (clusterReplaceNodeMethodId d) (clusterAddCdnNodeMethodId d)
    (clusterRemoveCdnNodeMethodId d) (clusterSetParamsMethodId d)
    (clusterRemoveMethodId d) (clusterSetNodeStatusMethodId d)
    (clusterSetCdnNodeStatusMethodId d) (clusterGetMethodId d) (clusterListMethodId d)
    (hasPermissionMethodId d) (grantTrustedManagerPermissionMethodId d)
    (revokeTrustedManagerPermissionMethodId d) (adminGrantPermissionMethodId d)
    (adminRevokePermissionMethodId d) (adminTransferNodeOwnershipMethodId d)
    (adminTransferCdnNodeOwnershipMethodId d) (accountGetMethodId d)
    (accountDepositMethodId d) (accountBondMethodId d) (accountUnbondMethodId d)
    (accountGetUsdPerCereMethodId d) (accountSetUsdPerCereMethodId d)
    (accountWithdrawUnbondedMethodId d) (getAccountsMethodId d) (bucketGetMethodId d)
    (bucketCreateMethodId d) (bucketChangeOwnerMethodId d)
    (bucketAllocIntoClusterMethodId d) (bucketSettlePaymentMethodId d)
    (bucketChangeParamsMethodId d) (bucketListMethodId d)
    (bucketListForAccountMethodId d) (bucketSetAvailabilityMethodId d)
    (bucketSetResourceCapMethodId d) (betBucketWritersMethodId d)
    (betBucketReadersMethodId d) (bucketSetWriterPermMethodId d)
    (bucketRevokeWriterPermMethodId d) (bucketSetReaderPermMethodId d)
    (bucketRevokeReaderPermMethodId d) m.

(** [var eventDispatchTable = map[string]reflect.Type{...}], in the order
    of the text; Go fixes no order on the entries. *)
Definition eventDispatchTable : list (string * string) :=
  [(BucketCreatedEventId, "BucketCreatedEvent");
   (BucketAllocatedEventId, "BucketAllocatedEvent");
   (BucketSettlePaymentEventId, "BucketSettlePaymentEvent");
   (BucketAvailabilityUpdatedId, "BucketAvailabilityUpdatedEvent");
   (ClusterCreatedEventId, "ClusterCreatedEvent");
   (ClusterNodeReplacedEventId, "ClusterNodeReplacedEvent");
   (ClusterReserveResourceEventId, "ClusterReserveResourceEvent");
   (ClusterDistributeRevenuesEventId, "ClusterDistributeRevenuesEvent");
   (CdnNodeCreatedEventId, "CdnNodeCreatedEvent");
   (NodeCreatedEventId, "NodeCreatedEvent");
   (DepositEventId, "DepositEvent");
   (GrantPermissionEventId, "GrantPermissionEvent");
   (RevokePermissionEventId, "RevokePermissionEvent");
   (BucketParamsSetEventId, "BucketParamsSetEvent");
   (ClusterNodeAddedEventId, "ClusterNodeAddedEvent");
   (ClusterNodeRemovedEventId, "ClusterNodeRemovedEvent");
   (ClusterCdnNodeAddedEventId, "ClusterCdnNodeAddedEvent");
   (ClusterCdnNodeRemovedEventId, "ClusterCdnNodeRemovedEvent");
   (ClusterParamsSetEventId, "ClusterParamsSetEvent");
   (ClusterRemovedEventId, "ClusterRemovedEvent");
   (ClusterNodeStatusSetEventId, "ClusterNodeStatusSetEvent");
   (ClusterCdnNodeStatusSetEventId, "ClusterCdnNodeStatusSetEvent");
   (ClusterNodeResetEventId, "ClusterNodeResetEvent");
   (ClusterDistributeCdnRevenuesEventId, "ClusterDistributeCdnRevenuesEvent");
   (CdnNodeRemovedEventId, "CdnNodeRemovedEvent");
   (CdnNodeParamsSetEventId, "CdnNodeParamsSetEvent");
   (NodeRemovedEventId, "NodeRemovedEvent");
   (NodeParamsSetEventId, "NodeParamsSetEvent");
   (NodeOwnershipTransferredEventId, "NodeOwnershipTransferredEvent");
   (CdnNodeOwnershipTransferredEventId, "CdnNodeOwnershipTransferredEvent")].

(** What [log.Fatal] ends the process with: the field of the entry, the
    message and the error. *)
Record fatal := mkFatal {
  fatal_field : string * string;
  fatal_message : string;
  fatal_error : error
}.

Notation "'var' x <~ e ;; k" :=
  (match e with inl x => k | inr f => inr f end)
  (at level 10, x name, e at level 99, k at level 200, only parsing).

Section Contract.

Variable hex_DecodeString : string -> result (list Z).
Variable types_NewHashFromHexString : string -> result types_Hash.

(** [x, err := hex.DecodeString(method); if err != nil {
    log.WithError(err).WithField("method", method).Fatal(message) }] *)
Definition decode_method (method message : string) : list Z + fatal :=
  match hex_DecodeString method with
  | inl id => inl id
  | inr err => inr (mkFatal ("method", method) message err)
  end.

(** [for k, v := range eventDispatchTable { ... }] *)
Fixpoint fill_dispatcher (table : list (string * string))
    (eventDispatcher : gmap types_Hash ContractEventDispatchEntry)
    : gmap types_Hash ContractEventDispatchEntry + fatal :=
  match table with
  | [] => inl eventDispatcher
  | (k, v) :: rest =>
      match types_NewHashFromHexString k with
      | inr err => inr (mkFatal ("hash", k) ("Bad event hash for event " ++ v) err)
      | inl key => fill_dispatcher rest (<[key := mkEntry v None]> eventDispatcher)
      end
  end.

Definition CreateDdcBucketContract (client : BlockchainClient)
    (contractAddressSS58 : string) : ddcBucketContract + fatal :=
  var bucketGetMethodId <~ decode_method bucketGetMethod "Can't decode method bucketGetMethod" ;;
  var clusterGetMethodId <~ decode_method clusterGetMethod "Can't decode method clusterGetMethod" ;;
  var nodeGetMethodId <~ decode_method nodeGetMethod "Can't decode method nodeGetMethod" ;;
  var cdnNodeGetMethodId <~ decode_method cdnNodeGetMethod "Can't decode method cdnNodeGetMethod" ;;
  var accountGetMethodId <~ decode_method accountGetMethod "Can't decode method accountGetMethod" ;;
  var nodeCreateMethodId <~ decode_method nodeCreateMethod "Can't decode method nodeCreateMethod" ;;
  var nodeRemoveMethodId <~ decode_method nodeRemoveMethod "Can't decode method nodeRemoveMethod" ;;
  var nodeSetParamsMethodId <~ decode_method nodeSetParamsMethod "Can't decode method nodeSetParamsMethod" ;;
  var nodeListMethodId <~ decode_method nodeListMethod "Can't decode method nodeListMethod" ;;
  var cdnNodeCreateMethodId <~ decode_method cdnNodeCreateMethod "Can't decode method cdnNodeCreateMethod" ;;
  var cdnNodeRemoveMethodId <~ decode_method cdnNodeRemoveMethod "Can't decode method cdnNodeRemoveMethod" ;;
  var cdnNodeSetParamsMethodId <~ decode_method cdnNodeSetParamsMethod "Can't decode method cdnNodeSetParamsMethod" ;;
  var cdnNodeListMethodId <~ decode_method cdnNodeListMethod "Can't decode method cdnNodeListMethod" ;;
  var clusterCreateMethodId <~ decode_method clusterCreateMethod "Can't decode method clusterCreateMethod" ;;
  var clusterAddNodeMethodId <~ decode_method clusterAddNodeMethod "Can't decode method clusterAddNodeMethod" ;;
  var clusterRemoveNodeMethodId <~ decode_method clusterRemoveNodeMethod "Can't decode method clusterRemoveNodeMethod" ;;
  var clusterResetNodeMethodId <~ decode_method clusterResetNodeMethod "Can't decode method clusterResetNodeMethod" ;;
  var clusterReplaceNodeMethodId <~ decode_method clusterReplaceNodeMethod "Can't decode method clusterReplaceNodeMethod" ;;
  var clusterAddCdnNodeMethodId <~ decode_method clusterAddCdnNodeMethod "Can't decode method clusterAddCdnNodeMethod" ;;
  var clusterRemoveCdnNodeMethodId <~ decode_method clusterRemoveCdnNodeMethod "Can't decode method clusterRemoveCdnNodeMethod" ;;
  var clusterSetParamsMethodId <~ decode_method clusterSetParamsMethod "Can't decode method clusterSetParamsMethod" ;;
  var clusterRemoveMethodId <~ decode_method clusterRemoveMethod "Can't decode method clusterRemoveMethod" ;;
  var clusterSetNodeStatusMethodId <~ decode_method clusterSetNodeStatusMethod "Can't decode method clusterSetNodeStatusMethod" ;;
  var clusterSetCdnNodeStatusMethodId <~ decode_method clusterSetCdnNodeStatusMethod "Can't decode method clusterSetCdnNodeStatusMethod" ;;
  var clusterListMethodId <~ decode_method clusterListMethod "Can't decode method clusterListMethod" ;;
  var hasPermissionMethodId <~ decode_method hasPermissionMethod "Can't decode method hasPermissionMethod" ;;
  var grantTrustedManagerPermissionMethodId <~ decode_method grantTrustedManagerPermissionMethod "Can't decode method grantTrustedManagerPermissionMethod" ;;
  var revokeTrustedManagerPermissionMethodId <~ decode_method revokeTrustedManagerPermissionMethod "Can't decode method revokeTrustedManagerPermissionMethod" ;;
  var adminGrantPermissionMethodId <~ decode_method adminGrantPermissionMethod "Can't decode method adminGrantPermissionMethod" ;;
  var adminRevokePermissionMethodId <~ decode_method adminRevokePermissionMethod "Can't decode method adminRevokePermissionMethod" ;;
  var adminTransferNodeOwnershipMethodId <~ decode_method adminTransferNodeOwnershipMethod "Can't decode method adminTransferNodeOwnershipMethod" ;;
  var adminTransferCdnNodeOwnershipMethodId <~ decode_method adminTransferCdnNodeOwnershipMethod "Can't decode method adminTransferCdnNodeOwnershipMethodId" ;;
  var accountDepositMethodId <~ decode_method accountDepositMethod "Can't decode method accountDepositMethodId" ;;
  var accountBondMethodId <~ decode_method accountBondMethod "Can't decode method accountBondMethodId" ;;
  var accountUnbondMethodId <~ decode_method accountUnbondMethod "Can't decode method accountUnbondMethodId" ;;
  var accountGetUsdPerCereMethodId <~ decode_method accountGetUsdPerCereMethod "Can't decode method accountGetUsdPerCereMethodId" ;;
  var accountSetUsdPerCereMethodId <~ decode_method accountSetUsdPerCereMethod "Can't decode method accountSetUsdPerCereMethodId" ;;
  var accountWithdrawUnbondedMethodId <~ decode_method accountWithdrawUnbondedMethod "Can't decode method accountWithdrawUnbondedMethodId" ;;
  var getAccountsMethodId <~ decode_method getAccountsMethod "Can't decode method getAccountsMethodId" ;;
  var bucketCreateMethodId <~ decode_method bucketCreateMethod "Can't decode method bucketCreateMethodId" ;;
  var bucketChangeOwnerMethodId <~ decode_method bucketChangeOwnerMethod "Can't decode method bucketChangeOwnerMethodId" ;;
  var bucketAllocIntoClusterMethodId <~ decode_method bucketAllocIntoClusterMethod "Can't decode method bucketAllocIntoClusterMethodId" ;;
  var bucketSettlePaymentMethodId <~ decode_method bucketSettlePaymentMethod "Can't decode method bucketSettlePaymentMethodId" ;;
  var bucketChangeParamsMethodId <~ decode_method bucketChangeParamsMethod "Can't decode method bucketChangeParamsMethodId" ;;
  var bucketListMethodId <~ decode_method bucketListMethod "Can't decode method bucketListMethodId" ;;
  var bucketListForAccountMethodId <~ decode_method bucketListForAccountMethod "Can't decode method bucketListForAccountMethodId" ;;
  var bucketSetAvailabilityMethodId <~ decode_method bucketSetAvailabilityMethod "Can't decode method bucketSetAvailabilityMethodId" ;;
  var bucketSetResourceCapMethodId <~ decode_method bucketSetResourceCapMethod "Can't decode method bucketSetResourceCapMethodId" ;;
  var betBucketWritersMethodId <~ decode_method bucketSetResourceCapMethod "Can't decode method bucketSetResourceCapMethodId" ;;
  var betBucketReadersMethodId <~ decode_method betBucketReadersMethod "Can't decode method betBucketReadersMethodId" ;;
  var bucketSetWriterPermMethodId <~ decode_method bucketSetWriterPermMethod "Can't decode method bucketSetWriterPermMethod" ;;
  var bucketRevokeWriterPermMethodId <~ decode_method bucketRevokeWriterPermMethod "Can't decode method bucketRevokeWriterPermMethodId" ;;
  var bucketSetReaderPermMethodId <~ decode_method bucketSetReaderPermMethod "Can't decode method bucketSetReaderPermMethodId" ;;
  var bucketRevokeReaderPermMethodId <~ decode_method bucketRevokeReaderPermMethod "Can't decode method bucketRevokeReaderPermMethodId" ;;
  var eventDispatcher <~ fill_dispatcher eventDispatchTable ∅ ;;
  inl (mkContract client time_zero contractAddressSS58
         (mkKeyringPair EmptyString contractAddressSS58 []) nodeCreateMethodId
         nodeRemoveMethodId nodeSetParamsMethodId nodeGetMethodId nodeListMethodId
         cdnNodeCreateMethodId cdnNodeRemoveMethodId cdnNodeSetParamsMethodId
         cdnNodeGetMethodId cdnNodeListMethodId clusterCreateMethodId
         clusterAddNodeMethodId clusterRemoveNodeMethodId clusterResetNodeMethodId
         clusterReplaceNodeMethodId clusterAddCdnNodeMethodId
         clusterRemoveCdnNodeMethodId clusterSetParamsMethodId clusterRemoveMethodId
         clusterSetNodeStatusMethodId clusterSetCdnNodeStatusMethodId clusterGetMethodId
         clusterListMethodId hasPermissionMethodId grantTrustedManagerPermissionMethodId
         revokeTrustedManagerPermissionMethodId adminGrantPermissionMethodId
         adminRevokePermissionMethodId adminTransferNodeOwnershipMethodId
         adminTransferCdnNodeOwnershipMethodId accountGetMethodId accountDepositMethodId
         accountBondMethodId accountUnbondMethodId accountGetUsdPerCereMethodId
         accountSetUsdPerCereMethodId accountWithdrawUnbondedMethodId
         getAccountsMethodId bucketGetMethodId bucketCreateMethodId
         bucketChangeOwnerMethodId bucketAllocIntoClusterMethodId
         bucketSettlePaymentMethodId bucketChangeParamsMethodId bucketListMethodId
         bucketListForAccountMethodId bucketSetAvailabilityMethodId
         bucketSetResourceCapMethodId betBucketWritersMethodId betBucketReadersMethodId
         bucketSetWriterPermMethodId bucketRevokeWriterPermMethodId
         bucketSetReaderPermMethodId bucketRevokeReaderPermMethodId eventDispatcher).

(** [func (d *ddcBucketContract) AddContractEventHandler(event, handler)] *)
Definition AddContractEventHandler (d : ddcBucketContract) (event : string)
    (handler : option nat) : ddcBucketContract * option error :=
  match types_NewHashFromHexString event with
  | inr err => (d, Some err)
  | inl key =>
      match eventDispatcher d !! key with
      | None => (d, Some "Event not found")
      | Some entry =>
          match Handler entry with
          | Some _ => (d, Some ("Contract event handler already set for " ++ event)%string)
          | None =>
              (set_eventDispatcher
                 (<[key := mkEntry (ArgumentType entry) handler]> (eventDispatcher d)) d,
               None)
          end
      end
  end.

(** [res.decodeDdcBucketContract(data)] for [res := Result{data: result}]:
    given the answer and what [result] holds, the error it returns, the
    [res.err] it leaves and what [result] holds afterwards. *)
Variable decodeDdcBucketContract :
  forall T : Type, string -> T -> option error * option error * T.

(** [func (d *ddcBucketContract) callToRead(result, method, args...)];
    [now] is what [time.Now()] reads during the call.  The third
    component is what [result] holds afterwards: the caller sees it only
    if it passed a pointer. *)
Definition callToRead {T : Type} (d : ddcBucketContract) (now : time_Time)
    (result : T) (method : list Z) (args : list value)
    : ddcBucketContract * option error * T :=
  match CallToReadEncoded (contract d) (contractAddressSS58 d) (contractAddressSS58 d)
          method args with
  | inr err => (d, Some err, result)
  | inl data =>
      let d := set_lastAccessTime now d in
      let '(err, res_err, result) := decodeDdcBucketContract T data result in
      match err with
      | Some err => (d, Some err, result)
      | None => (d, res_err, result)
      end
  end.

Variable BucketInfo : Type.
Variable BucketInfo_zero : BucketInfo.

(** [res := &BucketInfo{}; err := d.callToRead(res, ...); return res, err] *)
Definition BucketGet (d : ddcBucketContract) (now : time_Time) (bucketId : Z)
    : ddcBucketContract * (BucketInfo * option error) :=
  let '(d, err, res) :=
    callToRead d now BucketInfo_zero (bucketGetMethodId d) [VU32 bucketId] in
  (d, (res, err)).

Definition Account_zero : bucket.Account :=
  bucket.mkAccount 0 0 0 0 0 (bucket.mkSchedule 0 0).

(** [res := &Account{}; if err := d.callToRead(res, ...); err != nil {
    return nil, err }; return res, nil] *)
Definition AccountGet (d : ddcBucketContract) (now : time_Time) (account : list Z)
    : ddcBucketContract * (option bucket.Account * option error) :=
  let '(d, err, res) :=
    callToRead d now Account_zero (accountGetMethodId d) [VAccountID account] in
  match err with
  | Some err => (d, (None, Some err))
  | None => (d, (Some res, None))
  end.

(** The methods below hand their named result to [callToRead] by value:
    whatever is decoded goes to a copy. *)

(** [err = d.callToRead(key, d.nodeCreateMethodId, nodeKey, params,
    capacity); return key, err] *)
Definition NodeCreate (d : ddcBucketContract) (now : time_Time) (nodeKey params : string)
    (capacity : Z) : ddcBucketContract * (string * option error) :=
  let key := EmptyString in
  let '(d, err, _) :=
    callToRead d now key (nodeCreateMethodId d)
      [VString nodeKey; VString params; VU32 capacity] in
  (d, (key, err)).

Definition HasPermission (d : ddcBucketContract) (now : time_Time) (account : list Z)
    (permission : string) : ddcBucketContract * (bool * option error) :=
  let has := false in
  let '(d, err, _) :=
    callToRead d now has (hasPermissionMethodId d)
      [VAccountID account; VString permission] in
  (d, (has, err)).

Definition AccountGetUsdPerCere (d : ddcBucketContract) (now : time_Time)
    : ddcBucketContract * (Z * option error) :=
  let balance := 0%Z in
  let '(d, err, _) :=
    callToRead d now balance (accountGetUsdPerCereMethodId d) [VU128 balance] in
  (d, (balance, err)).

Definition GetAccounts (d : ddcBucketContract) (now : time_Time)
    : ddcBucketContract * (list (list Z) * option error) :=
  let accounts := @nil (list Z) in
  let '(d, err, _) :=
    callToRead d now accounts (getAccountsMethodId d) [VAccountIDs accounts] in
  (d, (accounts, err)).

Definition BucketCreate (d : ddcBucketContract) (now : time_Time) (bucketParams : string)
    (clusterId : Z) (ownerId : list Z) : ddcBucketContract * (Z * option error) :=
  let bucketId := 0%Z in
  let '(d, err, _) :=
    callToRead d now bucketId (bucketCreateMethodId d)
      [VString bucketParams; VU32 clusterId; VAccountID ownerId] in
  (d, (bucketId, err)).

Definition GetContractAddress (d : ddcBucketContract) : string := contractAddressSS58 d.

Definition GetLastAccessTime (d : ddcBucketContract) : time_Time := lastAccessTime d.

Definition GetEventDispatcher (d : ddcBucketContract)
    : gmap types_Hash ContractEventDispatchEntry := eventDispatcher d.

End Contract.

(** ** Environments for the examples *)

Definition hex_digit (a : Ascii.ascii) : option Z :=
  let n := Z.of_nat (Ascii.nat_of_ascii a) in
  if ((48 <=? n) && (n <=? 57))%Z then Some (n - 48)%Z
  else if ((97 <=? n) && (n <=? 102))%Z then Some (n - 87)%Z
  else if ((65 <=? n) && (n <=? 70))%Z then Some (n - 55)%Z
  else None.

(** A decoder that, like [encoding/hex], takes the digits two by two and
    rejects a string of odd length. *)
Fixpoint hex_pairs (s : string) : result (list Z) :=
  match s with
  | EmptyString => inl []
  | String a EmptyString => inr "encoding/hex: odd length hex string"
  | String a (String b rest) =>
      match hex_digit a, hex_digit b with
      | Some x, Some y =>
          match hex_pairs rest with
          | inl l => inl ((16 * x + y)%Z :: l)
          | inr err => inr err
          end
      | _, _ => inr "encoding/hex: invalid byte"
      end
  end.

(** A hash constructor that needs 64 digits. *)
Definition hash_of_64_digits (s : string) : result types_Hash :=
  if decide (String.length s = 64) then
    match hex_pairs s with
    | inl l => inl (fold_left (fun h b => (256 * h + b)%Z) l 0%Z)
    | inr err => inr err
    end
  else inr "required result to be 32 bytes".

(** A client that answers every method but the empty one. *)
Definition example_client : BlockchainClient :=
  mkBlockchainClient (fun _ _ method _ =>
    match method with
    | [] => inr "contract trapped"
    | _ => inl "answer"
    end).

(** A decoder of answers that keeps the target as it is. *)
Definition decode_nothing (T : Type) (data : string) (t : T)
    : option error * option error * T :=
  (None, None, t).

(** A contract with empty selectors whose dispatcher knows the deposit
    event only. *)
Definition example_contract : ddcBucketContract :=
  mkContract example_client time_zero "5DoxVBEMVT5nMqQebF6GgjJsk5BPNBtFjMUXwhnAbArVw578"
    (mkKeyringPair EmptyString "5DoxVBEMVT5nMqQebF6GgjJsk5BPNBtFjMUXwhnAbArVw578" [])
    [] [] [] [] [] [] [] [] []
    [] [] [] [] [] [] [] [] []
    [] [] [] [] [] [] [] [] []
    [] [] [] [] [] [] [] [] []
    [] [] [] [] [] [] [] [] []
    [] [] [] [] [] [] [] [] []
    (match hash_of_64_digits DepositEventId with
     | inl key => {[ key := mkEntry "DepositEvent" None ]}
     | inr _ => ∅
     end).

(** ** A caller's successive calls *)

Inductive request :=
| ReqBucketGet (bucketId : Z)
| ReqAccountGet (account : list Z)
| ReqNodeCreate (nodeKey params : string) (capacity : Z)
| ReqHasPermission (account : list Z) (permission : string)
| ReqAccountGetUsdPerCere
| ReqGetAccounts
| ReqBucketCreate (bucketParams : string) (clusterId : Z) (ownerId : list Z).

Section Caller.

Variable decodeDdcBucketContract :
  forall T : Type, string -> T -> option error * option error * T.
Variable BucketInfo : Type.
Variable BucketInfo_zero : BucketInfo.

(** The contract after the call [r] made when the clock reads [now]. *)
Definition serve (d : ddcBucketContract) (now : time_Time) (r : request)
    : ddcBucketContract :=
  match r with
  | ReqBucketGet bucketId =>
      (BucketGet decodeDdcBucketContract BucketInfo BucketInfo_zero d now bucketId).1
  | ReqAccountGet account => (AccountGet decodeDdcBucketContract d now account).1
  | ReqNodeCreate nodeKey params capacity =>
      (NodeCreate decodeDdcBucketContract d now nodeKey params capacity).1
  | ReqHasPermission account permission =>
      (HasPermission decodeDdcBucketContract d now account permission).1
  | ReqAccountGetUsdPerCere => (AccountGetUsdPerCere decodeDdcBucketContract d now).1
  | ReqGetAccounts => (GetAccounts decodeDdcBucketContract d now).1
  | ReqBucketCreate bucketParams clusterId ownerId =>
      (BucketCreate decodeDdcBucketContract d now bucketParams clusterId ownerId).1
  end.

Definition serve_all (d : ddcBucketContract) (rs : list (time_Time * request))
    : ddcBucketContract :=
  fold_left (fun d nr => serve d nr.1 nr.2) rs d.

End Caller.

(** The method selector and the arguments that a call sends. *)
Definition sent (d : ddcBucketContract) (r : request) : list Z * list value :=
  match r with
  | ReqBucketGet bucketId => (bucketGetMethodId d, [VU32 bucketId])
  | ReqAccountGet account => (accountGetMethodId d, [VAccountID account])
  | ReqNodeCreate nodeKey params capacity =>
      (nodeCreateMethodId d, [VString nodeKey; VString params; VU32 capacity])
  | ReqHasPermission account permission =>
      (hasPermissionMethodId d, [VAccountID account; VString permission])
  | ReqAccountGetUsdPerCere => (accountGetUsdPerCereMethodId d, [VU128 0])
  | ReqGetAccounts => (getAccountsMethodId d, [VAccountIDs []])
  | ReqBucketCreate bucketParams clusterId ownerId =>
      (bucketCreateMethodId d, [VString bucketParams; VU32 clusterId; VAccountID ownerId])
  end.

(** The blockchain client answers the call [r] without error. *)
Definition answered (d : ddcBucketContract) (r : request) : bool :=
  match CallToReadEncoded (contract d) (contractAddressSS58 d) (contractAddressSS58 d)
          (sent d r).1 (sent d r).2 with
  | inl _ => true
  | inr _ => false
  end.

(** The clock reading of the last answered call of [rs], [t] if there is
    none. *)
Definition last_answered (d : ddcBucketContract) (rs : list (time_Time * request))
    (t : time_Time) : time_Time :=
  fold_left (fun t nr => if answered d nr.2 then nr.1 else t) rs t.

(** The method constants decoded before [accountDepositMethod], in the
    order of the decoding. *)
Definition decoded_before_accountDeposit : list string :=
  [bucketGetMethod; clusterGetMethod; nodeGetMethod; cdnNodeGetMethod; accountGetMethod; nodeCreateMethod; nodeRemoveMethod; nodeSetParamsMethod; nodeListMethod; cdnNodeCreateMethod; cdnNodeRemoveMethod; cdnNodeSetParamsMethod; cdnNodeListMethod; clusterCreateMethod; clusterAddNodeMethod; clusterRemoveNodeMethod; clusterResetNodeMethod; clusterReplaceNodeMethod; clusterAddCdnNodeMethod; clusterRemoveCdnNodeMethod; clusterSetParamsMethod; clusterRemoveMethod; clusterSetNodeStatusMethod; clusterSetCdnNodeStatusMethod; clusterListMethod; hasPermissionMethod; grantTrustedManagerPermissionMethod; revokeTrustedManagerPermissionMethod; adminGrantPermissionMethod; adminRevokePermissionMethod; adminTransferNodeOwnershipMethod; adminTransferCdnNodeOwnershipMethod].

End contract.

(** * Properties *)

(** ** The [pendingEvents] queue *)

Section PendingEvents.

Implicit Types (pe : pendingEvents) (s : pe_run) (acts : list pe_action).

Lemma TryPush_open pe events hash number :
  pe_done pe = false ->
  TryPush pe events hash number
  = (mkPendingEvents (pe_list pe ++ [mkBlockEvents events hash number]) false, true).
Proof. intros Hd. unfold TryPush. now rewrite Hd. Qed.

Lemma TryPush_closed pe events hash number :
  pe_done pe = true -> TryPush pe events hash number = (pe, false).
Proof. intros Hd. unfold TryPush. now rewrite Hd. Qed.

Lemma Do_fuel_enough (bs : list blockEvents) (d : bool) (fuel : nat) :
  length bs < fuel ->
  Do_fuel fuel (mkPendingEvents bs d) = Some (mkPendingEvents [] true, call_of <$> bs).
Proof.
  revert d fuel. induction bs as [|b bs IH]; intros d fuel Hlt.
  - destruct fuel; [lia|]. reflexivity.
  - destruct fuel; [simpl in Hlt; lia|].
    cbn [Do_fuel Do_pass pe_list pe_done].
    rewrite IH by (simpl in Hlt; lia). reflexivity.
Qed.

Lemma Do_returns pe : Do pe = Some (mkPendingEvents [] true, call_of <$> pe_list pe).
Proof. destruct pe as [bs d]. unfold Do. apply Do_fuel_enough. simpl. lia. Qed.

Lemma pe_inv_enter pe : pe_done pe = false -> pe_inv pe (pe_enter pe).
Proof.
  intros Hd. unfold pe_inv, pe_enter. simpl. rewrite app_nil_r.
  repeat split; congruence.
Qed.

Lemma pe_inv_step pe0 s a : pe_inv pe0 s -> pe_inv pe0 (pe_step s a).
Proof.
  intros (Hcons & Hdone & Hret). destruct s as [[bs d] called acc rej ret].
  simpl in *. destruct a as [b|]; simpl.
  - unfold TryPush; simpl. destruct d; simpl.
    + split; [exact Hcons|]. split; [exact Hdone|exact Hret].
    + split; [|split]; simpl.
      * destruct b; simpl. rewrite !fmap_app, !app_assoc, Hcons, fmap_app. reflexivity.
      * discriminate.
      * intros Hr. destruct (Hret Hr) as [_ ?]. discriminate.
  - destruct ret; simpl; [split; [exact Hcons|]; split; [exact Hdone|exact Hret]|].
    destruct bs as [|b bs]; simpl.
    + split; [exact Hcons|]. split; auto.
    + split; [|split]; simpl.
      * rewrite <- app_assoc. exact Hcons.
      * exact Hdone.
      * discriminate.
Qed.

Lemma pe_inv_exec pe0 acts s : pe_inv pe0 s -> pe_inv pe0 (pe_exec s acts).
Proof.
  revert s. induction acts as [|a acts IH]; intros s Hs; [exact Hs|].
  apply IH, pe_inv_step, Hs.
Qed.

Lemma pe_done_step s a :
  pe_done (run_pe s) = true -> pe_done (run_pe (pe_step s a)) = true.
Proof.
  intros Hd. destruct s as [[bs d] called acc rej ret]. simpl in *. subst d.
  destruct a; simpl; [reflexivity|].
  destruct ret; simpl; [reflexivity|]. destruct bs; reflexivity.
Qed.

Lemma pe_done_exec acts s :
  pe_done (run_pe s) = true -> pe_done (run_pe (pe_exec s acts)) = true.
Proof.
  revert s. induction acts as [|a acts IH]; intros s Hd; [exact Hd|].
  apply IH, pe_done_step, Hd.
Qed.

Lemma pe_returned_passes s n :
  run_returned s = true -> pe_exec s (replicate n APass) = s.
Proof.
  intros Hr. induction n as [|n IH]; [reflexivity|].
  simpl. unfold pe_exec in IH. now rewrite Hr.
Qed.

Lemma pe_passes_return s n :
  length (pe_list (run_pe s)) < n ->
  run_returned (pe_exec s (replicate n APass)) = true.
Proof.
  revert s. induction n as [|n IH]; intros s Hlt; [lia|].
  destruct (run_returned s) eqn:Hr; [now rewrite pe_returned_passes|].
  destruct s as [[bs d] called acc rej ret]. simpl in *. subst ret.
  destruct bs as [|b bs]; simpl.
  - fold (pe_exec (mkPeRun (mkPendingEvents [] true) called acc rej true) (replicate n APass)).
    now rewrite pe_returned_passes.
  - apply IH. simpl in *. lia.
Qed.

End PendingEvents.

(** C10. [TryPush] appends and answers true exactly when [done] is false,
    and answers false leaving the queue as it is once [done] is true.
    [Do] alone returns after handing every entry to the callback in the
    order of the list.  When calls of [TryPush] interleave with the passes
    of [Do] in any way: the callback has received, in order and once each,
    the entries of the list followed by those accepted since, except those
    still in the list; [done] is only ever set by [Do] as it returns; once
    [Do] has returned the list is empty, [done] is true and every accepted
    entry has been delivered; [done] never goes back to false; and when the
    pushes stop, [Do] returns within one pass per entry left plus one. *)
Theorem C10_pendingEvents_queue :
  (forall pe events hash number,
      pe_done pe = false ->
      TryPush pe events hash number
      = (mkPendingEvents (pe_list pe ++ [mkBlockEvents events hash number]) false, true))
  /\ (forall pe events hash number,
      pe_done pe = true -> TryPush pe events hash number = (pe, false))
  /\ (forall pe, Do pe = Some (mkPendingEvents [] true, call_of <$> pe_list pe))
  /\ (forall pe acts,
      pe_done pe = false ->
      let s := pe_exec (pe_enter pe) acts in
      run_called s ++ (call_of <$> pe_list (run_pe s))
        = call_of <$> (pe_list pe ++ run_accepted s)
      /\ (pe_done (run_pe s) = true -> run_returned s = true)
      /\ (run_returned s = true ->
          pe_list (run_pe s) = [] /\ pe_done (run_pe s) = true
          /\ run_called s = call_of <$> (pe_list pe ++ run_accepted s)))
  /\ (forall s acts,
      pe_done (run_pe s) = true -> pe_done (run_pe (pe_exec s acts)) = true)
  /\ (forall s,
      run_returned (pe_exec s (replicate (S (length (pe_list (run_pe s)))) APass)) = true).
Proof.
  split; [exact TryPush_open|]. split; [exact TryPush_closed|].
  split; [exact Do_returns|]. split; [|split].
  - intros pe acts Hd s.
    destruct (pe_inv_exec pe acts (pe_enter pe) (pe_inv_enter pe Hd)) as (Hc & Hdn & Hr).
    fold s in Hc, Hdn, Hr. split; [exact Hc|]. split; [exact Hdn|].
    intros Hret. destruct (Hr Hret) as [Hnil Hdone]. repeat split; auto.
    rewrite Hnil in Hc. simpl in Hc. rewrite app_nil_r in Hc. exact Hc.
  - exact (fun s acts => pe_done_exec acts s).
  - intros s. apply pe_passes_return. lia.
Qed.

(** ** The index scan of [RegisterEventsListener] *)

Section Scan.

Variable m : gmap Z nat.

Lemma scan_pow_spec (k : nat) (i : Z) :
  (0 <= i)%Z -> (i + 2 ^ Z.of_nat k - 1 <= math_MaxInt)%Z ->
  match scan_pow k m i with
  | ScanBreak idx => (i <= idx < i + 2 ^ Z.of_nat k)%Z /\ m !! idx = None /\ taken m i idx
  | ScanError => taken m i (math_MaxInt + 1)
  | ScanNext i' => i' = (i + 2 ^ Z.of_nat k)%Z /\ (i' <= math_MaxInt)%Z /\ taken m i i'
  end.
Proof.
  revert i. induction k as [|k IH]; intros i Hi Hmax.
  - cbn [scan_pow]. unfold scan_body. change (2 ^ Z.of_nat 0)%Z with 1%Z in *.
    destruct (m !! i) as [w|] eqn:Hm.
    + destruct (Z.eqb_spec i math_MaxInt) as [->|Hne].
      * intros x Hx. assert (x = math_MaxInt) as -> by lia. rewrite Hm. eauto.
      * split; [lia|]. split; [lia|].
        intros x Hx. assert (x = i) as -> by lia. rewrite Hm. eauto.
    + split; [lia|]. split; [exact Hm|]. intros x Hx. lia.
  - assert (Hpow : (2 ^ Z.of_nat (S k) = 2 ^ Z.of_nat k + 2 ^ Z.of_nat k)%Z).
    { rewrite Nat2Z.inj_succ, Z.pow_succ_r by lia. lia. }
    assert (Hpos : (0 < 2 ^ Z.of_nat k)%Z) by (apply Z.pow_pos_nonneg; lia).
    cbn [scan_pow]. specialize (IH i Hi ltac:(lia)) as IH1.
    destruct (scan_pow k m i) as [idx| |i'].
    + destruct IH1 as (? & ? & ?). split; [lia|]. split; assumption.
    + exact IH1.
    + destruct IH1 as (-> & Hle & Ht).
      specialize (IH (i + 2 ^ Z.of_nat k)%Z ltac:(lia) ltac:(lia)) as IH2.
      destruct (scan_pow k m (i + 2 ^ Z.of_nat k)) as [idx| |i''].
      * destruct IH2 as (? & ? & Ht2). split; [lia|]. split; [assumption|].
        intros x Hx. destruct (Z.lt_ge_cases x (i + 2 ^ Z.of_nat k)); [apply Ht|apply Ht2]; lia.
      * intros x Hx. destruct (Z.lt_ge_cases x (i + 2 ^ Z.of_nat k)); [apply Ht|apply IH2]; lia.
      * destruct IH2 as (-> & ? & Ht2). split; [lia|]. split; [lia|].
        intros x Hx. destruct (Z.lt_ge_cases x (i + 2 ^ Z.of_nat k)); [apply Ht|apply Ht2]; lia.
Qed.

Lemma scan_loop_spec :
  match scan_loop m with
  | ScanBreak idx =>
      (0 <= idx <= math_MaxInt)%Z /\ m !! idx = None /\ taken m 0 idx
  | ScanError => taken m 0 (math_MaxInt + 1)
  | ScanNext _ => False
  end.
Proof.
  unfold scan_loop.
  pose proof (scan_pow_spec 63 0 ltac:(lia)) as H.
  assert (Hp : (2 ^ Z.of_nat 63 = math_MaxInt + 1)%Z) by reflexivity.
  specialize (H ltac:(lia)).
  destruct (scan_pow 63 m 0) as [idx| |i'].
  - destruct H as (? & ? & ?). split; [lia|]. split; assumption.
  - exact H.
  - destruct H as (-> & ? & _). lia.
Qed.

End Scan.

(** C9. [RegisterEventsListener] gives the new listener the lowest index
    from 0 that is not a key of [eventsListeners], stores its wrapper there
    and touches nothing else; it fails, with the message "too many events
    listeners" and the client unchanged, exactly when every index from 0 to
    [math.MaxInt] is a key. *)
Theorem C9_lowest_free_index (begin : types_BlockNumber) (c : Client) :
  match RegisterEventsListener begin c with
  | (c', inl l) =>
      (0 <= l_idx l <= math_MaxInt)%Z
      /\ eventsListeners c !! l_idx l = None
      /\ taken (eventsListeners c) 0 (l_idx l)
      /\ eventsListeners c' = <[l_idx l := wrappers c]> (eventsListeners c)
      /\ l = Listener_new (l_idx l) begin
      /\ ~ taken (eventsListeners c) 0 (math_MaxInt + 1)
  | (c', inr err) =>
      err = "too many events listeners"
      /\ c' = c
      /\ taken (eventsListeners c) 0 (math_MaxInt + 1)
  end.
Proof.
  unfold RegisterEventsListener.
  pose proof (scan_loop_spec (eventsListeners c)) as H.
  destruct (scan_loop (eventsListeners c)) as [idx| |i']; [|auto|contradiction].
  destruct H as (Hr & Hfree & Ht). cbn [l_idx Listener_new eventsListeners].
  repeat split; auto; try lia.
  intros Hall. destruct (Hall idx ltac:(lia)) as [w Hw]. congruence.
Qed.

(** On a client whose indices 0 and 1 are taken, the next listener gets
    index 2. *)
Example RegisterEventsListener_third :
  (RegisterEventsListener 7%N two_listeners).2 = inl (Listener_new 2 7)
  /\ eventsListeners (RegisterEventsListener 7%N two_listeners).1 !! 2%Z = Some 2.
Proof. vm_compute. split; reflexivity. Qed.

(** ** Starting and stopping the engine *)

Lemma StartEventsListening_listening (rpc : RPC) (c : Client) :
  isListening c <> 0%Z ->
  StartEventsListening rpc c = (c, (cancelListening c, errsListening c, None)).
Proof.
  intros Hl. unfold StartEventsListening.
  destruct (Z.eqb_spec (isListening c) 0); [contradiction|reflexivity].
Qed.

Lemma StartEventsListening_calls_listening (rpcs : list RPC) (c : Client) :
  isListening c <> 0%Z ->
  StartEventsListening_calls rpcs c
  = (c, replicate (length rpcs) (cancelListening c, errsListening c, None)).
Proof.
  intros Hl. induction rpcs as [|rpc rpcs IH]; [reflexivity|].
  cbn [StartEventsListening_calls]. rewrite StartEventsListening_listening by exact Hl.
  rewrite IH. reflexivity.
Qed.

(** The three outcomes of a call on a client that is not listening. *)
Lemma StartEventsListening_idle (rpc : RPC) (c : Client) :
  isListening c = 0%Z ->
  let (c1, r) := StartEventsListening rpc c in
  isListening c1 = 1%Z
  /\ eventsListeners c1 = eventsListeners c
  /\ ((exists err, r = (None, None, Some err)
        /\ listenings c1 = listenings c
        /\ cancelListening c1 = cancelListening c
        /\ errsListening c1 = errsListening c)
      \/ (exists meta key,
            r = (Some (length (listenings c)), Some (length (listenings c)), None)
            /\ listenings c1 = listenings c ++ [mkListening meta key false false false]
            /\ cancelListening c1 = Some (length (listenings c))
            /\ errsListening c1 = Some (length (listenings c)))).
Proof.
  intros Hl. unfold StartEventsListening. rewrite Hl. cbn [Z.eqb negb].
  destruct (State_GetMetadataLatest rpc) as [meta|err]; [|simpl; eauto 10].
  destruct (CreateStorageKey rpc meta) as [key|err]; [|simpl; eauto 10].
  destruct (State_SubscribeStorageRaw rpc key) as [[]|err]; [|simpl; eauto 10].
  simpl. split; [reflexivity|]. split; [reflexivity|]. right. eauto 10.
Qed.

(** C5. Once a call of [StartEventsListening] on a client that was not
    listening has succeeded, it has opened one raw subscription and
    returned a cancel function and an error channel, and any number of
    later calls, whatever the node answers, return that same cancel
    function and that same channel with a nil error and leave the client,
    hence the number of subscriptions opened, as the first call left it. *)
Theorem C5_start_is_idempotent (rpc : RPC) (rpcs : list RPC) (c c1 : Client)
    (cancelFn errs : option nat) :
  isListening c = 0%Z ->
  StartEventsListening rpc c = (c1, (cancelFn, errs, None)) ->
  subscriptions_opened c1 = S (subscriptions_opened c)
  /\ is_Some cancelFn /\ is_Some errs
  /\ StartEventsListening_calls rpcs c1
     = (c1, replicate (length rpcs) (cancelFn, errs, None)).
Proof.
  intros Hidle Hstart.
  pose proof (StartEventsListening_idle rpc c Hidle) as H. rewrite Hstart in H.
  destruct H as (Hl & _ & [(err & Hr & _)|(meta & key & Hr & Hls & Hc & He)]);
    [discriminate|].
  injection Hr as -> ->. unfold subscriptions_opened. rewrite Hls, length_app. simpl.
  split; [lia|]. split; [eauto|]. split; [eauto|].
  rewrite StartEventsListening_calls_listening by (rewrite Hl; discriminate).
  rewrite Hc, He. reflexivity.
Qed.

(** C5 on a fresh client and a healthy node, followed by three more calls,
    one of them while the node is down. *)
Lemma C5_start_is_idempotent_witness :
  isListening NewClient = 0%Z
  /\ StartEventsListening healthy_node NewClient
     = (mkClient ∅ 1 (Some 0) (Some 0) [mkListening 1%N "System.Events" false false false] 0,
        (Some 0, Some 0, None))
  /\ StartEventsListening_calls [healthy_node; node_down; healthy_node]
       (mkClient ∅ 1 (Some 0) (Some 0) [mkListening 1%N "System.Events" false false false] 0)
     = (mkClient ∅ 1 (Some 0) (Some 0) [mkListening 1%N "System.Events" false false false] 0,
        replicate 3 (Some 0, Some 0, None)).
Proof.
  split; [reflexivity|]. split; [reflexivity|].
  exact (proj2 (proj2 (proj2
    (C5_start_is_idempotent healthy_node [healthy_node; node_down; healthy_node]
       NewClient _ (Some 0) (Some 0) eq_refl eq_refl)))).
Defined.

(** A failed start leaves [isListening] at 1, whatever step failed, and
    opens nothing; the next call therefore takes the already-listening
    branch. *)
Lemma StartEventsListening_failure (rpc rpc' : RPC) (c c1 : Client)
    (cancelFn errs : option nat) (err : error) :
  isListening c = 0%Z ->
  StartEventsListening rpc c = (c1, (cancelFn, errs, Some err)) ->
  isListening c1 = 1%Z /\ subscriptions_opened c1 = subscriptions_opened c
  /\ StartEventsListening rpc' c1 = (c1, (cancelListening c, errsListening c, None)).
Proof.
  intros Hidle Hstart.
  pose proof (StartEventsListening_idle rpc c Hidle) as H. rewrite Hstart in H.
  destruct H as (Hl & _ & [(err' & Hr & Hls & Hc & He)|(meta & key & Hr & _)]);
    [|discriminate].
  unfold subscriptions_opened. rewrite Hls. split; [exact Hl|]. split; [reflexivity|].
  rewrite StartEventsListening_listening by (rewrite Hl; discriminate).
  now rewrite Hc, He.
Qed.

(** C3, at the failing input: the first call fails on the metadata request
    and returns the error, but the client is left with [isListening = 1];
    a second call, made when the node answers again, opens no subscription
    and returns nil handles with a nil error. *)
Theorem C3_failed_start_is_not_retried :
  let (c1, r1) := StartEventsListening node_down NewClient in
  r1 = (None, None, Some "connection refused")
  /\ isListening c1 = 1%Z
  /\ StartEventsListening healthy_node c1 = (c1, (None, None, None))
  /\ subscriptions_opened (StartEventsListening healthy_node c1).1 = 0.
Proof. vm_compute. repeat split. Qed.

(** ** The dispatcher *)

Section Dispatcher.

Variables (rpc : RPC) (meta : types_Metadata) (key : types_StorageKey).

Lemma dispatch_changes_app c header blockHash (xs ys : list types_KeyValueOption) :
  dispatch_changes rpc c meta key header blockHash (xs ++ ys)
  = dispatch_changes rpc c meta key header blockHash xs
    ++ dispatch_changes rpc c meta key header blockHash ys.
Proof.
  induction xs as [|x xs IH]; [reflexivity|].
  simpl. destruct (skipped key x); [exact IH|].
  destruct (DecodeEventRecords rpc meta (StorageData x)).
  - rewrite IH. apply app_assoc.
  - rewrite IH. reflexivity.
Qed.

Lemma fan_out_elem c cl idx w :
  DGo idx w cl ∈ fan_out c cl <-> eventsListeners c !! idx = Some w.
Proof.
  unfold fan_out. rewrite list_elem_of_fmap. split.
  - intros ([i v] & Heq & Hin). simpl in Heq. injection Heq as -> ->.
    now apply elem_of_map_to_list in Hin.
  - intros Hm. exists (idx, w). split; [reflexivity|]. now apply elem_of_map_to_list.
Qed.

Lemma dispatch_changes_fan_out c header blockHash changes change events :
  change ∈ changes ->
  skipped key change = false ->
  DecodeEventRecords rpc meta (StorageData change) = inl events ->
  fan_out c (events, header_Number header, blockHash)
    ⊆ dispatch_changes rpc c meta key header blockHash changes.
Proof.
  intros Hin Hk Hd. apply list_elem_of_split in Hin as (xs & ys & ->).
  rewrite dispatch_changes_app. simpl. rewrite Hk, Hd.
  intros e He. rewrite !elem_of_app. auto.
Qed.

Lemma dispatcher_app (inputs1 inputs2 : list received) :
  FromDone ∉ inputs1 ->
  dispatcher rpc meta key (inputs1 ++ inputs2)
  = dispatcher rpc meta key inputs1 ++ dispatcher rpc meta key inputs2.
Proof.
  induction inputs1 as [|r rs IH]; intros Hnd; [reflexivity|].
  destruct r as [|c set].
  - exfalso. apply Hnd. left.
  - simpl. rewrite IH; [apply app_assoc|]. intros H. apply Hnd. now right.
Qed.

End Dispatcher.

(** C6. On the live path a failure of [GetHeader] puts one error on the
    channel and nothing else happens for that notification; a change
    whose event records do not decode puts one error on the channel, and
    the changes before and after it are treated as if it were not there; a
    change that decodes is handed, with the header's number and the block
    hash, to exactly the wrappers in [eventsListeners]; the loop treats
    every notification it receives before [done] in turn, whatever the
    earlier ones did, so a notification with a decodable change reaches
    every listener registered at that moment. *)
Theorem C6_live_path_failures (rpc : RPC) (meta : types_Metadata) (key : types_StorageKey) :
  (forall c changes blockHash err,
      Chain_GetHeader rpc blockHash = inr err ->
      processSystemEventsStorageChanges rpc c changes meta key blockHash
      = [DErr (Errorf "get header" err)])
  /\ (forall c before change after blockHash header err,
      Chain_GetHeader rpc blockHash = inl header ->
      skipped key change = false ->
      DecodeEventRecords rpc meta (StorageData change) = inr err ->
      processSystemEventsStorageChanges rpc c (before ++ change :: after) meta key blockHash
      = dispatch_changes rpc c meta key header blockHash before
        ++ DErr (Errorf "events decoder" err)
        :: dispatch_changes rpc c meta key header blockHash after)
  /\ (forall c change blockHash header events,
      skipped key change = false ->
      DecodeEventRecords rpc meta (StorageData change) = inl events ->
      dispatch_changes rpc c meta key header blockHash [change]
      = fan_out c (events, header_Number header, blockHash)
      /\ forall idx w,
          DGo idx w (events, header_Number header, blockHash)
            ∈ fan_out c (events, header_Number header, blockHash)
          <-> eventsListeners c !! idx = Some w)
  /\ (forall earlier c set later,
      FromDone ∉ earlier ->
      dispatcher rpc meta key (earlier ++ FromSub c set :: later)
      = dispatcher rpc meta key earlier
        ++ processSystemEventsStorageChanges rpc c (Changes set) meta key (Block set)
        ++ dispatcher rpc meta key later)
  /\ (forall earlier c set later header change events idx w,
      FromDone ∉ earlier ->
      Chain_GetHeader rpc (Block set) = inl header ->
      change ∈ Changes set ->
      skipped key change = false ->
      DecodeEventRecords rpc meta (StorageData change) = inl events ->
      eventsListeners c !! idx = Some w ->
      DGo idx w (events, header_Number header, Block set)
        ∈ dispatcher rpc meta key (earlier ++ FromSub c set :: later)).
Proof.
  split; [|split; [|split; [|split]]].
  - intros c changes blockHash err Hh. unfold processSystemEventsStorageChanges.
    now rewrite Hh.
  - intros c before change after blockHash header err Hh Hk Hd.
    unfold processSystemEventsStorageChanges. rewrite Hh, dispatch_changes_app.
    simpl. now rewrite Hk, Hd.
  - intros c change blockHash header events Hk Hd. split.
    + simpl. rewrite Hk, Hd. apply app_nil_r.
    + intros idx w. apply fan_out_elem.
  - intros earlier c set later Hnd. rewrite dispatcher_app by exact Hnd. reflexivity.
  - intros earlier c set later header change events idx w Hnd Hh Hin Hk Hd Hreg.
    rewrite dispatcher_app by exact Hnd. simpl.
    rewrite !elem_of_app. right. left.
    unfold processSystemEventsStorageChanges. rewrite Hh.
    eapply dispatch_changes_fan_out; eauto. now apply fan_out_elem.
Qed.

(** C6 on [feed_8_9]: the header of block 8 cannot be fetched, the first
    change of block 9 does not decode, and its second change reaches both
    listeners. *)
Lemma C6_live_path_failures_witness :
  dispatcher flaky_node 1%N "System.Events" feed_8_9
  = [DErr "get header: header not found"; DErr "events decoder: unknown variant";
     DGo 1 1 ("events", 9%N, 9%N); DGo 0 0 ("events", 9%N, 9%N)]
  /\ DGo 1 1 ("events", 9%N, 9%N) ∈ dispatcher flaky_node 1%N "System.Events" feed_8_9.
Proof.
  split; [vm_compute; reflexivity|].
  refine (proj2 (proj2 (proj2 (proj2 (C6_live_path_failures flaky_node 1%N "System.Events"))))
            [FromSub two_listeners
               (mkStorageChangeSet 8%N [mkKeyValueOption "System.Events" true "events"])]
            two_listeners
            (mkStorageChangeSet 9%N [mkKeyValueOption "System.Events" true "garbled";
                                   mkKeyValueOption "System.Events" true "events"])
            [] (mkHeader 9%N) (mkKeyValueOption "System.Events" true "events") "events" 1%Z 1
            _ eq_refl _ eq_refl eq_refl eq_refl).
  - intros H. apply list_elem_of_singleton in H. discriminate.
  - right. left.
Defined.

(** ** One listener: general facts *)

Ltac destruct_listener l :=
  let q := fresh "queue" in
  let d := fresh "done" in
  destruct l as [?idx ?begin ?start ?started [q d] ?canc ?once ?reg ?p ?spawned ?pan ?tr].

Ltac tick_norm :=
  unfold set_pc, emit;
  cbn [l_idx l_begin subscriptionStartBlock subscriptionStarted l_pendingEvents
       cancelled l_once l_registered l_pc l_spawned l_panicked l_trace
       pe_done pe_list negb andb].

Ltac tick_by := unfold step, backfill_step; tick_norm.

Lemma exec_cons (rpc : RPC) (l : Listener) (a : action) (s : list action) :
  exec rpc l (a :: s) = exec rpc (step rpc l a) s.
Proof. reflexivity. Qed.

(** A property kept by every step is kept by every schedule. *)
Lemma exec_invariant (rpc : RPC) (P : Listener -> Prop) :
  (forall l a, P l -> P (step rpc l a)) ->
  forall sched l, P l -> P (exec rpc l sched).
Proof.
  intros Hstep sched. induction sched as [|a sched IH]; intros l Hl; [exact Hl|].
  rewrite exec_cons. apply IH, Hstep, Hl.
Qed.

(** The wrapper never calls the callback on behalf of the backfill, issues
    no request and leaves the goroutine where it is. *)
Lemma callbackWrapper_frame (l : Listener) (c : call) :
  let l' := callbackWrapper l c in
  l_pc l' = l_pc l /\ cancelled l' = cancelled l /\ l_once l' = l_once l
  /\ l_begin l' = l_begin l /\ l_idx l' = l_idx l
  /\ delivered_by_backfill l' = delivered_by_backfill l
  /\ requests l' = requests l
  /\ errors_sent l' = errors_sent l
  /\ pe_done (l_pendingEvents l') = pe_done (l_pendingEvents l).
Proof.
  destruct c as [[events n] h]. destruct_listener l.
  unfold callbackWrapper, TryPush, delivered_by_backfill, requests, errors_sent.
  cbn. destruct (start =? 0)%N, started, done; cbn;
    rewrite ?omap_app, ?filter_app; cbn; rewrite ?app_nil_r; auto 10.
Qed.

(** Once the goroutine has returned it stays so: it makes no further
    request or historical delivery, sends no error and leaves the [done]
    flag of the queue as it is; if the flag is not set, the callback is
    not called any more. *)
Lemma step_returned (rpc : RPC) (l : Listener) (a : action) :
  l_pc l = Returned ->
  let l' := step rpc l a in
  l_pc l' = Returned
  /\ delivered_by_backfill l' = delivered_by_backfill l
  /\ requests l' = requests l
  /\ errors_sent l' = errors_sent l
  /\ pe_done (l_pendingEvents l') = pe_done (l_pendingEvents l)
  /\ (pe_done (l_pendingEvents l) = false -> delivered l' = delivered l).
Proof.
  intros Hpc. unfold step. destruct (l_panicked l) eqn:Hpan; [auto 10|].
  destruct a as [c|k| |].
  - destruct (l_registered l); [|auto 10]. destruct_listener l; cbn in *. auto 10.
  - destruct (l_spawned l !! k) as [c|] eqn:Hk; [|auto 10].
    pose proof (callbackWrapper_frame (set_spawned (delete k (l_spawned l)) l) c) as H.
    cbn zeta in H. destruct H as (H1 & _ & _ & _ & _ & H2 & H3 & H4 & H5).
    rewrite H1, H2, H3, H4, H5. split; [exact Hpc|]. repeat split.
    intros Hd. destruct c as [[events n] h]. destruct_listener l; cbn in *. subst.
    unfold callbackWrapper, TryPush, delivered. cbn.
    destruct (start =? 0)%N, started; reflexivity.
  - unfold backfill_step. rewrite Hpc. auto 10.
  - unfold cancel_listener. destruct (l_once l); [auto 10|].
    destruct_listener l; cbn in *. auto 10.
Qed.

Lemma exec_returned (rpc : RPC) (sched : list action) (l : Listener) :
  l_pc l = Returned ->
  let l' := exec rpc l sched in
  l_pc l' = Returned
  /\ delivered_by_backfill l' = delivered_by_backfill l
  /\ requests l' = requests l
  /\ errors_sent l' = errors_sent l
  /\ pe_done (l_pendingEvents l') = pe_done (l_pendingEvents l)
  /\ (pe_done (l_pendingEvents l) = false -> delivered l' = delivered l).
Proof.
  revert l. induction sched as [|a sched IH]; intros l Hpc; [cbn; auto 10|].
  cbn zeta. rewrite exec_cons.
  destruct (step_returned rpc l a Hpc) as (H1 & H2 & H3 & H4 & H5 & H6).
  destruct (IH _ H1) as (? & ? & ? & ? & ? & Hd). split; [assumption|].
  repeat split; try congruence.
  intros Hf. rewrite Hd by congruence. auto.
Qed.

(** [cancelled] is never reset, and while it is set the backfill loop
    makes no delivery but the one it is committed to. *)
Lemma step_cancelled (rpc : RPC) (l : Listener) (a : action) :
  cancelled l = true ->
  let l' := step rpc l a in
  cancelled l' = true
  /\ ((committed l' = committed l
       /\ delivered_by_backfill l' = delivered_by_backfill l)
      \/ (committed l' = []
          /\ delivered_by_backfill l' = delivered_by_backfill l ++ committed l)).
Proof.
  intros Hc. unfold step. destruct (l_panicked l) eqn:Hpan; [auto|].
  destruct a as [c|k| |].
  - destruct (l_registered l); [|auto]. destruct_listener l; cbn in *. auto.
  - destruct (l_spawned l !! k) as [c|] eqn:Hk; [|auto].
    pose proof (callbackWrapper_frame (set_spawned (delete k (l_spawned l)) l) c) as H.
    cbn zeta in H. destruct H as (Hpc & H1 & _ & _ & _ & H2 & _).
    unfold committed. rewrite Hpc, H1, H2. auto.
  - destruct_listener l; cbn in *. subst.
    unfold backfill_step, delivered_by_backfill, committed.
    destruct p; cbn;
      repeat (match goal with
              | |- context [match ?x with _ => _ end] => destruct x
              end; cbn);
      rewrite ?omap_app; cbn; rewrite ?app_nil_r; auto.
  - unfold cancel_listener. destruct (l_once l); [auto|].
    destruct_listener l; cbn in *. auto.
Qed.

Lemma exec_cancelled (rpc : RPC) (sched : list action) (l : Listener) :
  cancelled l = true ->
  let l' := exec rpc l sched in
  cancelled l' = true
  /\ ((committed l' = committed l
       /\ delivered_by_backfill l' = delivered_by_backfill l)
      \/ (committed l' = []
          /\ delivered_by_backfill l' = delivered_by_backfill l ++ committed l)).
Proof.
  revert l. induction sched as [|a sched IH]; intros l Hc; [cbn; auto|].
  cbn zeta. rewrite exec_cons.
  destruct (step_cancelled rpc l a Hc) as (H1 & H2).
  destruct (IH _ H1) as (H3 & H4). split; [exact H3|].
  destruct H2 as [[Hp Hd] | [Hp Hd]], H4 as [[Hp' Hd'] | [Hp' Hd']].
  - left. split; congruence.
  - right. split; [exact Hp'|]. congruence.
  - right. split; [congruence|]. congruence.
  - right. split; [exact Hp'|]. rewrite Hd', Hd, Hp. now rewrite app_nil_r.
Qed.

(** The latch of [cancel] is never reset. *)
Lemma step_once (rpc : RPC) (l : Listener) (a : action) :
  l_once l = true -> l_once (step rpc l a) = true.
Proof.
  intros Ho. unfold step. destruct (l_panicked l) eqn:Hpan; [auto|].
  destruct a as [c|k| |].
  - destruct (l_registered l); [|auto]. destruct_listener l; cbn in *. auto.
  - destruct (l_spawned l !! k) as [c|] eqn:Hk; [|auto].
    pose proof (callbackWrapper_frame (set_spawned (delete k (l_spawned l)) l) c) as H.
    cbn zeta in H. destruct H as (_ & _ & H1 & _). now rewrite H1.
  - destruct_listener l; cbn in *. subst.
    unfold backfill_step; cbn. repeat case_match; cbn; auto.
  - unfold cancel_listener. now rewrite Ho.
Qed.

Lemma exec_once (rpc : RPC) (sched : list action) (l : Listener) :
  l_once l = true -> l_once (exec rpc l sched) = true.
Proof. apply (exec_invariant rpc (fun l => l_once l = true)). intros; now apply step_once. Qed.

(** ** The cancel functions *)

Lemma cancel_latched (l : Listener) (c : Client) :
  l_once l = true -> cancel l c = (l, c).
Proof. intros H. unfold cancel. now rewrite H. Qed.

Lemma cancel_once (l : Listener) (c : Client) : l_once (cancel l c).1 = true.
Proof.
  unfold cancel, cancel_listener. destruct (l_once l) eqn:H; simpl; [exact H|].
  reflexivity.
Qed.

Lemma cancel_again (n : nat) (l : Listener) (c : Client) :
  Nat.iter (S n) (fun lc : Listener * Client => cancel lc.1 lc.2) (l, c) = cancel l c.
Proof.
  induction n as [|n IH]; [reflexivity|].
  change (Nat.iter (S (S n)) ?f ?x) with (f (Nat.iter (S n) f x)).
  rewrite IH. rewrite cancel_latched by apply cancel_once.
  now destruct (cancel l c).
Qed.

Lemma call_cancelListening_latched (k : nat) (c : Client) (ln : Listening) :
  listenings c !! k = Some ln -> lst_once ln = true -> call_cancelListening k c = c.
Proof. intros Hk Ho. unfold call_cancelListening. now rewrite Hk, Ho. Qed.

Lemma call_cancelListening_twice (k : nat) (c : Client) :
  call_cancelListening k (call_cancelListening k c) = call_cancelListening k c.
Proof.
  destruct (listenings c !! k) as [ln|] eqn:Hk.
  - destruct (lst_once ln) eqn:Ho.
    + now rewrite !(call_cancelListening_latched k c ln).
    + assert (Hc : call_cancelListening k c
                   = mkClient (eventsListeners c) 0 (cancelListening c) (errsListening c)
                       (<[k := mkListening (lst_meta ln) (lst_key ln) true true true]>
                          (listenings c)) (wrappers c)).
      { unfold call_cancelListening. now rewrite Hk, Ho. }
      rewrite Hc.
      apply call_cancelListening_latched
        with (mkListening (lst_meta ln) (lst_key ln) true true true); [|reflexivity].
      cbn [listenings]. apply list_lookup_insert_eq. eapply lookup_lt_Some, Hk.
  - assert (Hc : call_cancelListening k c = c).
    { unfold call_cancelListening. now rewrite Hk. }
    now rewrite !Hc.
Qed.

Lemma call_cancelListening_again (n k : nat) (c : Client) :
  Nat.iter (S n) (call_cancelListening k) c = call_cancelListening k c.
Proof.
  induction n as [|n IH]; [reflexivity|].
  change (Nat.iter (S (S n)) ?f ?x) with (f (Nat.iter (S n) f x)).
  rewrite IH. apply call_cancelListening_twice.
Qed.

(** C8. The first call of a listener's [cancel] sets [cancelled], fires the
    latch and deletes the listener's index from [eventsListeners], leaving
    the rest of the client alone; calling it [n + 1] times in a row is the
    same as calling it once; and once the latch has fired a call changes
    nothing, whatever state the client is in by then and whatever the
    listener's goroutines have done meanwhile.  The same holds of
    the engine's cancel function: its first call stops the dispatcher,
    unsubscribes and resets [isListening], [n + 1] calls are the same as
    one, and a call after the latch has fired changes nothing.  Both are
    total functions: no call fails. *)
Theorem C8_cancel_is_idempotent :
  (forall l c,
      l_once l = false ->
      let (l', c') := cancel l c in
      cancelled l' = true /\ l_once l' = true /\ l_registered l' = false
      /\ eventsListeners c' = delete (l_idx l) (eventsListeners c)
      /\ eventsListeners c' !! l_idx l = None
      /\ (forall i, i <> l_idx l -> eventsListeners c' !! i = eventsListeners c !! i)
      /\ isListening c' = isListening c /\ listenings c' = listenings c
      /\ cancelListening c' = cancelListening c /\ errsListening c' = errsListening c)
  /\ (forall n l c,
      Nat.iter (S n) (fun lc : Listener * Client => cancel lc.1 lc.2) (l, c) = cancel l c)
  /\ (forall l c c', l_once (cancel l c).1 = true /\ cancel (cancel l c).1 c' = ((cancel l c).1, c'))
  /\ (forall rpc sched l c c',
      cancel (exec rpc (cancel l c).1 sched) c' = (exec rpc (cancel l c).1 sched, c'))
  /\ (forall k c ln,
      listenings c !! k = Some ln -> lst_once ln = false ->
      let c' := call_cancelListening k c in
      isListening c' = 0%Z
      /\ listenings c' !! k = Some (mkListening (lst_meta ln) (lst_key ln) true true true)
      /\ (forall j, j <> k -> listenings c' !! j = listenings c !! j)
      /\ eventsListeners c' = eventsListeners c)
  /\ (forall n k c, Nat.iter (S n) (call_cancelListening k) c = call_cancelListening k c)
  /\ (forall k c ln,
      listenings c !! k = Some ln -> lst_once ln = true -> call_cancelListening k c = c).
Proof.
  split; [|split; [|split; [|split; [|split; [|split]]]]].
  - intros l c Ho. unfold cancel, cancel_listener. rewrite Ho. simpl.
    repeat split; auto.
    + apply lookup_delete_eq.
    + intros i Hi. now apply lookup_delete_ne.
  - intros n l c. apply cancel_again.
  - intros l c c'. split; [apply cancel_once|]. apply cancel_latched, cancel_once.
  - intros rpc sched l c c'. apply cancel_latched, exec_once, cancel_once.
  - intros k c ln Hk Ho. unfold call_cancelListening. rewrite Hk, Ho. simpl.
    repeat split; auto.
    + apply list_lookup_insert_eq. eapply lookup_lt_Some, Hk.
    + intros j Hj. now apply list_lookup_insert_ne.
  - intros n k c. apply call_cancelListening_again.
  - exact call_cancelListening_latched.
Qed.

(** ** Registration at or after the live start block *)

Lemma step_quiet (rpc : RPC) (l : Listener) (a : action) :
  quiet l /\ (subscriptionStartBlock l = 0%N \/ subscriptionStarted l = true) ->
  quiet (step rpc l a)
  /\ (subscriptionStartBlock (step rpc l a) = 0%N \/ subscriptionStarted (step rpc l a) = true).
Proof.
  intros [Hq Hs]. unfold step. destruct (l_panicked l) eqn:Hpan; [auto|].
  destruct a as [c|k| |].
  - destruct (l_registered l); [|auto]. destruct_listener l; cbn in *. auto.
  - destruct (l_spawned l !! k) as [[[events n] h]|] eqn:Hk; [|auto].
    destruct_listener l; unfold quiet in *; cbn in *.
    unfold callbackWrapper, TryPush; cbn.
    destruct (N.eqb_spec start 0) as [-> | Hne]; cbn.
    + destruct (Hq ltac:(lia)) as (-> & -> & Hpc & Hst).
      destruct started; cbn; (split; [|auto]); intros Hle; repeat split; auto; discriminate.
    + destruct Hs as [? | ->]; [contradiction|].
      destruct done; cbn; (split; [|auto]); intros Hle;
        destruct (Hq Hle) as (? & ? & ? & ?); try discriminate; repeat split; auto.
  - destruct_listener l; unfold quiet in *; cbn in *. split.
    + intros Hle0. assert (Hle : (start <= begin)%N).
      { revert Hle0. unfold backfill_step; cbn. repeat case_match; cbn; auto. }
      destruct (Hq Hle) as (-> & -> & Hpc & Hst).
      unfold backfill_step; cbn. destruct Hpc as [-> | ->]; cbn; [|auto].
      destruct started; cbn; [|auto].
      destruct (N.leb_spec start begin); [cbn; auto|lia].
    + unfold backfill_step; cbn. repeat case_match; cbn; auto.
  - unfold cancel_listener. destruct (l_once l); [auto|].
    destruct_listener l; unfold quiet in *; cbn in *. auto.
Qed.

(** Whatever happens, a listener whose [begin] is not below the start
    block of its live subscription never has its callback called, on any
    path, and its queue is never closed. *)
Lemma late_listener_is_never_called (rpc : RPC) (idx : Z) (begin : types_BlockNumber)
    (sched : list action) :
  let l := exec rpc (Listener_new idx begin) sched in
  (subscriptionStartBlock l <= begin)%N ->
  delivered l = [] /\ pe_done (l_pendingEvents l) = false.
Proof.
  intros l Hle.
  assert (H : quiet l /\ (subscriptionStartBlock l = 0%N \/ subscriptionStarted l = true)
              /\ l_begin l = begin).
  { subst l. clear Hle.
    apply (exec_invariant rpc
             (fun l => quiet l /\ (subscriptionStartBlock l = 0%N \/ subscriptionStarted l = true)
                       /\ l_begin l = begin)).
    - intros l a (Hq & Hs & Hb). destruct (step_quiet rpc l a (conj Hq Hs)) as [? ?].
      split; [assumption|]. split; [assumption|].
      rewrite <- Hb. clear. unfold step. destruct (l_panicked l); [reflexivity|].
      destruct a as [c|k| |].
      + destruct (l_registered l); reflexivity.
      + destruct (l_spawned l !! k) as [c|]; [|reflexivity].
        apply (callbackWrapper_frame (set_spawned (delete k (l_spawned l)) l) c).
      + destruct_listener l. unfold backfill_step; cbn. repeat case_match; reflexivity.
      + unfold cancel_listener. destruct (l_once l); reflexivity.
    - unfold quiet; cbn. auto 10. }
  destruct H as (Hq & _ & Hb). unfold quiet in Hq. rewrite Hb in Hq.
  destruct (Hq Hle) as (Ht & Hd & _). unfold delivered. rewrite Ht. auto.
Qed.

(** C1, at the failing input: a listener registered with [begin = 10]
    while the first live notification is for block 5.  The goroutine
    returns at [begin >= subscriptionStartBlock] without calling
    [pendingEvents.Do]: the queue is never closed, the notifications for
    blocks 5, 6 and 7 stay in it, and the callback is never called. *)
Theorem C1_late_listener_receives_nothing :
  let l := exec healthy_node (Listener_new 0 10) late_schedule in
  subscriptionStartBlock l = 5%N
  /\ l_pc l = Returned
  /\ delivered l = []
  /\ l_pendingEvents l
     = mkPendingEvents [mkBlockEvents "events" 5 5; mkBlockEvents "events" 6 6;
                        mkBlockEvents "events" 7 7] false.
Proof. vm_compute. repeat split. Qed.

(** ** Errors during the backfill *)

(** C2 as stated fails: on a node where the events of block 1 do not
    decode, the error is sent and the backfill goes on to deliver block
    2. *)
Lemma C2_decode_error_does_not_abort :
  ~ aborts_on_error (node (N.eqb 1)) (Listener_new 0 1) backfill_schedule.
Proof.
  intros H.
  specialize (H [EGetMetadataLatest; EGetBlockHash 1; EQueryStorageAt 1%N; EGetHeader 1%N]
                "events decoder: unknown variant"
                [EGetBlockHash 2; EQueryStorageAt 2%N; EGetHeader 2%N;
                 ECallback ViaBackfill ("events", 2%N, 2%N);
                 ECallback ViaDo ("events", 3%N, 3%N)]).
  discriminate (H eq_refl).
Qed.

(** When the goroutine returns after some last events, these are the
    last requests, errors and historical deliveries of the listener. *)
Lemma exec_after_return (rpc : RPC) (l : Listener) (es : list event) (sched : list action) :
  let l' := exec rpc (set_pc Returned (emit es l)) sched in
  l_pc l' = Returned
  /\ errors_sent l' = errors_sent l ++ omap error_of es
  /\ requests l' = requests l ++ filter (fun e => is_request e = true) es
  /\ delivered_by_backfill l' = delivered_by_backfill l ++ omap backfill_callback_of es.
Proof.
  destruct (exec_returned rpc sched (set_pc Returned (emit es l)) eq_refl)
    as (H1 & H2 & H3 & H4 & _).
  cbn zeta. rewrite H1, H2, H3, H4.
  unfold errors_sent, requests, delivered_by_backfill. cbn.
  now rewrite !omap_app, filter_app.
Qed.

(** C2, amended.  When [GetBlockHash], [QueryStorageAt] or [GetHeader]
    fails during the backfill, the wrapped error is sent on the channel,
    the goroutine returns, and whatever happens next the listener sees no
    further historical request, error or delivery.  When the event
    records of a change do not decode, the wrapped error is sent and the
    loop goes on with the next change of the same set. *)
Theorem C2_backfill_errors (rpc : RPC) (l : Listener) (sched : list action) :
  l_panicked l = false ->
  (forall meta key currentBlock err,
      l_pc l = LoopHead meta key currentBlock ->
      (currentBlock < subscriptionStartBlock l)%N ->
      Chain_GetBlockHash rpc currentBlock = inr err ->
      let l' := exec rpc l (ATick :: sched) in
      l_pc l' = Returned
      /\ errors_sent l' = errors_sent l ++ [Errorf "get block hash" err]
      /\ requests l' = requests l ++ [EGetBlockHash currentBlock]
      /\ delivered_by_backfill l' = delivered_by_backfill l)
  /\ (forall meta key currentBlock bHash err,
      l_pc l = LoopHead meta key currentBlock ->
      (currentBlock < subscriptionStartBlock l)%N ->
      Chain_GetBlockHash rpc currentBlock = inl bHash ->
      State_QueryStorageAt rpc key bHash = inr err ->
      let l' := exec rpc l (ATick :: sched) in
      l_pc l' = Returned
      /\ errors_sent l' = errors_sent l ++ [Errorf "query storage" err]
      /\ requests l' = requests l ++ [EGetBlockHash currentBlock; EQueryStorageAt bHash]
      /\ delivered_by_backfill l' = delivered_by_backfill l)
  /\ (forall meta key currentBlock set sets err,
      l_pc l = InSets meta key currentBlock (set :: sets) ->
      Chain_GetHeader rpc (Block set) = inr err ->
      let l' := exec rpc l (ATick :: sched) in
      l_pc l' = Returned
      /\ errors_sent l' = errors_sent l ++ [Errorf "get header" err]
      /\ requests l' = requests l ++ [EGetHeader (Block set)]
      /\ delivered_by_backfill l' = delivered_by_backfill l)
  /\ (forall meta key currentBlock header block change changes sets err,
      l_pc l = InChanges meta key currentBlock header block (change :: changes) sets ->
      skipped key change = false ->
      DecodeEventRecords rpc meta (StorageData change) = inr err ->
      step rpc l ATick
      = set_pc (InChanges meta key currentBlock header block changes sets)
          (emit [EErr (Errorf "events decoder" err)] l)).
Proof.
  intros Hpan. split; [|split; [|split]].
  - intros meta key cur err Hpc Hlt Herr. rewrite exec_cons.
    assert (Hs : step rpc l ATick
                 = set_pc Returned
                     (emit [EGetBlockHash cur; EErr (Errorf "get block hash" err)] l)).
    { unfold step, backfill_step. apply N.ltb_lt in Hlt.
      now rewrite Hpan, Hpc, Hlt, Herr. }
    rewrite Hs. destruct (exec_after_return rpc l
      [EGetBlockHash cur; EErr (Errorf "get block hash" err)] sched) as (H1 & H2 & H3 & H4).
    cbn zeta. rewrite H1, H2, H3, H4. cbn. now rewrite app_nil_r.
  - intros meta key cur bHash err Hpc Hlt Hh Herr. rewrite exec_cons.
    assert (Hs : step rpc l ATick
                 = set_pc Returned
                     (emit [EGetBlockHash cur; EQueryStorageAt bHash;
                            EErr (Errorf "query storage" err)] l)).
    { unfold step, backfill_step. apply N.ltb_lt in Hlt.
      now rewrite Hpan, Hpc, Hlt, Hh, Herr. }
    rewrite Hs. destruct (exec_after_return rpc l
      [EGetBlockHash cur; EQueryStorageAt bHash; EErr (Errorf "query storage" err)] sched)
      as (H1 & H2 & H3 & H4).
    cbn zeta. rewrite H1, H2, H3, H4. cbn. now rewrite app_nil_r.
  - intros meta key cur set sets err Hpc Herr. rewrite exec_cons.
    assert (Hs : step rpc l ATick
                 = set_pc Returned
                     (emit [EGetHeader (Block set); EErr (Errorf "get header" err)] l)).
    { unfold step, backfill_step. now rewrite Hpan, Hpc, Herr. }
    rewrite Hs. destruct (exec_after_return rpc l
      [EGetHeader (Block set); EErr (Errorf "get header" err)] sched) as (H1 & H2 & H3 & H4).
    cbn zeta. rewrite H1, H2, H3, H4. cbn. now rewrite app_nil_r.
  - intros meta key cur header block change changes sets err Hpc Hk Herr.
    unfold step, backfill_step. now rewrite Hpan, Hpc, Hk, Herr.
Qed.

(** C2, amended, on a listener whose backfill has delivered block 1 when
    [GetBlockHash] fails for block 2. *)
Lemma C2_backfill_errors_witness :
  let l' := exec node_without_block_2 before_lost_block (ATick :: replicate 5 ATick) in
  l_pc l' = Returned
  /\ errors_sent l' = errors_sent before_lost_block ++ ["get block hash: block not found"]
  /\ requests l' = requests before_lost_block ++ [EGetBlockHash 2]
  /\ delivered_by_backfill l' = [("events", 1%N, 1%N)].
Proof.
  exact (proj1 (C2_backfill_errors node_without_block_2 before_lost_block
                  (replicate 5 ATick) eq_refl)
           1%N "System.Events" 2%N "block not found" eq_refl eq_refl eq_refl).
Defined.

(** ** Cancelling during the backfill *)

(** C7.  The claim fails on the code.  On a node whose historical events
    do not decode, a listener with [begin = 1] whose first live
    notification is for block 4 is cancelled as soon as its goroutine has
    entered the loop, before anything is fetched.  The only
    [if cancelled { return }] of the loop stands after the decoding, and
    the [continue] of a change that is skipped or does not decode goes
    round it: blocks 1, 2 and 3 are all fetched after the call of
    [cancel], where the claim allows the fetch in flight at most. *)
Lemma C7_fetches_go_on_after_cancel :
  ~ stops_fetching_after_cancel (node (fun _ => true)) (Listener_new 0 1) cancelled_schedule.
Proof.
  intros H.
  specialize (H [ASpawn (notification 4); ARun 0; ATick] (replicate 18 ATick) eq_refl).
  vm_compute in H. lia.
Qed.

(** The heights fetched can be read off the requests. *)
Lemma heights_fetched_requests (l : Listener) :
  heights_fetched l = omap fetch_of (requests l).
Proof.
  unfold heights_fetched, requests. induction (l_trace l) as [|e t IH]; [reflexivity|].
  rewrite filter_cons. destruct e; cbn; rewrite IH; reflexivity.
Qed.

(** X21.  The first call of [cancel] sets [cancelled], and the flag is
    never reset.  The backfill reads it at one place, after a change has
    been decoded: when it is set there the goroutine returns at once, and
    whatever happens next it makes no further request and no historical
    delivery, sends no error and does not close the queue.  The read and
    the call of the callback are not one step: a [cancel] that runs
    between the two does not stop that call.  So after [cancel] has
    returned the backfill makes at most one more delivery, the one it was
    committed to, and none if it was committed to none. *)
Theorem cancel_is_observed_at_the_check (rpc : RPC) :
  (forall l,
      l_panicked l = false -> l_once l = false ->
      cancelled (step rpc l ACancel) = true)
  /\ (forall l sched,
      cancelled l = true ->
      let l' := exec rpc l sched in
      cancelled l' = true
      /\ (delivered_by_backfill l' = delivered_by_backfill l
          \/ delivered_by_backfill l' = delivered_by_backfill l ++ committed l)
      /\ (committed l = [] -> delivered_by_backfill l' = delivered_by_backfill l))
  /\ (forall l sched meta key currentBlock header block change changes sets events,
      l_panicked l = false ->
      l_pc l = InChanges meta key currentBlock header block (change :: changes) sets ->
      skipped key change = false ->
      DecodeEventRecords rpc meta (StorageData change) = inl events ->
      cancelled l = true ->
      let l' := exec rpc l (ATick :: sched) in
      l_pc l' = Returned
      /\ requests l' = requests l
      /\ heights_fetched l' = heights_fetched l
      /\ errors_sent l' = errors_sent l
      /\ delivered_by_backfill l' = delivered_by_backfill l
      /\ pe_done (l_pendingEvents l') = pe_done (l_pendingEvents l))
  /\ (forall l meta key currentBlock header block change changes sets events,
      l_panicked l = false -> l_once l = false ->
      l_pc l = InChanges meta key currentBlock header block (change :: changes) sets ->
      skipped key change = false ->
      DecodeEventRecords rpc meta (StorageData change) = inl events ->
      cancelled l = false ->
      let l' := exec rpc l [ATick; ACancel; ATick] in
      cancelled l' = true
      /\ delivered_by_backfill l'
         = delivered_by_backfill l ++ [(events, header_Number header, block)]).
Proof.
  split; [|split; [|split]].
  - intros l Hpan Ho. unfold step, cancel_listener. now rewrite Hpan, Ho.
  - intros l sched Hc. destruct (exec_cancelled rpc sched l Hc) as (H1 & H2).
    cbn zeta. split; [exact H1|]. split.
    + destruct H2 as [[_ H2] | [_ H2]]; auto.
    + intros Hp. destruct H2 as [[_ H2] | [_ H2]]; [exact H2|].
      now rewrite H2, Hp, app_nil_r.
  - intros l sched meta key cur header block change changes sets events Hpan Hpc Hk Hd Hc.
    rewrite exec_cons.
    assert (Hs : step rpc l ATick = set_pc Returned l).
    { unfold step, backfill_step. now rewrite Hpan, Hpc, Hk, Hd, Hc. }
    rewrite Hs.
    destruct (exec_returned rpc sched (set_pc Returned l) eq_refl)
      as (H1 & H2 & H3 & H4 & H5 & _).
    cbn zeta. rewrite !heights_fetched_requests, H1, H2, H3, H4, H5. auto 10.
  - intros l meta key cur header block change changes sets events
      Hpan Ho Hpc Hk Hd Hc.
    destruct_listener l.
    cbn [l_panicked l_once l_pc cancelled] in Hpan, Ho, Hpc, Hc. subst.
    cbv zeta.
    rewrite exec_cons. unfold step, backfill_step. tick_norm. rewrite Hk, Hd. tick_norm.
    rewrite exec_cons. unfold step, cancel_listener. tick_norm.
    rewrite exec_cons. unfold step, backfill_step. tick_norm.
    unfold exec, fold_left, delivered_by_backfill. tick_norm.
    now rewrite omap_app.
Qed.

(** X21 on a healthy node: the cancelled listener returns at the check
    made for block 2 and fetches nothing afterwards. *)
Lemma cancel_is_observed_at_the_check_witness :
  let l' := exec healthy_node cancelled_at_check (ATick :: replicate 5 ATick) in
  l_pc l' = Returned
  /\ heights_fetched l' = [1%N; 2%N]
  /\ delivered_by_backfill l' = [("events", 1%N, 1%N)]
  /\ pe_done (l_pendingEvents l') = false.
Proof.
  pose proof (proj1 (proj2 (proj2 (cancel_is_observed_at_the_check healthy_node)))
                cancelled_at_check (replicate 5 ATick)
                1%N "System.Events" 2%N (mkHeader 2) 2%N
                (mkKeyValueOption "System.Events" true "events") [] [] "events"
                eq_refl eq_refl eq_refl eq_refl eq_refl) as (H1 & _ & H3 & _ & H5 & H6).
  split; [exact H1|]. split; [exact H3|]. split; [exact H5|exact H6].
Defined.

(** ** The order of the deliveries *)

(** C4 as stated fails: when the wrappers spawned for blocks 5 and 6 run
    in the opposite order, block 6 becomes the start block, the backfill
    delivers 4 and 5, and the queue then delivers 6 and 5 again. *)
Lemma C4_wrappers_out_of_order :
  delivered_numbers (exec healthy_node (Listener_new 0 4) swapped_schedule)
  = [4; 5; 6; 5]%N
  /\ ~ ascending (delivered_numbers (exec healthy_node (Listener_new 0 4) swapped_schedule))
  /\ ~ NoDup (delivered_numbers (exec healthy_node (Listener_new 0 4) swapped_schedule)).
Proof.
  assert (H : delivered_numbers (exec healthy_node (Listener_new 0 4) swapped_schedule)
              = [4; 5; 6; 5]%N) by (vm_compute; reflexivity).
  rewrite H. split; [reflexivity|]. split.
  - unfold ascending. intros Hs.
    apply StronglySorted_cons in Hs as [_ Hs]. apply StronglySorted_cons in Hs as [_ Hs].
    apply StronglySorted_cons in Hs as [Hs _]. apply Forall_cons in Hs as [Hs _]. lia.
  - intros Hn. apply NoDup_cons in Hn as [_ Hn]. apply NoDup_cons in Hn as [Hn _].
    apply Hn. right. left.
Qed.

Section Ascending.

Implicit Types (xs ys : list N) (x : N).

Lemma ascending_insert xs x ys :
  ascending (xs ++ ys) ->
  Forall (fun n => n < x)%N xs -> Forall (fun n => x < n)%N ys ->
  ascending (xs ++ x :: ys).
Proof.
  unfold ascending. rewrite !StronglySorted_app, StronglySorted_cons.
  intros (Hxy & Hx & Hy) Hlt Hgt. rewrite Forall_forall in Hlt, Hgt.
  repeat split; auto.
  - intros a Ha b Hb. apply elem_of_cons in Hb as [-> | Hb]; auto.
  - now apply Forall_forall.
Qed.

Lemma ascending_remove xs x ys : ascending (xs ++ x :: ys) -> ascending (xs ++ ys).
Proof.
  unfold ascending. rewrite !StronglySorted_app, StronglySorted_cons.
  intros (Hxy & Hx & _ & Hy). repeat split; auto.
  intros a Ha b Hb. apply Hxy; [assumption|]. now right.
Qed.

Lemma ascending_head xs x ys :
  ascending (xs ++ x :: ys) -> Forall (fun n => x <= n)%N (x :: ys).
Proof.
  unfold ascending. rewrite StronglySorted_app, StronglySorted_cons.
  intros (_ & _ & Hy & _). constructor; [lia|].
  eapply Forall_impl; [exact Hy|]. intros; cbn in *; lia.
Qed.

End Ascending.

Section Coherence.

Variable rpc : RPC.
Hypothesis Hfaith : history_faithful rpc.

Lemma feed_numbers_cons a rest :
  feed_numbers (a :: rest)
  = match a with ASpawn c => call_number c :: feed_numbers rest | _ => feed_numbers rest end.
Proof. destruct a; reflexivity. Qed.

Lemma timeline_drop l a rest :
  ascending (timeline l (a :: rest)) -> ascending (timeline l rest).
Proof.
  unfold timeline. rewrite feed_numbers_cons. destruct a as [c|k| |]; auto.
  rewrite !app_assoc. apply ascending_remove.
Qed.

Lemma feed_drop (P : N -> Prop) (xs : list N) a rest :
  Forall P (xs ++ feed_numbers (a :: rest)) -> Forall P (xs ++ feed_numbers rest).
Proof.
  rewrite feed_numbers_cons. destruct a as [c|k| |]; auto.
  rewrite !Forall_app, Forall_cons. tauto.
Qed.

(** A step that leaves the listener as it is. *)
Lemma coherent_drop l a rest : coherent rpc l (a :: rest) -> coherent rpc l rest.
Proof.
  intros (Hasc & Hrest). split; [eapply timeline_drop, Hasc|].
  intros Hpan. destruct (Hrest Hpan) as (Hph & Hdone & Hst & Hlow).
  repeat split; auto; try (now apply Hdone); try (now apply Hst).
  intros Hne. specialize (Hlow Hne). rewrite app_assoc in Hlow |- *.
  eapply feed_drop, Hlow.
Qed.

Lemma spawn_coherent l c rest :
  coherent rpc l (ASpawn c :: rest) -> coherent rpc (step rpc l (ASpawn c)) rest.
Proof.
  intros Hc. unfold step. destruct (l_panicked l) eqn:Hpan; [eapply coherent_drop, Hc|].
  destruct (l_registered l) eqn:Hreg; [|eapply coherent_drop, Hc].
  destruct Hc as (Hasc & Hrest). specialize (Hrest Hpan).
  destruct_listener l. unfold coherent, timeline, phase_ok, delivered_numbers, delivered in *.
  cbn in *. rewrite fmap_app, <- !app_assoc. cbn. split; [exact Hasc|].
  intros _. exact Hrest.
Qed.

Lemma cancel_coherent l rest :
  coherent rpc l (ACancel :: rest) -> coherent rpc (step rpc l ACancel) rest.
Proof.
  intros Hc. unfold step. destruct (l_panicked l) eqn:Hpan; [eapply coherent_drop, Hc|].
  unfold cancel_listener. destruct (l_once l); [eapply coherent_drop, Hc|].
  apply coherent_drop in Hc. destruct_listener l. exact Hc.
Qed.

Lemma run_coherent l rest :
  coherent rpc l (ARun 0 :: rest) -> coherent rpc (step rpc l (ARun 0)) rest.
Proof.
  intros Hc. unfold step. destruct (l_panicked l) eqn:Hpan; [eapply coherent_drop, Hc|].
  destruct (l_spawned l !! 0) as [[[events n] h]|] eqn:Hk; [|eapply coherent_drop, Hc].
  apply coherent_drop in Hc. destruct Hc as (Hasc & Hrest). specialize (Hrest Hpan).
  destruct_listener l. cbn in Hk, Hpan. subst pan.
  destruct spawned as [|c spawned]; [discriminate|]. cbn in Hk. injection Hk as ->.
  unfold coherent, timeline, phase_ok, delivered_numbers, delivered in *.
  cbn in Hasc, Hrest. destruct Hrest as (Hph & Hdone & Hst & Hlow).
  unfold callbackWrapper, TryPush. cbn.
  destruct (N.eqb_spec start 0) as [-> | Hne]; cbn.
  - destruct started; cbn.
    + (* the channel is closed a second time *)
      split; [|discriminate]. rewrite app_assoc in Hasc |- *.
      eapply ascending_remove, Hasc.
    + destruct (Hst eq_refl) as (_ & -> & ->).
      destruct done; [destruct (Hdone eq_refl); discriminate|]. cbn.
      split; [exact Hasc|]. intros _. split; [exact Hph|].
      split; [discriminate|]. split; [discriminate|].
      intros _. apply (ascending_head _ _ _ Hasc).
  - assert (Hstarted : started = true).
    { destruct started; [reflexivity|]. destruct (Hst eq_refl) as (? & _). contradiction. }
    subst started. specialize (Hlow Hne). destruct done; cbn.
    + destruct (Hdone eq_refl) as (-> & ->). cbn in *.
      rewrite omap_app, fmap_app, <- !app_assoc. cbn.
      split; [exact Hasc|]. intros _. split; [exact I|].
      split; [auto|]. split; [discriminate|].
      intros _. now apply Forall_cons in Hlow as [_ ?].
    + rewrite fmap_app, <- !app_assoc. cbn.
      split; [exact Hasc|]. intros _. split; [exact Hph|].
      split; [discriminate|]. split; [discriminate|].
      intros _. exact Hlow.
Qed.

Lemma Forall_budget (b b' : nat) (cur : N) (ns : list N) :
  b' <= b ->
  Forall (fun n => n + N.of_nat b <= cur)%N ns ->
  Forall (fun n => n + N.of_nat b' <= cur)%N ns.
Proof.
  intros Hb H. eapply Forall_impl; [exact H|]. intros n Hn. cbn in Hn. lia.
Qed.

(** The goals left by a step of the goroutine that delivers nothing: the
    timeline is as before, [phase] proves what the new position asks, and
    the facts on the queue and on the start block are unchanged. *)
Ltac undelivered Hasc Hlow phase :=
  cbn; rewrite ?omap_app; cbn; rewrite ?app_nil_r;
  split; [exact Hasc|]; intros _;
  split; [phase|]; split; [discriminate|]; split; [discriminate|]; exact Hlow.

Lemma tick_coherent l rest :
  coherent rpc l (ATick :: rest) -> coherent rpc (step rpc l ATick) rest.
Proof.
  intros Hc. unfold step. destruct (l_panicked l) eqn:Hpan; [eapply coherent_drop, Hc|].
  apply coherent_drop in Hc. destruct Hc as (Hasc & Hrest). specialize (Hrest Hpan).
  destruct_listener l. cbn in Hpan. subst pan.
  unfold coherent, timeline, phase_ok, delivered_numbers, delivered in *.
  cbn in Hasc, Hrest. destruct Hrest as (Hph & Hdone & Hst & Hlow).
  assert (Hopen : p <> Returned -> done = false).
  { intros Hp. destruct done; [|reflexivity]. destruct (Hdone eq_refl). contradiction. }
  assert (Hstd : p <> AwaitStarted -> started = true).
  { intros Hp. destruct started; [reflexivity|]. destruct (Hst eq_refl) as (_ & ? & _).
    contradiction. }
  unfold backfill_step. cbn [l_pc].
  destruct p as [|meta key cur|meta key cur sets|meta key cur header block changes sets
                |meta key cur header block events changes sets| |].
  - (* waiting for the first notification *)
    cbn. destruct started; [|cbn; split; [exact Hasc|]; intros _; auto].
    rewrite (Hopen ltac:(discriminate)) in *.
    destruct (N.leb_spec start begin) as [Hle | Hlt];
      [undelivered Hasc Hlow ltac:(exact I)|].
    destruct (State_GetMetadataLatest rpc) as [meta | err];
      [|undelivered Hasc Hlow ltac:(exact I)].
    destruct (CreateStorageKey rpc meta) as [key | err];
      [|undelivered Hasc Hlow ltac:(exact I)].
    undelivered Hasc Hlow ltac:(split; [lia|]; split; [lia|]; rewrite Hph; constructor).
  - (* at the head of the loop *)
    rewrite (Hopen ltac:(discriminate)), (Hstd ltac:(discriminate)) in *.
    destruct Hph as (Hle & Hpos & Hbelow).
    cbn. destruct (N.ltb_spec cur start) as [Hlt | Hge];
      [|undelivered Hasc Hlow ltac:(exact I)].
    destruct (Chain_GetBlockHash rpc cur) as [bHash | err] eqn:Hhash;
      [|undelivered Hasc Hlow ltac:(exact I)].
    destruct (State_QueryStorageAt rpc key bHash) as [sets | err] eqn:Hquery;
      [|undelivered Hasc Hlow ltac:(exact I)].
    destruct (Hfaith key cur bHash sets Hhash Hquery) as (Hcount & Hagree).
    undelivered Hasc Hlow
      ltac:(split; [exact Hlt|]; split; [exact Hagree|]; split; [exact Hcount|];
            eapply Forall_impl; [exact Hbelow|]; intros n Hn; cbn in Hn; lia).
  - (* between two sets *)
    rewrite (Hopen ltac:(discriminate)), (Hstd ltac:(discriminate)) in *.
    destruct Hph as (Hlt & Hagree & Hcount & Hbelow).
    destruct sets as [|set sets].
    { cbn in Hbelow.
      undelivered Hasc Hlow
        ltac:(split; [lia|]; split; [lia|];
              eapply Forall_impl; [exact Hbelow|]; intros n Hn; cbn in Hn; lia). }
    destruct (Chain_GetHeader rpc (Block set)) as [header | err] eqn:Hheader;
      [|undelivered Hasc Hlow ltac:(exact I)].
    undelivered Hasc Hlow
      ltac:(split; [exact Hlt|]; split; [eapply Hagree; [left|exact Hheader]|];
            split; [intros s' h' Hin; apply Hagree; now right|];
            split; [exact Hcount|exact Hbelow]).
  - (* between two changes *)
    rewrite (Hopen ltac:(discriminate)), (Hstd ltac:(discriminate)) in *.
    destruct Hph as (Hlt & Hnum & Hagree & Hcount & Hbelow).
    destruct changes as [|change changes];
      [undelivered Hasc Hlow ltac:(cbn in *; auto)|].
    cbn [live_count] in Hcount, Hbelow.
    destruct (skipped key change) eqn:Hskip;
      [undelivered Hasc Hlow ltac:(cbn in *; auto)|].
    destruct (DecodeEventRecords rpc meta (StorageData change)) as [events | err];
      [|undelivered Hasc Hlow
          ltac:(split; [exact Hlt|]; split; [exact Hnum|]; split; [exact Hagree|];
                split; [lia|]; eapply Forall_budget; [|exact Hbelow]; lia)].
    destruct canc; [undelivered Hasc Hlow ltac:(exact I)|].
    (* the flag is read as false *)
    undelivered Hasc Hlow
      ltac:(split; [exact Hlt|]; split; [exact Hnum|]; split; [exact Hagree|];
            split; [lia|]; eapply Forall_impl; [exact Hbelow|];
            intros n Hn; cbn in Hn; lia).
  - (* the callback is called on the block *)
    rewrite (Hopen ltac:(discriminate)), (Hstd ltac:(discriminate)) in *.
    destruct Hph as (Hlt & Hnum & Hagree & Hzero & Hbelow).
    cbn. rewrite omap_app, fmap_app. cbn. rewrite <- app_assoc. cbn.
    rewrite Hzero in *. unfold call_number. cbn. rewrite Hnum.
    specialize (Hlow ltac:(lia)).
    split.
    { apply ascending_insert; [exact Hasc|exact Hbelow|].
      eapply Forall_impl; [exact Hlow|]. intros n Hn. cbn in Hn. lia. }
    intros _. split.
    { split; [exact Hlt|]. split; [reflexivity|]. split; [exact Hagree|].
      split; [lia|]. rewrite Forall_app. split.
      - eapply Forall_impl; [exact Hbelow|]. intros n Hn. cbn in Hn. lia.
      - constructor; [lia|constructor]. }
    split; [discriminate|]. split; [discriminate|]. intros _. exact Hlow.
  - (* inside Do *)
    rewrite (Hopen ltac:(discriminate)), (Hstd ltac:(discriminate)) in *.
    unfold Do_pass. cbn.
    destruct queue as [|b queue]; cbn.
    { split; [exact Hasc|]. intros _. split; [exact I|].
      split; [auto|]. split; [discriminate|exact Hlow]. }
    rewrite omap_app, fmap_app. cbn. rewrite <- app_assoc. cbn.
    split; [exact Hasc|]. intros _. split; [exact I|].
    split; [discriminate|]. split; [discriminate|].
    intros Hne. specialize (Hlow Hne). cbn in Hlow. now apply Forall_cons in Hlow as [_ ?].
  - (* returned *)
    cbn. split; [exact Hasc|]. intros _. auto.
Qed.

Lemma step_coherent l a rest :
  match a with ARun k => k = 0 | _ => True end ->
  coherent rpc l (a :: rest) -> coherent rpc (step rpc l a) rest.
Proof.
  destruct a as [c|k| |]; intros Hk.
  - apply spawn_coherent.
  - subst k. apply run_coherent.
  - apply tick_coherent.
  - apply cancel_coherent.
Qed.

Lemma exec_coherent sched l :
  runs_in_order sched -> coherent rpc l sched -> coherent rpc (exec rpc l sched) [].
Proof.
  revert l. induction sched as [|a sched IH]; intros l Hord Hc; [exact Hc|].
  apply Forall_cons in Hord as [Ha Hord]. rewrite exec_cons.
  apply IH; [exact Hord|]. now apply step_coherent.
Qed.

End Coherence.

Lemma ascending_NoDup (ns : list N) : ascending ns -> NoDup ns.
Proof.
  unfold ascending. induction ns as [|n ns IH]; intros Hs; [constructor|].
  apply StronglySorted_cons in Hs as [Hlt Hs]. constructor; [|auto].
  intros Hin. rewrite Forall_forall in Hlt. specialize (Hlt n Hin). lia.
Qed.

Lemma coherent_new (rpc : RPC) (idx : Z) (begin : types_BlockNumber) (sched : list action) :
  ascending (feed_numbers sched) -> coherent rpc (Listener_new idx begin) sched.
Proof.
  intros Hfeed. split; [exact Hfeed|]. intros _. cbn.
  split; [reflexivity|]. split; [discriminate|]. split; [auto|]. intros H. now destruct H.
Qed.

Lemma node_faithful (garbled : N -> bool) : history_faithful (node garbled).
Proof.
  intros key h bHash sets Hh Hq. cbn in Hh, Hq. injection Hh as <-. injection Hq as <-.
  split.
  - cbn. unfold skipped, codec_Eq. cbn. rewrite String.eqb_refl. cbn. lia.
  - intros set header Hin Hhd. apply list_elem_of_singleton in Hin as ->.
    cbn in Hhd. now injection Hhd as <-.
Qed.

(** C4, amended.  When the wrapper goroutines of a listener run one after
    another in the order in which the dispatcher spawned them, the block
    numbers of the live notifications are strictly increasing, and the
    node answers the historical query for a height with sets of that
    height holding at most one change of the events key, then, whatever
    the interleaving of the wrappers, the backfill goroutine and [cancel],
    the block numbers handed to the callback by the backfill loop, by [Do]
    and by the wrapper form one strictly increasing sequence; in
    particular none is handed over twice. *)
Theorem C4_deliveries_ascend (rpc : RPC) (idx : Z) (begin : types_BlockNumber)
    (sched : list action) :
  history_faithful rpc ->
  runs_in_order sched ->
  ascending (feed_numbers sched) ->
  ascending (delivered_numbers (exec rpc (Listener_new idx begin) sched))
  /\ NoDup (delivered_numbers (exec rpc (Listener_new idx begin) sched)).
Proof.
  intros Hfaith Hord Hfeed.
  assert (Hasc : ascending (delivered_numbers (exec rpc (Listener_new idx begin) sched))).
  { pose proof (exec_coherent rpc Hfaith sched (Listener_new idx begin) Hord
                  (coherent_new rpc idx begin sched Hfeed)) as [H _].
    unfold timeline in H. now apply StronglySorted_app_1_l in H. }
  split; [exact Hasc|]. now apply ascending_NoDup.
Qed.

(** C4, amended, on [ordered_schedule]: block 4 comes from the backfill,
    5 and 6 from the queue and 7 from the wrapper. *)
Lemma C4_deliveries_ascend_witness :
  delivered_numbers (exec healthy_node (Listener_new 0 4) ordered_schedule) = [4; 5; 6; 7]%N
  /\ ascending (delivered_numbers (exec healthy_node (Listener_new 0 4) ordered_schedule)).
Proof.
  split; [vm_compute; reflexivity|].
  refine (proj1 (C4_deliveries_ascend healthy_node 0 4%N ordered_schedule
                   (node_faithful _) _ _)).
  - unfold runs_in_order, ordered_schedule. cbn. repeat constructor.
  - unfold ascending, feed_numbers, ordered_schedule. cbn. repeat constructor.
Defined.

(** * Further properties *)

(** ** The registry: registering, cancelling, registering again *)


(** The scan stops at [k] as soon as [k] is free and everything below is
    taken. *)
Lemma scan_loop_lowest (m : gmap Z nat) (k : Z) :
  (0 <= k <= math_MaxInt)%Z -> m !! k = None -> taken m 0 k ->
  scan_loop m = ScanBreak k.
Proof.
  intros Hk Hfree Htaken. pose proof (scan_loop_spec m) as H.
  destruct (scan_loop m) as [idx| |i']; [|exfalso|contradiction].
  - destruct H as (Hidx & Hf & Ht). f_equal.
    destruct (Z.lt_trichotomy idx k) as [Hlt | [-> | Hgt]]; [|reflexivity|].
    + destruct (Htaken idx ltac:(lia)) as [w Hw]. congruence.
    + destruct (Ht k ltac:(lia)) as [w Hw]. congruence.
  - destruct (H k ltac:(lia)) as [w Hw]. congruence.
Qed.

Lemma RegisterEventsListener_at (begin : types_BlockNumber) (c : Client) (k : Z) :
  (0 <= k <= math_MaxInt)%Z -> eventsListeners c !! k = None ->
  taken (eventsListeners c) 0 k ->
  RegisterEventsListener begin c
  = (mkClient (<[k := wrappers c]> (eventsListeners c)) (isListening c)
       (cancelListening c) (errsListening c) (listenings c) (S (wrappers c)),
     inl (Listener_new k begin)).
Proof.
  intros Hk Hfree Ht. unfold RegisterEventsListener.
  now rewrite (scan_loop_lowest _ k Hk Hfree Ht).
Qed.

(** X1. A successful registration adds one entry to [eventsListeners]
    under an index that was free, keeps every listener already
    registered under its index with its wrapper, gives the new wrapper
    a rank no earlier closure has, and leaves the lifecycle fields of the
    client alone. *)
Theorem register_keeps_listeners (begin : types_BlockNumber) (c c' : Client) (l : Listener) :
  RegisterEventsListener begin c = (c', inl l) ->
  (forall i w, eventsListeners c !! i = Some w -> eventsListeners c' !! i = Some w)
  /\ eventsListeners c' !! l_idx l = Some (wrappers c)
  /\ (forall i, i <> l_idx l -> eventsListeners c' !! i = eventsListeners c !! i)
  /\ size (eventsListeners c') = S (size (eventsListeners c))
  /\ wrappers c' = S (wrappers c)
  /\ isListening c' = isListening c /\ listenings c' = listenings c
  /\ cancelListening c' = cancelListening c /\ errsListening c' = errsListening c.
Proof.
  unfold RegisterEventsListener. pose proof (scan_loop_spec (eventsListeners c)) as H.
  destruct (scan_loop (eventsListeners c)) as [idx| |i']; [|discriminate|contradiction].
  destruct H as (Hr & Hfree & Ht). intros Heq. injection Heq as <- <-. cbn.
  split; [|split; [|split; [|split]]]; auto 10.
  - intros i w Hi. rewrite lookup_insert_ne; [exact Hi|]. congruence.
  - apply lookup_insert_eq.
  - intros i Hi. now apply lookup_insert_ne.
  - now apply map_size_insert_None.
Qed.

Lemma register_keeps_listeners_witness :
  eventsListeners (RegisterEventsListener 7%N two_listeners).1 !! 1%Z = Some 1
  /\ size (eventsListeners (RegisterEventsListener 7%N two_listeners).1) = 3.
Proof.
  pose proof (register_keeps_listeners 7%N two_listeners
                (RegisterEventsListener 7%N two_listeners).1 (Listener_new 2 7) eq_refl)
    as (Hkeep & _ & _ & Hsize & _).
  split; [exact (Hkeep 1%Z 1 eq_refl)|exact Hsize].
Defined.

(** X2. Cancelling the listener that a registration created puts
    [eventsListeners] back as it was before the registration, and the
    next registration is given the same index again. *)
Theorem register_then_cancel (begin begin' : types_BlockNumber) (c c' : Client) (l : Listener) :
  RegisterEventsListener begin c = (c', inl l) ->
  eventsListeners (cancel l c').2 = eventsListeners c
  /\ cancelled (cancel l c').1 = true
  /\ exists c'', RegisterEventsListener begin' (cancel l c').2
                 = (c'', inl (Listener_new (l_idx l) begin')).
Proof.
  unfold RegisterEventsListener at 1. pose proof (scan_loop_spec (eventsListeners c)) as H.
  destruct (scan_loop (eventsListeners c)) as [idx| |i'] eqn:Hscan;
    [|discriminate|contradiction].
  destruct H as (Hr & Hfree & Ht). intros Heq. injection Heq as <- <-.
  unfold cancel, cancel_listener. cbn.
  rewrite delete_insert_id by exact Hfree. split; [reflexivity|]. split; [reflexivity|].
  eexists. apply RegisterEventsListener_at; cbn; auto.
Qed.

Lemma register_then_cancel_witness :
  eventsListeners (cancel (Listener_new 2 7) (RegisterEventsListener 7%N two_listeners).1).2
  = eventsListeners two_listeners.
Proof.
  exact (proj1 (register_then_cancel 7%N 9%N two_listeners
                  (RegisterEventsListener 7%N two_listeners).1 (Listener_new 2 7) eq_refl)).
Defined.

Lemma RegisterEventsListener_calls_from (begins : list types_BlockNumber) (c : Client) (k : nat) :
  (Z.of_nat k + Z.of_nat (length begins) <= math_MaxInt + 1)%Z ->
  (forall i : Z, is_Some (eventsListeners c !! i) <-> (0 <= i < Z.of_nat k)%Z) ->
  let (c', ls) := RegisterEventsListener_calls begins c in
  l_idx <$> ls = Z.of_nat <$> seq k (length begins)
  /\ l_begin <$> ls = begins
  /\ (forall i : Z, is_Some (eventsListeners c' !! i)
                    <-> (0 <= i < Z.of_nat (k + length begins))%Z).
Proof.
  revert c k. induction begins as [|begin rest IH]; intros c k Hmax Hdom.
  - cbn. rewrite Nat.add_0_r. auto.
  - cbn [RegisterEventsListener_calls length] in *.
    rewrite (RegisterEventsListener_at begin c (Z.of_nat k)).
    + set (c1 := mkClient _ _ _ _ _ _).
      specialize (IH c1 (S k)).
      destruct (RegisterEventsListener_calls rest c1) as [c2 ls].
      destruct IH as (Hidx & Hbeg & Hdom').
      * lia.
      * intros i. subst c1. cbn. rewrite lookup_insert_is_Some, Hdom. lia.
      * cbn. rewrite Hidx, Hbeg. split; [reflexivity|]. split; [reflexivity|].
        intros i. rewrite Hdom'. lia.
    + lia.
    + apply eq_None_not_Some. rewrite Hdom. lia.
    + intros x Hx. apply Hdom. lia.
Qed.

(** X3. On a client with no listener registered, [n] registrations in a
    row all succeed (as long as [n] does not exceed the index space) and
    the i-th of them is given index [i]: the indices are 0, 1, ..., n-1 in
    the order of the calls, each listener keeping the [begin] it was
    registered with. *)
Theorem registrations_count_up (begins : list types_BlockNumber) (c : Client) :
  eventsListeners c = ∅ ->
  (Z.of_nat (length begins) <= math_MaxInt + 1)%Z ->
  l_idx <$> (RegisterEventsListener_calls begins c).2 = Z.of_nat <$> seq 0 (length begins)
  /\ l_begin <$> (RegisterEventsListener_calls begins c).2 = begins
  /\ size (eventsListeners (RegisterEventsListener_calls begins c).1) = length begins.
Proof.
  intros Hempty Hmax.
  pose proof (RegisterEventsListener_calls_from begins c 0 ltac:(lia)) as H.
  destruct (RegisterEventsListener_calls begins c) as [c' ls]. cbn.
  destruct H as (Hidx & Hbeg & Hdom).
  { intros i. rewrite Hempty, lookup_empty. split; [intros [? ?]; discriminate|lia]. }
  split; [exact Hidx|]. split; [exact Hbeg|].
  assert (Hd : dom (eventsListeners c') = list_to_set (Z.of_nat <$> seq 0 (length begins))).
  { apply set_eq. intros i. rewrite elem_of_dom, Hdom, elem_of_list_to_set, list_elem_of_fmap.
    split.
    - intros Hi. exists (Z.to_nat i). split; [lia|]. apply elem_of_seq. lia.
    - intros (j & -> & Hj). apply elem_of_seq in Hj. lia. }
  rewrite <- size_dom, Hd, size_list_to_set.
  - now rewrite length_fmap, length_seq.
  - apply NoDup_fmap; [intros x y; lia|apply NoDup_seq].
Qed.

Lemma registrations_count_up_witness :
  l_idx <$> (RegisterEventsListener_calls [5; 0; 9]%N NewClient).2 = [0; 1; 2]%Z.
Proof.
  exact (proj1 (registrations_count_up [5; 0; 9]%N NewClient eq_refl
                  ltac:(vm_compute; discriminate))).
Defined.

(** ** The lifecycle: start, cancel, start again *)

(** X4. After a successful start and a call of the cancel function it
    returned, the client is idle again: a further start that succeeds
    opens a second subscription and returns a new cancel function and a
    new channel, the new dispatcher runs, and calling the first cancel
    function once more changes nothing, so it cannot stop the second
    subscription; calling the new one stops it. *)
Theorem restart_after_cancel (rpc rpc' : RPC) (c c1 c2 : Client)
    (k : nat) (r : StartResult) :
  isListening c = 0%Z ->
  StartEventsListening rpc c = (c1, (Some k, Some k, None)) ->
  StartEventsListening rpc' (call_cancelListening k c1) = (c2, r) ->
  r.2 = None ->
  isListening (call_cancelListening k c1) = 0%Z
  /\ r = (Some (S k), Some (S k), None)
  /\ subscriptions_opened c2 = S (S (subscriptions_opened c))
  /\ (exists meta key, listenings c2 !! k = Some (mkListening meta key true true true))
  /\ (exists meta key, listenings c2 !! S k = Some (mkListening meta key false false false))
  /\ call_cancelListening k c2 = c2
  /\ isListening (call_cancelListening (S k) c2) = 0%Z
  /\ (exists meta key,
        listenings (call_cancelListening (S k) c2) !! S k
        = Some (mkListening meta key true true true)).
Proof.
  intros Hidle Hstart Hrestart Hok.
  pose proof (StartEventsListening_idle rpc c Hidle) as H. rewrite Hstart in H.
  destruct H as (Hl & Hreg & [(err & Hr & _)|(meta & key & Hr & Hls & Hc & He)]);
    [discriminate|].
  injection Hr as Hk. subst k.
  set (n := length (listenings c)) in *.
  assert (Hlook : listenings c1 !! n = Some (mkListening meta key false false false)).
  { rewrite Hls. apply list_lookup_middle. reflexivity. }
  assert (Hcancel : call_cancelListening n c1
                    = mkClient (eventsListeners c1) 0 (cancelListening c1) (errsListening c1)
                        (listenings c ++ [mkListening meta key true true true]) (wrappers c1)).
  { unfold call_cancelListening. rewrite Hlook. cbn. f_equal.
    rewrite Hls. subst n. rewrite insert_app_r_alt by lia. now rewrite Nat.sub_diag. }
  rewrite Hcancel in *.
  pose proof (StartEventsListening_idle rpc'
                (mkClient (eventsListeners c1) 0 (cancelListening c1) (errsListening c1)
                   (listenings c ++ [mkListening meta key true true true]) (wrappers c1))
                eq_refl) as H2.
  rewrite Hrestart in H2. cbn [listenings eventsListeners cancelListening errsListening] in H2.
  destruct H2 as (Hl2 & _ & [(err & Hr & _)|(meta' & key' & Hr & Hls2 & Hc2 & He2)]).
  { subst r. discriminate. }
  rewrite length_app in Hr. cbn in Hr. fold n in Hr.
  replace (n + 1) with (S n) in Hr by lia.
  assert (Hk : listenings c2 !! n = Some (mkListening meta key true true true)).
  { rewrite Hls2, <- app_assoc. apply list_lookup_middle. reflexivity. }
  assert (Hk' : listenings c2 !! S n = Some (mkListening meta' key' false false false)).
  { rewrite Hls2. apply list_lookup_middle. rewrite length_app. cbn. lia. }
  split; [reflexivity|]. split; [exact Hr|]. split.
  { unfold subscriptions_opened. rewrite Hls2, !length_app. cbn. lia. }
  split; [eauto|]. split; [eauto|]. split.
  { now apply call_cancelListening_latched with (mkListening meta key true true true). }
  unfold call_cancelListening. rewrite Hk'. cbn. split; [reflexivity|].
  exists meta', key'. apply list_lookup_insert_eq. eapply lookup_lt_Some, Hk'.
Qed.

Lemma restart_after_cancel_witness :
  StartEventsListening healthy_node
    (call_cancelListening 0 (StartEventsListening healthy_node NewClient).1)
  = ((StartEventsListening healthy_node
        (call_cancelListening 0 (StartEventsListening healthy_node NewClient).1)).1,
     (Some 1, Some 1, None)).
Proof.
  pose proof (restart_after_cancel healthy_node healthy_node NewClient
                (StartEventsListening healthy_node NewClient).1
                (StartEventsListening healthy_node
                   (call_cancelListening 0 (StartEventsListening healthy_node NewClient).1)).1
                0
                (StartEventsListening healthy_node
                   (call_cancelListening 0 (StartEventsListening healthy_node NewClient).1)).2
                eq_refl eq_refl eq_refl eq_refl) as (_ & Hr & _).
  vm_compute in Hr |- *. reflexivity.
Defined.

(** ** A backfill that meets no error *)


Lemma exec_app (rpc : RPC) (l : Listener) (s1 s2 : list action) :
  exec rpc l (s1 ++ s2) = exec rpc (exec rpc l s1) s2.
Proof. apply fold_left_app. Qed.

Lemma emit_emit (es1 es2 : list event) (l : Listener) :
  emit es2 (emit es1 l) = emit (es1 ++ es2) l.
Proof. unfold emit. cbn. now rewrite app_assoc. Qed.

Lemma emit_nil (l : Listener) : emit [] l = l.
Proof. destruct l. unfold emit. cbn. now rewrite app_nil_r. Qed.

Lemma heights_S (from : N) (n : nat) :
  heights from (S n) = from :: heights (from + 1) n.
Proof.
  unfold heights. cbn. rewrite N.add_0_r. f_equal.
  rewrite <- fmap_S_seq, <- list_fmap_compose. apply list_fmap_ext.
  intros i x _. cbn. lia.
Qed.

Section Backfill.

Variables (rpc : RPC) (meta : types_Metadata) (key : types_StorageKey).
Variable chain : N -> types_Hash * types_StorageDataRaw * pallets_Events.

Lemma backfill_block (l : Listener) (cur : N) (es : list event) :
  l_panicked l = false -> cancelled l = false ->
  (cur < subscriptionStartBlock l)%N ->
  serves rpc meta key chain cur ->
  exec rpc (in_loop meta key l cur es) (replicate 6 ATick)
  = in_loop meta key l (cur + 1) (es ++ block_trace chain cur).
Proof.
  intros Hpan Hcanc Hlt (Hh & Hq & Hhd & Hd).
  apply N.ltb_lt in Hlt.
  assert (Hskip : skipped key (mkKeyValueOption key true (chain cur).1.2) = false).
  { unfold skipped, codec_Eq. cbn [StorageKey HasStorageData].
    now rewrite String.eqb_refl. }
  destruct_listener l. cbn [l_panicked cancelled subscriptionStartBlock] in Hpan, Hcanc, Hlt.
  subst. unfold in_loop. tick_norm.
  change (replicate 6 ATick) with [ATick; ATick; ATick; ATick; ATick; ATick].
  rewrite exec_cons. tick_by. rewrite Hlt, Hh, Hq. tick_norm.
  rewrite exec_cons. tick_by. cbn [Block Changes]. rewrite Hhd. tick_norm.
  rewrite exec_cons. tick_by. rewrite Hskip. cbn [StorageData]. rewrite Hd. tick_norm.
  rewrite exec_cons. tick_by. tick_norm.
  rewrite exec_cons. tick_by. tick_norm.
  rewrite exec_cons. tick_by. tick_norm.
  unfold exec, fold_left, block_trace, historical. cbn [header_Number].
  now rewrite <- !app_assoc.
Qed.

Lemma backfill_range (n : nat) (l : Listener) (cur : N) (es : list event) :
  l_panicked l = false -> cancelled l = false ->
  (cur + N.of_nat n <= subscriptionStartBlock l)%N ->
  (forall h, (cur <= h < cur + N.of_nat n)%N -> serves rpc meta key chain h) ->
  exec rpc (in_loop meta key l cur es) (replicate (6 * n) ATick)
  = in_loop meta key l (cur + N.of_nat n) (es ++ flat_map (block_trace chain) (heights cur n)).
Proof.
  revert cur es. induction n as [|n IH]; intros cur es Hpan Hcanc Hle Hserves.
  - cbn. now rewrite N.add_0_r, app_nil_r.
  - replace (6 * S n) with (6 + 6 * n) by lia.
    rewrite replicate_add, exec_app.
    rewrite backfill_block by (try assumption; try lia; apply Hserves; lia).
    rewrite IH by (try assumption; try lia; intros h Hh; apply Hserves; lia).
    rewrite heights_S. cbn [flat_map]. rewrite <- app_assoc.
    f_equal. lia.
Qed.


Lemma call_of_entry_of (c : call) : call_of (entry_of c) = c.
Proof. now destruct c as [[ev n] h]. Qed.

Lemma calls_of_entries (cs : list call) : call_of <$> (entry_of <$> cs) = cs.
Proof.
  induction cs as [|c cs IH]; [reflexivity|].
  cbn [fmap list_fmap] in *. now rewrite call_of_entry_of, IH.
Qed.

(** The first notification starts the subscription and is queued. *)
Lemma first_arrival (idx : Z) (begin : N) (c : call) :
  exec rpc (Listener_new idx begin) (arrivals [c])
  = mkListener idx begin (call_number c) true (mkPendingEvents [entry_of c] false)
      false false true AwaitStarted [] false [].
Proof. destruct c as [[ev n] h]. reflexivity. Qed.

(** While the queue is open, the later notifications are queued behind. *)
Lemma queued_arrivals (cs : list call) (l : Listener) :
  l_panicked l = false -> l_registered l = true -> l_spawned l = [] ->
  subscriptionStartBlock l <> 0%N -> pe_done (l_pendingEvents l) = false ->
  exec rpc l (arrivals cs)
  = set_pendingEvents
      (mkPendingEvents (pe_list (l_pendingEvents l) ++ (entry_of <$> cs)) false) l.
Proof.
  intros Hpan Hreg Hsp Hst Hd. destruct_listener l.
  cbn [l_panicked l_registered l_spawned subscriptionStartBlock l_pendingEvents
       pe_done pe_list] in *.
  subst. apply N.eqb_neq in Hst. revert queue.
  induction cs as [|[[ev n] h] cs IH]; intros queue.
  - unfold set_pendingEvents. cbn. now rewrite app_nil_r.
  - change (arrivals (((ev, n), h) :: cs))
      with (ASpawn (ev, n, h) :: ARun 0 :: arrivals cs).
    rewrite !exec_cons. unfold step at 2. tick_norm. unfold set_spawned. tick_norm.
    unfold step. tick_norm. cbn [app lookup list_lookup delete list_delete].
    unfold callbackWrapper, set_spawned. tick_norm. rewrite Hst.
    cbn [andb]. unfold TryPush. cbn [pe_done negb pe_list].
    unfold set_pendingEvents. tick_norm. rewrite IH.
    unfold set_pendingEvents. tick_norm. cbn [fmap list_fmap].
    now rewrite <- app_assoc.
Qed.

(** Once the queue is closed, the wrappers call the callback themselves. *)
Lemma direct_arrivals (cs : list call) (l : Listener) :
  l_panicked l = false -> l_registered l = true -> l_spawned l = [] ->
  subscriptionStartBlock l <> 0%N -> pe_done (l_pendingEvents l) = true ->
  exec rpc l (arrivals cs) = emit (ECallback ViaWrapper <$> cs) l.
Proof.
  intros Hpan Hreg Hsp Hst Hd. destruct_listener l.
  cbn [l_panicked l_registered l_spawned subscriptionStartBlock l_pendingEvents
       pe_done pe_list] in *.
  subst. apply N.eqb_neq in Hst. revert tr.
  induction cs as [|[[ev n] h] cs IH]; intros tr.
  - unfold emit. cbn. now rewrite app_nil_r.
  - change (arrivals (((ev, n), h) :: cs))
      with (ASpawn (ev, n, h) :: ARun 0 :: arrivals cs).
    rewrite !exec_cons. unfold step at 2. tick_norm. unfold set_spawned. tick_norm.
    unfold step. tick_norm. cbn [app lookup list_lookup delete list_delete].
    unfold callbackWrapper, set_spawned. tick_norm. rewrite Hst.
    cbn [andb]. unfold TryPush. cbn [pe_done negb pe_list].
    tick_norm. rewrite IH.
    tick_norm. cbn [fmap list_fmap].
    now rewrite <- app_assoc.
Qed.

(** Inside [Do], one pass per queued entry hands the entries to the
    callback in the order of the queue. *)
Lemma drain (l : Listener) :
  l_panicked l = false -> l_pc l = InDo ->
  exec rpc l (replicate (length (pe_list (l_pendingEvents l))) ATick)
  = emit (ECallback ViaDo <$> (call_of <$> pe_list (l_pendingEvents l)))
      (set_pendingEvents (mkPendingEvents [] (pe_done (l_pendingEvents l))) l).
Proof.
  intros Hpan Hpc. destruct_listener l.
  cbn [l_panicked l_pc l_pendingEvents pe_done pe_list] in *.
  subst. revert tr.
  induction queue as [|b queue IH]; intros tr.
  - unfold emit, set_pendingEvents. cbn. now rewrite app_nil_r.
  - cbn [length replicate]. rewrite exec_cons. tick_by.
    unfold Do_pass. cbn [pe_list pe_done]. unfold set_pendingEvents. tick_norm.
    rewrite IH. unfold set_pendingEvents. tick_norm. cbn [fmap list_fmap].
    now rewrite <- app_assoc.
Qed.


(** The whole run: the first notifications are queued, the goroutine
    replays the history, drains the queue and closes it, and the later
    notifications are delivered by their wrappers. *)
Lemma orderly_run (idx : Z) (begin : N) (c0 : call) (cs cs' : list call) (n : nat) :
  State_GetMetadataLatest rpc = inl meta ->
  CreateStorageKey rpc meta = inl key ->
  n <> 0 -> call_number c0 = (begin + N.of_nat n)%N ->
  (forall h, (begin <= h < call_number c0)%N -> serves rpc meta key chain h) ->
  exec rpc (Listener_new idx begin)
    (arrivals (c0 :: cs) ++ replicate (6 * n + length cs + 4) ATick ++ arrivals cs')
  = mkListener idx begin (call_number c0) true (mkPendingEvents [] true)
      false false true Returned [] false
      ((EGetMetadataLatest :: flat_map (block_trace chain) (heights begin n))
       ++ (ECallback ViaDo <$> c0 :: cs) ++ (ECallback ViaWrapper <$> cs')).
Proof.
  intros Hmeta Hkey Hn Hnum Hserves.
  assert (Hst : call_number c0 <> 0%N) by lia.
  pose (st := fun pe p tr =>
    mkListener idx begin (call_number c0) true pe false false true p [] false tr).
  pose (hist := EGetMetadataLatest :: flat_map (block_trace chain) (heights begin n)).
  assert (H1 : exec rpc (Listener_new idx begin) (arrivals (c0 :: cs))
               = st (mkPendingEvents (entry_of <$> c0 :: cs) false) AwaitStarted []).
  { change (arrivals (c0 :: cs)) with (arrivals [c0] ++ arrivals cs).
    rewrite exec_app, first_arrival.
    now rewrite queued_arrivals by (try reflexivity; exact Hst). }
  assert (H2 : exec rpc (st (mkPendingEvents (entry_of <$> c0 :: cs) false) AwaitStarted [])
                 [ATick]
               = st (mkPendingEvents (entry_of <$> c0 :: cs) false)
                   (LoopHead meta key begin) [EGetMetadataLatest]).
  { unfold st, exec. cbn [fold_left]. tick_by.
    assert (Hle : (call_number c0 <=? begin)%N = false) by (apply N.leb_gt; lia).
    now rewrite Hle, Hmeta, Hkey. }
  assert (H3 : exec rpc (st (mkPendingEvents (entry_of <$> c0 :: cs) false)
                           (LoopHead meta key begin) [EGetMetadataLatest])
                 (replicate (6 * n) ATick)
               = st (mkPendingEvents (entry_of <$> c0 :: cs) false)
                   (LoopHead meta key (call_number c0)) hist).
  { pose proof (backfill_range n
        (st (mkPendingEvents (entry_of <$> c0 :: cs) false) AwaitStarted [])
        begin [EGetMetadataLatest] eq_refl eq_refl) as H.
    rewrite Hnum. apply H; [cbn; lia|].
    intros h Hh. apply Hserves. lia. }
  assert (H4 : exec rpc (st (mkPendingEvents (entry_of <$> c0 :: cs) false)
                           (LoopHead meta key (call_number c0)) hist) [ATick]
               = st (mkPendingEvents (entry_of <$> c0 :: cs) false) InDo hist).
  { unfold st, exec. cbn [fold_left]. tick_by. now rewrite N.ltb_irrefl. }
  assert (H5 : exec rpc (st (mkPendingEvents (entry_of <$> c0 :: cs) false) InDo hist)
                 (replicate (S (length cs)) ATick)
               = st (mkPendingEvents [] false) InDo
                   (hist ++ (ECallback ViaDo <$> c0 :: cs))).
  { pose proof (drain (st (mkPendingEvents (entry_of <$> c0 :: cs) false) InDo hist)
                  eq_refl eq_refl) as H.
    cbn [st l_pendingEvents pe_list pe_done] in H.
    cbn [fmap list_fmap length] in H. rewrite length_fmap in H.
    cbn [fmap list_fmap]. rewrite H. unfold st, emit, set_pendingEvents. tick_norm.
    now rewrite call_of_entry_of, calls_of_entries. }
  assert (H6 : exec rpc (st (mkPendingEvents [] false) InDo
                           (hist ++ (ECallback ViaDo <$> c0 :: cs))) [ATick]
               = st (mkPendingEvents [] true) Returned
                   (hist ++ (ECallback ViaDo <$> c0 :: cs))).
  { reflexivity. }
  replace (6 * n + length cs + 4)
    with (1 + (6 * n + (1 + (S (length cs) + 1)))) by lia.
  rewrite !replicate_add. change (replicate 1 ATick) with [ATick].
  rewrite exec_app, H1, exec_app, exec_app, H2, exec_app, H3, exec_app, H4.
  rewrite exec_app, H5, H6.
  rewrite direct_arrivals by (try reflexivity; exact Hst).
  unfold st, emit. tick_norm. now rewrite <- app_assoc.
Qed.

Lemma omap_block_trace {A} (f : event -> option A) (g : N -> list A) (hs : list N) :
  (forall h, omap f (block_trace chain h) = g h) ->
  omap f (flat_map (block_trace chain) hs) = flat_map g hs.
Proof.
  intros Hf. induction hs as [|h hs IH]; [reflexivity|].
  cbn [flat_map]. now rewrite omap_app, Hf, IH.
Qed.

Lemma omap_fmap_some {A B} (f : B -> option A) (g : A -> B) (xs : list A) :
  (forall x, f (g x) = Some x) -> omap f (g <$> xs) = xs.
Proof.
  intros Hf. induction xs as [|x xs IH]; [reflexivity|].
  cbn. now rewrite Hf, IH.
Qed.

Lemma omap_fmap_none {A B C} (f : B -> option C) (g : A -> B) (xs : list A) :
  (forall x, f (g x) = None) -> omap f (g <$> xs) = [].
Proof.
  intros Hf. induction xs as [|x xs IH]; [reflexivity|].
  cbn. now rewrite Hf, IH.
Qed.

Lemma flat_map_singleton {A B} (f : A -> B) (xs : list A) :
  flat_map (fun x => [f x]) xs = f <$> xs.
Proof. induction xs as [|x xs IH]; [reflexivity|]. cbn. now rewrite IH. Qed.

Lemma flat_map_nil {A B} (xs : list A) : flat_map (fun _ => @nil B) xs = [].
Proof. induction xs as [|x xs IH]; [reflexivity|]. exact IH. Qed.

(** X5. A listener registered with [begin] below the height of the first
    live notification, on a node that answers every historical request of
    the range: when the notifications [c0 :: cs] come in while the history
    is replayed and [cs'] afterwards, the callback receives, in this order
    and once each, the historical blocks [begin .. start-1], then
    [c0 :: cs] from the queue, then [cs'] from the wrappers.  Exactly the
    heights of the range are fetched, no error is sent, the goroutine has
    returned and the queue is empty and closed. *)
Theorem orderly_listener_receives_everything (idx : Z) (begin : N) (c0 : call)
    (cs cs' : list call) :
  State_GetMetadataLatest rpc = inl meta ->
  CreateStorageKey rpc meta = inl key ->
  (begin < call_number c0)%N ->
  (forall h, (begin <= h < call_number c0)%N -> serves rpc meta key chain h) ->
  let n := N.to_nat (call_number c0 - begin) in
  let l := exec rpc (Listener_new idx begin)
             (arrivals (c0 :: cs) ++ replicate (6 * n + length cs + 4) ATick
              ++ arrivals cs') in
  delivered l = (historical chain <$> heights begin n) ++ (c0 :: cs) ++ cs'
  /\ delivered_by_backfill l = historical chain <$> heights begin n
  /\ heights_fetched l = heights begin n
  /\ errors_sent l = []
  /\ l_pc l = Returned
  /\ l_pendingEvents l = mkPendingEvents [] true
  /\ l_panicked l = false.
Proof.
  intros Hmeta Hkey Hlt Hserves n l. subst l.
  rewrite (orderly_run idx begin c0 cs cs' n Hmeta Hkey) by (subst n; lia || assumption).
  unfold delivered, delivered_by_backfill, heights_fetched, errors_sent.
  cbn [l_trace l_pc l_pendingEvents l_panicked].
  rewrite !omap_app.
  cbn [omap list_omap callback_of backfill_callback_of fetch_of error_of].
  change (@list_omap) with (@omap list _).
  rewrite (omap_block_trace callback_of (fun h => [historical chain h])) by reflexivity.
  rewrite (omap_block_trace backfill_callback_of (fun h => [historical chain h]))
    by reflexivity.
  rewrite (omap_block_trace fetch_of (fun h => [h])) by reflexivity.
  rewrite (omap_block_trace error_of (fun h => [])) by reflexivity.
  rewrite !flat_map_singleton, flat_map_nil, list_fmap_id.
  rewrite !(omap_fmap_some callback_of) by reflexivity.
  rewrite !(omap_fmap_none backfill_callback_of) by reflexivity.
  rewrite !(omap_fmap_none fetch_of) by reflexivity.
  rewrite !(omap_fmap_none error_of) by reflexivity.
  rewrite !app_nil_r. auto 10.
Qed.

End Backfill.

Lemma orderly_listener_receives_everything_witness :
  let l := exec healthy_node (Listener_new 0 1)
             (arrivals [notification 3; notification 4] ++ replicate 17 ATick
              ++ arrivals [notification 5]) in
  delivered l = [notification 1; notification 2; notification 3; notification 4;
                 notification 5]
  /\ l_pc l = Returned.
Proof.
  pose proof (orderly_listener_receives_everything healthy_node 1%N "System.Events"
                (fun h => (h, "events", "events")) 0 1 (notification 3)
                [notification 4] [notification 5] eq_refl eq_refl eq_refl) as H.
  destruct H as (H1 & _ & _ & _ & H5 & _).
  - intros h _. repeat split.
  - split; [exact H1|exact H5].
Defined.

(** ** Edges of the wrapper: cancel and block 0 *)

Section Wrapper.

Variable rpc : RPC.

(** With the queue closed, the wrappers already started run to their
    callback, whatever the [cancelled] flag. *)
Lemma spawned_wrappers_deliver (ts : list call) (l : Listener) :
  l_panicked l = false -> subscriptionStartBlock l <> 0%N ->
  pe_done (l_pendingEvents l) = true -> l_spawned l = ts ->
  exec rpc l (replicate (length ts) (ARun 0))
  = emit (ECallback ViaWrapper <$> ts) (set_spawned [] l).
Proof.
  intros Hpan Hst Hd Hsp. destruct_listener l.
  cbn [l_panicked l_spawned subscriptionStartBlock l_pendingEvents pe_done] in *.
  subst. apply N.eqb_neq in Hst. revert tr.
  induction ts as [|[[ev n] h] ts IH]; intros tr.
  - unfold emit, set_spawned. cbn. now rewrite app_nil_r.
  - cbn [length replicate]. rewrite exec_cons. unfold step. tick_norm.
    cbn [lookup list_lookup delete list_delete].
    unfold callbackWrapper, set_spawned. tick_norm. rewrite Hst.
    cbn [andb]. unfold TryPush. tick_norm.
    rewrite IH. unfold set_spawned. tick_norm. cbn [fmap list_fmap].
    now rewrite <- app_assoc.
Qed.

(** X6. [cancel] stops the dispatcher from starting new wrappers for the
    listener, but the wrappers it has already started are not held back:
    once the queue is closed, each of them still calls the callback after
    [cancel] has returned, in the order in which they run. *)
Theorem cancel_lets_started_wrappers_deliver (l : Listener) :
  l_panicked l = false -> l_once l = false ->
  subscriptionStartBlock l <> 0%N -> pe_done (l_pendingEvents l) = true ->
  let l' := exec rpc l (ACancel :: replicate (length (l_spawned l)) (ARun 0)) in
  cancelled l' = true
  /\ delivered l' = delivered l ++ l_spawned l
  /\ l_spawned l' = []
  /\ forall c, step rpc l' (ASpawn c) = l'.
Proof.
  intros Hpan Honce Hst Hd l'. subst l'. rewrite exec_cons.
  assert (Hc : step rpc l ACancel
               = mkListener (l_idx l) (l_begin l) (subscriptionStartBlock l)
                   (subscriptionStarted l) (l_pendingEvents l) true true false (l_pc l)
                   (l_spawned l) (l_panicked l) (l_trace l)).
  { unfold step, cancel_listener. now rewrite Hpan, Honce. }
  rewrite Hc.
  rewrite (spawned_wrappers_deliver (l_spawned l)) by (try reflexivity; assumption).
  unfold delivered, emit, set_spawned, step. tick_norm.
  rewrite Hpan, omap_app.
  rewrite (omap_fmap_some callback_of) by reflexivity. auto.
Qed.

(** X7. When the first live notification is for block 0, the
    compare-and-swap of the wrapper stores 0 again: the channel is closed
    but [subscriptionStartBlock] still reads 0.  The goroutine wakes up,
    finds [begin >= 0] and returns without draining the queue, and the
    wrapper of the next notification closes the closed channel.  The
    callback has received nothing. *)
Theorem block_zero_closes_twice (idx : Z) (begin : N) (c0 c1 : call) (t : nat) :
  call_number c0 = 0%N ->
  let l := exec rpc (Listener_new idx begin)
             (arrivals [c0] ++ replicate t ATick ++ arrivals [c1]) in
  l_panicked l = true
  /\ delivered l = []
  /\ l_pendingEvents l = mkPendingEvents [entry_of c0] false
  /\ (t <> 0 -> l_pc l = Returned)
  /\ forall sched, exec rpc l sched = l.
Proof.
  intros Hnum l.
  assert (H0 : exec rpc (Listener_new idx begin) (arrivals [c0])
               = mkListener idx begin 0 true (mkPendingEvents [entry_of c0] false)
                   false false true AwaitStarted [] false []).
  { rewrite first_arrival. now rewrite Hnum. }
  assert (Hret : forall t' p, p = Returned ->
            exec rpc (mkListener idx begin 0 true (mkPendingEvents [entry_of c0] false)
                        false false true p [] false []) (replicate t' ATick)
            = mkListener idx begin 0 true (mkPendingEvents [entry_of c0] false)
                false false true p [] false []).
  { intros t' p ->. induction t' as [|t' IH]; [reflexivity|exact IH]. }
  assert (Ht : exists p', (t <> 0 -> p' = Returned)
               /\ exec rpc (mkListener idx begin 0 true (mkPendingEvents [entry_of c0] false)
                              false false true AwaitStarted [] false []) (replicate t ATick)
                  = mkListener idx begin 0 true (mkPendingEvents [entry_of c0] false)
                      false false true p' [] false []).
  { destruct t as [|t'].
    - exists AwaitStarted. split; [congruence|reflexivity].
    - exists Returned. split; [reflexivity|].
      cbn [replicate]. rewrite exec_cons. tick_by.
      rewrite (proj2 (N.leb_le 0 begin) (N.le_0_l begin)).
      apply (Hret t' Returned eq_refl). }
  destruct Ht as (p' & Hp' & He).
  assert (Hl : l = mkListener idx begin (call_number c1) true
                     (mkPendingEvents [entry_of c0] false)
                     false false true p' [] true []).
  { subst l. rewrite exec_app, H0, exec_app, He.
    destruct c1 as [[ev n] h]. reflexivity. }
  rewrite Hl. split; [reflexivity|]. split; [reflexivity|]. split; [reflexivity|].
  split; [exact Hp'|].
  intros sched. induction sched as [|a sched IH]; [reflexivity|].
  rewrite exec_cons. exact IH.
Qed.

End Wrapper.

Lemma block_zero_closes_twice_witness :
  let l := exec healthy_node (Listener_new 0 0)
             (arrivals [notification 0] ++ replicate 2 ATick ++ arrivals [notification 1]) in
  l_panicked l = true /\ delivered l = [].
Proof.
  pose proof (block_zero_closes_twice healthy_node 0 0 (notification 0) (notification 1)
                2 eq_refl) as H.
  cbv zeta in H. destruct H as (H1 & H2 & _). split; [exact H1|exact H2].
Defined.

Lemma cancel_lets_started_wrappers_deliver_witness :
  let l := mkListener 0 1 3 true (mkPendingEvents [] true) false false true Returned
             [notification 5; notification 6] false [] in
  delivered (exec healthy_node l [ACancel; ARun 0; ARun 0])
  = [notification 5; notification 6].
Proof.
  intros l.
  exact (proj1 (proj2 (cancel_lets_started_wrappers_deliver healthy_node l
                         eq_refl eq_refl (fun H => N.neq_succ_0 2 H) eq_refl))).
Defined.

(** ** The dispatcher: one wrapper per listener and decodable change *)


Lemma decoded_cons rpc meta key change (rest : list types_KeyValueOption) :
  decoded rpc meta key (change :: rest)
  = if skipped key change then decoded rpc meta key rest
    else match DecodeEventRecords rpc meta (StorageData change) with
         | inl events => events :: decoded rpc meta key rest
         | inr _ => decoded rpc meta key rest
         end.
Proof.
  unfold decoded. cbn. destruct (skipped key change); [reflexivity|].
  now destruct (DecodeEventRecords rpc meta (StorageData change)).
Qed.

Lemma undecoded_cons rpc meta key change (rest : list types_KeyValueOption) :
  undecoded rpc meta key (change :: rest)
  = if skipped key change then undecoded rpc meta key rest
    else match DecodeEventRecords rpc meta (StorageData change) with
         | inl _ => undecoded rpc meta key rest
         | inr err => err :: undecoded rpc meta key rest
         end.
Proof.
  unfold undecoded. cbn. destruct (skipped key change); [reflexivity|].
  now destruct (DecodeEventRecords rpc meta (StorageData change)).
Qed.

Lemma started_for_app idx (xs ys : list dispatch_event) :
  started_for idx (xs ++ ys) = started_for idx xs ++ started_for idx ys.
Proof. apply omap_app. Qed.

Lemma dispatch_errors_app (xs ys : list dispatch_event) :
  dispatch_errors (xs ++ ys) = dispatch_errors xs ++ dispatch_errors ys.
Proof. apply omap_app. Qed.

Lemma started_for_go idx i w c (evs : list dispatch_event) :
  started_for idx (DGo i w c :: evs)
  = if decide (i = idx) then c :: started_for idx evs else started_for idx evs.
Proof. unfold started_for. cbn. now destruct (decide (i = idx)). Qed.

Lemma started_for_entries (kvs : list (Z * nat)) (idx : Z) (cl : call) :
  NoDup kvs.*1 ->
  started_for idx ((fun iw : Z * nat => DGo iw.1 iw.2 cl) <$> kvs)
  = if decide (idx ∈ kvs.*1) then [cl] else [].
Proof.
  induction kvs as [|[i w] kvs IH]; intros Hnd.
  - now destruct (decide (idx ∈ [])) as [H|H]; [inversion H|].
  - rewrite !fmap_cons in *. cbn [fst] in *. apply NoDup_cons in Hnd as [Hni Hnd].
    rewrite started_for_go, (IH Hnd).
    destruct (decide (i = idx)) as [-> | Hne].
    + destruct (decide (idx ∈ kvs.*1)) as [H|H]; [contradiction|].
      destruct (decide (idx ∈ idx :: kvs.*1)) as [H'|H']; [reflexivity|].
      exfalso. apply H'. left.
    + destruct (decide (idx ∈ kvs.*1)) as [H|H];
        destruct (decide (idx ∈ i :: kvs.*1)) as [H'|H']; try reflexivity.
      * exfalso. apply H'. now right.
      * exfalso. apply elem_of_cons in H' as [-> | H']; contradiction.
Qed.

Lemma started_for_fan_out (c : Client) (idx : Z) (cl : call) :
  started_for idx (fan_out c cl)
  = match eventsListeners c !! idx with Some _ => [cl] | None => [] end.
Proof.
  unfold fan_out. rewrite started_for_entries by apply NoDup_fst_map_to_list.
  destruct (decide (idx ∈ (map_to_list (eventsListeners c)).*1)) as [H|H].
  - apply list_elem_of_fmap in H as ([i w] & -> & H).
    apply elem_of_map_to_list in H. cbn. now rewrite H.
  - destruct (eventsListeners c !! idx) as [w|] eqn:E; [|reflexivity].
    exfalso. apply H. apply list_elem_of_fmap. exists (idx, w).
    split; [reflexivity|]. now apply elem_of_map_to_list.
Qed.

Lemma dispatch_errors_fan_out (c : Client) (cl : call) :
  dispatch_errors (fan_out c cl) = [].
Proof.
  unfold fan_out, dispatch_errors.
  induction (map_to_list (eventsListeners c)) as [|iw kvs IH]; [reflexivity|exact IH].
Qed.

Lemma fan_out_length (c : Client) (cl : call) :
  length (fan_out c cl) = size (eventsListeners c).
Proof. unfold fan_out. now rewrite length_fmap, length_map_to_list. Qed.

(** X8. A notification whose header can be fetched starts, for every
    listener registered at that moment, exactly one wrapper per change
    that passes the guard and decodes, in the order of the changes and
    with the header's number and the block hash; a listener that is not
    registered gets none.  The errors sent are the decoder errors, in the
    order of the changes, and nothing else is done. *)
Theorem live_notification_reaches_each_listener_once (rpc : RPC) (c : Client)
    (changes : list types_KeyValueOption) (meta : types_Metadata)
    (storageKey : types_StorageKey) (blockHash : types_Hash) (header : types_Header) :
  Chain_GetHeader rpc blockHash = inl header ->
  let out := processSystemEventsStorageChanges rpc c changes meta storageKey blockHash in
  (forall idx,
      started_for idx out
      = match eventsListeners c !! idx with
        | Some _ => (fun events => (events, header_Number header, blockHash))
                      <$> decoded rpc meta storageKey changes
        | None => []
        end)
  /\ dispatch_errors out = Errorf "events decoder" <$> undecoded rpc meta storageKey changes
  /\ length out
     = size (eventsListeners c) * length (decoded rpc meta storageKey changes)
       + length (undecoded rpc meta storageKey changes).
Proof.
  intros Hh out. subst out. unfold processSystemEventsStorageChanges. rewrite Hh.
  split; [|split].
  - intros idx. induction changes as [|change rest IH].
    + now destruct (eventsListeners c !! idx).
    + rewrite decoded_cons. cbn [dispatch_changes].
      destruct (skipped storageKey change); [exact IH|].
      destruct (DecodeEventRecords rpc meta (StorageData change)) as [events|err].
      * rewrite started_for_app, started_for_fan_out, IH.
        now destruct (eventsListeners c !! idx).
      * exact IH.
  - induction changes as [|change rest IH]; [reflexivity|].
    rewrite undecoded_cons. cbn [dispatch_changes].
    destruct (skipped storageKey change); [exact IH|].
    destruct (DecodeEventRecords rpc meta (StorageData change)) as [events|err].
    + now rewrite dispatch_errors_app, dispatch_errors_fan_out, IH.
    + rewrite fmap_cons, <- IH. reflexivity.
  - induction changes as [|change rest IH]; [cbn; lia|].
    rewrite decoded_cons, undecoded_cons. cbn [dispatch_changes].
    destruct (skipped storageKey change); [exact IH|].
    destruct (DecodeEventRecords rpc meta (StorageData change)) as [events|err].
    + rewrite length_app, fan_out_length, IH. cbn [length]. lia.
    + cbn [length]. rewrite IH. lia.
Qed.

Lemma live_notification_reaches_each_listener_once_witness :
  started_for 1 (processSystemEventsStorageChanges healthy_node two_listeners
                   [mkKeyValueOption "System.Events" true "events";
                    mkKeyValueOption "System.Number" true "7";
                    mkKeyValueOption "System.Events" true "events"]
                   1%N "System.Events" 7%N)
  = [notification 7; notification 7].
Proof.
  exact (proj1 (live_notification_reaches_each_listener_once healthy_node two_listeners
                  [mkKeyValueOption "System.Events" true "events";
                   mkKeyValueOption "System.Number" true "7";
                   mkKeyValueOption "System.Events" true "events"]
                  1%N "System.Events" 7%N (mkHeader 7) eq_refl) 1%Z).
Defined.

(** * The bucket types *)

Lemma range_finds_elem (ids : list bucket.AccountId) (address : bucket.types_Address) :
  bucket.range_finds ids address = true <-> bucket.AsAccountID address ∈ ids.
Proof.
  induction ids as [|id ids IH]; cbn [bucket.range_finds].
  - split; [discriminate|]. intros H. inversion H.
  - destruct (bool_decide (id = bucket.AsAccountID address)) eqn:E.
    + apply bool_decide_eq_true in E. subst. split; [intros _; left|reflexivity].
    + apply bool_decide_eq_false in E. rewrite IH. split.
      * intros H. now right.
      * intros H. apply elem_of_cons in H as [H | H]; [congruence|exact H].
Qed.

(** X9. The three access checks are nested: the owner has write access,
    and whoever has write access has read access.  Read access is granted
    exactly to the keys that the library turns into an address whose
    account is the owner, a writer or a reader; a key that the library
    rejects has no access at all, and the [PublicAvailability] flag of the
    bucket is not consulted: a public bucket is readable by no one else. *)
Theorem access_levels_are_nested (NewAddressFromAccountID : list Z -> result bucket.types_Address)
    (b : bucket.BucketStatus) (publicKey : list Z) :
  (bucket.IsOwner NewAddressFromAccountID b publicKey = true ->
   bucket.HasWriteAccess NewAddressFromAccountID b publicKey = true)
  /\ (bucket.HasWriteAccess NewAddressFromAccountID b publicKey = true ->
      bucket.HasReadAccess NewAddressFromAccountID b publicKey = true)
  /\ (bucket.HasWriteAccess NewAddressFromAccountID b publicKey = true <->
      exists address, NewAddressFromAccountID publicKey = inl address
        /\ (bucket.OwnerId (bucket.bs_Bucket b) = bucket.AsAccountID address
            \/ bucket.AsAccountID address ∈ bucket.WriterIds b))
  /\ (bucket.HasReadAccess NewAddressFromAccountID b publicKey = true <->
      exists address, NewAddressFromAccountID publicKey = inl address
        /\ (bucket.OwnerId (bucket.bs_Bucket b) = bucket.AsAccountID address
            \/ bucket.AsAccountID address ∈ bucket.WriterIds b
            \/ bucket.AsAccountID address ∈ bucket.ReaderIds b))
  /\ (forall err, NewAddressFromAccountID publicKey = inr err ->
      bucket.IsOwner NewAddressFromAccountID b publicKey = false
      /\ bucket.HasWriteAccess NewAddressFromAccountID b publicKey = false
      /\ bucket.HasReadAccess NewAddressFromAccountID b publicKey = false)
  /\ (forall public,
      bucket.HasReadAccess NewAddressFromAccountID
        (bucket.mkBucketStatus (bucket.BucketId b)
           (bucket.mkBucket (bucket.OwnerId (bucket.bs_Bucket b))
              (bucket.ClusterId (bucket.bs_Bucket b))
              (bucket.ResourceReserved (bucket.bs_Bucket b)) public
              (bucket.GasConsumptionCap (bucket.bs_Bucket b)))
           (bucket.Params b) (bucket.WriterIds b) (bucket.ReaderIds b)
           (bucket.RentCoveredUntilMs b)) publicKey
      = bucket.HasReadAccess NewAddressFromAccountID b publicKey).
Proof.
  unfold bucket.IsOwner, bucket.HasWriteAccess, bucket.HasReadAccess,
    bucket.isWriter, bucket.isReader, bucket.isOwner.
  destruct (NewAddressFromAccountID publicKey) as [address|err0].
  - split; [intros ->; reflexivity|].
    split; [intros ->; reflexivity|].
    split; [|split; [|split; [intros err; discriminate|reflexivity]]].
    + rewrite orb_true_iff, bool_decide_eq_true, range_finds_elem. split.
      * intros H. exists address. auto.
      * intros (a & [= <-] & H). exact H.
    + rewrite !orb_true_iff, bool_decide_eq_true, !range_finds_elem. split.
      * intros H. exists address. split; [reflexivity|tauto].
      * intros (a & [= <-] & H). tauto.
  - split; [discriminate|]. split; [discriminate|].
    split; [|split; [|split; [auto|reflexivity]]].
    + split; [discriminate|]. intros (a & [=] & _).
    + split; [discriminate|]. intros (a & [=] & _).
Qed.

(** X10. [RentExpired] compares with [<]: at the very millisecond up to
    which the rent is covered the bucket is not yet expired, one
    millisecond later it is, and once expired it stays expired as the
    clock advances.  The clock value is converted with [uint64]: a clock
    that reads a time before 1970 wraps to a value above [2^63], so every
    bucket covered until a time below [2^63] counts as expired. *)
Theorem rent_expiry_boundaries (b : bucket.BucketStatus) :
  (forall now, (0 <= now < 2 ^ 63)%Z ->
     (bucket.RentExpired now b = true <-> (bucket.RentCoveredUntilMs b < now)%Z))
  /\ ((0 <= bucket.RentCoveredUntilMs b < 2 ^ 63 - 1)%Z ->
      bucket.RentExpired (bucket.RentCoveredUntilMs b) b = false
      /\ bucket.RentExpired (bucket.RentCoveredUntilMs b + 1) b = true)
  /\ (forall now later, (0 <= now <= later)%Z -> (later < 2 ^ 63)%Z ->
      bucket.RentExpired now b = true -> bucket.RentExpired later b = true)
  /\ (forall now, (- 2 ^ 63 <= now < 0)%Z -> (bucket.RentCoveredUntilMs b < 2 ^ 63)%Z ->
      bucket.RentExpired now b = true).
Proof.
  assert (Hsmall : forall now, (0 <= now < 2 ^ 63)%Z -> bucket.uint64 now = now).
  { intros now H. unfold bucket.uint64. apply Z.mod_small. lia. }
  unfold bucket.RentExpired. split; [|split; [|split]].
  - intros now H. rewrite (Hsmall now H). apply Z.ltb_lt.
  - intros H. rewrite !Hsmall by lia. split; [apply Z.ltb_irrefl|apply Z.ltb_lt; lia].
  - intros now later H1 H2. rewrite !Hsmall by lia. rewrite !Z.ltb_lt. lia.
  - intros now H1 H2. apply Z.ltb_lt. unfold bucket.uint64.
    replace (now mod 2 ^ 64)%Z with (now + 2 ^ 64)%Z; [lia|].
    apply Z.mod_unique with (q := (-1)%Z); lia.
Qed.

Lemma rent_expiry_boundaries_witness :
  let b := bucket.mkBucketStatus 1 (bucket.mkBucket [1%Z] 0 0 true 0) "" [] [] 1000 in
  bucket.RentExpired 1000 b = false /\ bucket.RentExpired 1001 b = true
  /\ bucket.RentExpired (-1) b = true.
Proof.
  intros b.
  destruct (rent_expiry_boundaries b) as (_ & H2 & _ & H4).
  destruct H2 as [Ha Hb]; [cbn; lia|].
  split; [exact Ha|]. split; [exact Hb|].
  apply H4; cbn; lia.
Defined.

Lemma access_levels_are_nested_witness :
  let b := bucket.mkBucketStatus 1 (bucket.mkBucket (replicate 32 1%Z) 0 0 true 0) ""
             [replicate 32 2%Z] [replicate 32 3%Z] 1000 in
  bucket.HasWriteAccess bucket.address_of_32_bytes b (replicate 32 1%Z) = true
  /\ bucket.HasReadAccess bucket.address_of_32_bytes b (replicate 32 4%Z) = false.
Proof.
  intros b. split.
  - exact (proj1 (access_levels_are_nested bucket.address_of_32_bytes b (replicate 32 1%Z))
             eq_refl).
  - reflexivity.
Defined.

(** * The [DdcClusters] pallet *)

Section ClustersNodes.

Import ddcclusters.

Context {ClusterId NodePubKey : Type}.
Variable env : Env ClusterId NodePubKey.

Lemma slice_range_long (p : nat) (key : slice) :
  p + 49 <= len key ->
  slice_range key (p + 16) (p + 16 + 1 + 32) = Some (window p key).
Proof.
  intros Hlen. unfold slice_range, window, cap, len in *.
  destruct (decide _) as [_|H]; [|lia].
  f_equal. replace (p + 16 + 1 + 32 - (p + 16)) with 33 by lia.
  rewrite drop_app_le by lia. rewrite take_app_le; [reflexivity|].
  rewrite length_drop. lia.
Qed.

Lemma slice_range_short (p : nat) (key : slice) :
  cap key < p + 49 -> slice_range key (p + 16) (p + 16 + 1 + 32) = None.
Proof.
  intros Hcap. unfold slice_range. destruct (decide _) as [H|_]; [lia|reflexivity].
Qed.

Lemma decode_keys_ok (p : nat) (keys : list slice) (nodes : list NodePubKey) :
  Forall (fun key => p + 49 <= len key) keys ->
  (decode_keys env p keys = Ok nodes
   <-> Forall2 (fun key node => codec_Decode env (window p key) = inl node) keys nodes).
Proof.
  intros Hlen. revert nodes. induction Hlen as [|key keys Hk Hks IH]; intros nodes.
  - cbn. split.
    + intros [= <-]. constructor.
    + intros H. inversion H. reflexivity.
  - cbn [decode_keys]. rewrite (slice_range_long p key Hk).
    destruct (codec_Decode env (window p key)) as [node|err] eqn:Hd.
    + destruct (decode_keys env p keys) as [nodes'| |] eqn:Hrest.
      * split.
        -- intros [= <-]. constructor; [exact Hd|]. now apply IH.
        -- intros H. inversion H as [|? n ? ns Hn Hns]; subst.
           apply IH in Hns. rewrite Hd in Hn. congruence.
      * split; [discriminate|]. intros H. inversion H as [|? n ? ns Hn Hns]; subst.
        apply IH in Hns. discriminate.
      * split; [discriminate|]. intros H. inversion H as [|? n ? ns Hn Hns]; subst.
        apply IH in Hns. discriminate.
    + split; [discriminate|]. intros H. inversion H as [|? n ? ns Hn Hns]; subst.
      rewrite Hd in Hn. discriminate.
Qed.

Lemma decode_keys_app_ok (p : nat) (good rest : list slice) (nodes : list NodePubKey) :
  decode_keys env p good = Ok nodes ->
  decode_keys env p (good ++ rest)
  = match decode_keys env p rest with
    | Ok more => Ok (nodes ++ more)
    | Err err => Err err
    | Panic => Panic
    end.
Proof.
  revert nodes. induction good as [|key good IH]; intros nodes.
  - cbn. intros [= <-]. now destruct (decode_keys env p rest).
  - cbn [decode_keys app].
    destruct (slice_range key _ _) as [w|]; [|discriminate].
    destruct (codec_Decode env w) as [node|err]; [|discriminate].
    destruct (decode_keys env p good) as [nodes'| |] eqn:Hg; try discriminate.
    intros [= <-]. rewrite (IH nodes' eq_refl).
    now destruct (decode_keys env p rest).
Qed.

(** X11. When the encoding, the hasher and the RPC call succeed and every
    key returned by the node is long enough, [GetClustersNodes] returns a
    list exactly when every key decodes, and the list then holds, in the
    order of the keys and one per key, what the decoder makes of the 33
    bytes that come 16 bytes after the end of the query prefix.  Nothing
    else of a key is read: neither its first bytes, which are not compared
    with the prefix, nor the 16 bytes of the hash, nor what follows the
    window.  For no key at all the result is the empty list. *)
Theorem GetClustersNodes_decodes_the_key_windows (api : ddcClustersApi)
    (clusterId : ClusterId) (clusterIdBytes : list Z) (keys : list slice) :
  codec_Encode env clusterId = inl clusterIdBytes ->
  hash_NewBlake2b128Concat env = None ->
  hasher_Write env clusterIdBytes = None ->
  State_GetKeysLatest env (clustersNodesKey api ++ hasher_Sum env clusterIdBytes)
  = inl keys ->
  let p := length (clustersNodesKey api ++ hasher_Sum env clusterIdBytes) in
  Forall (fun key => p + 49 <= len key) keys ->
  (forall nodes,
      GetClustersNodes env api clusterId = Ok nodes
      <-> Forall2 (fun key node => codec_Decode env (window p key) = inl node) keys nodes)
  /\ (forall nodes, GetClustersNodes env api clusterId = Ok nodes ->
      length nodes = length keys)
  /\ (keys = [] -> GetClustersNodes env api clusterId = Ok [])
  /\ (forall keys',
      window p <$> keys' = window p <$> keys ->
      Forall (fun key => p + 49 <= len key) keys' ->
      decode_keys env p keys' = GetClustersNodes env api clusterId).
Proof.
  intros Henc Hnew Hwrite Hkeys p Hlen.
  assert (Hrun : GetClustersNodes env api clusterId = decode_keys env p keys).
  { unfold GetClustersNodes. now rewrite Henc, Hnew, Hwrite, Hkeys. }
  rewrite Hrun. split; [|split; [|split]].
  - intros nodes. now apply decode_keys_ok.
  - intros nodes H. apply decode_keys_ok in H; [|exact Hlen].
    symmetry. eapply Forall2_length, H.
  - intros ->. reflexivity.
  - intros keys' Hw Hlen'. clear Hrun Hkeys.
    revert keys' Hw Hlen'. induction Hlen as [|key keys Hk Hks IH]; intros keys' Hw Hlen'.
    + destruct keys'; [reflexivity|discriminate].
    + destruct keys' as [|key' keys']; [discriminate|].
      rewrite !fmap_cons in Hw. injection Hw as Hw1 Hw2.
      apply Forall_cons in Hlen' as [Hk' Hks'].
      cbn [decode_keys]. rewrite (slice_range_long p key Hk), (slice_range_long p key' Hk').
      rewrite Hw1, (IH keys' Hw2 Hks'). reflexivity.
Qed.

(** X12. The loop of [GetClustersNodes] stops at the first key that goes
    wrong, and the nodes decoded before it are dropped: after keys that
    decode, a key whose window does not decode makes the call return the
    decoder's error, and a key whose capacity is below the end of the
    window makes the slice expression panic, whatever keys follow. *)
Theorem GetClustersNodes_stops_at_the_first_bad_key (api : ddcClustersApi)
    (clusterId : ClusterId) (clusterIdBytes : list Z)
    (good : list slice) (bad : slice) (rest : list slice) (nodes : list NodePubKey) :
  codec_Encode env clusterId = inl clusterIdBytes ->
  hash_NewBlake2b128Concat env = None ->
  hasher_Write env clusterIdBytes = None ->
  State_GetKeysLatest env (clustersNodesKey api ++ hasher_Sum env clusterIdBytes)
  = inl (good ++ bad :: rest) ->
  let p := length (clustersNodesKey api ++ hasher_Sum env clusterIdBytes) in
  decode_keys env p good = Ok nodes ->
  (forall err, p + 49 <= len bad -> codec_Decode env (window p bad) = inr err ->
     GetClustersNodes env api clusterId = Err err)
  /\ (cap bad < p + 49 -> GetClustersNodes env api clusterId = Panic).
Proof.
  intros Henc Hnew Hwrite Hkeys p Hgood.
  assert (Hrun : GetClustersNodes env api clusterId
                 = decode_keys env p (good ++ bad :: rest)).
  { unfold GetClustersNodes. now rewrite Henc, Hnew, Hwrite, Hkeys. }
  rewrite Hrun, (decode_keys_app_ok p good (bad :: rest) nodes Hgood).
  cbn [decode_keys]. split.
  - intros err Hlen Hd. now rewrite (slice_range_long p bad Hlen), Hd.
  - intros Hcap. now rewrite (slice_range_short p bad Hcap).
Qed.

End ClustersNodes.

Lemma GetClustersNodes_decodes_the_key_windows_witness :
  ddcclusters.GetClustersNodes
    (ddcclusters.example_env [ddcclusters.example_key 0 1; ddcclusters.example_key 0 2])
    (ddcclusters.mkApi (replicate 32 7%Z)) 5%Z
  = ddcclusters.Ok [replicate 32 1%Z; replicate 32 2%Z].
Proof.
  apply (proj1 (GetClustersNodes_decodes_the_key_windows
                  (ddcclusters.example_env
                     [ddcclusters.example_key 0 1; ddcclusters.example_key 0 2])
                  (ddcclusters.mkApi (replicate 32 7%Z)) 5%Z [5%Z]
                  [ddcclusters.example_key 0 1; ddcclusters.example_key 0 2]
                  eq_refl eq_refl eq_refl eq_refl
                  ltac:(repeat constructor; vm_compute; lia))).
  repeat constructor.
Defined.

Lemma GetClustersNodes_stops_at_the_first_bad_key_witness :
  ddcclusters.GetClustersNodes
    (ddcclusters.example_env
       [ddcclusters.example_key 0 1; ddcclusters.example_key 4 2;
        ddcclusters.example_key 0 3])
    (ddcclusters.mkApi (replicate 32 7%Z)) 5%Z
  = ddcclusters.Err "unknown variant".
Proof.
  apply (proj1 (GetClustersNodes_stops_at_the_first_bad_key
                  (ddcclusters.example_env
                     [ddcclusters.example_key 0 1; ddcclusters.example_key 4 2;
                      ddcclusters.example_key 0 3])
                  (ddcclusters.mkApi (replicate 32 7%Z)) 5%Z [5%Z]
                  [ddcclusters.example_key 0 1] (ddcclusters.example_key 4 2)
                  [ddcclusters.example_key 0 3] [replicate 32 1%Z]
                  eq_refl eq_refl eq_refl eq_refl eq_refl)).
  - vm_compute. lia.
  - reflexivity.
Defined.

(** * The [DdcCustomers] pallet *)

(** X13. The getters of [DdcCustomers] never return a value together with
    an error.  [GetBuckets] and [GetLedger] return a value only when the
    storage call reported [ok] without error, and then the value is what
    that call wrote; an entry that is absent from storage is reported as
    the empty option with a nil error, not as an error, and an entry that
    is present but fails to decode ([ok] with an error) as the empty
    option with that error; a failure to encode the argument or to create
    the storage key is returned with the empty option.  [GetBucketsCount]
    returns 0 in every case but the successful one, so an absent counter
    reads as a stored 0. *)
Theorem customers_getters_value_or_error (env : ddccustomers.Env)
    (api : ddccustomers.DdcCustomersApi) :
  (forall bucketId b err,
      ddccustomers.GetBuckets env api bucketId = (Some b, err) ->
      err = None
      /\ exists bytes key,
           ddccustomers.codec_Encode_BucketId env bucketId = inl bytes
           /\ ddccustomers.types_CreateStorageKey env (ddccustomers.meta api)
                "DdcCustomers" "Buckets" [bytes] = inl key
           /\ ddccustomers.GetStorageLatest_Bucket env key ddccustomers.Bucket_zero
              = (true, None, b))
  /\ (forall owner l err,
      ddccustomers.GetLedger env api owner = (Some l, err) ->
      err = None
      /\ exists bytes key,
           ddccustomers.codec_Encode_AccountID env owner = inl bytes
           /\ ddccustomers.types_CreateStorageKey env (ddccustomers.meta api)
                "DdcCustomers" "Ledger" [bytes] = inl key
           /\ ddccustomers.GetStorageLatest_AccountsLedger env key
                ddccustomers.AccountsLedger_zero = (true, None, l))
  /\ (forall bucketId bytes key ok err b,
      ddccustomers.codec_Encode_BucketId env bucketId = inl bytes ->
      ddccustomers.types_CreateStorageKey env (ddccustomers.meta api)
        "DdcCustomers" "Buckets" [bytes] = inl key ->
      ddccustomers.GetStorageLatest_Bucket env key ddccustomers.Bucket_zero
      = (ok, err, b) ->
      ddccustomers.GetBuckets env api bucketId
      = if ok then match err with None => (Some b, None) | Some _ => (None, err) end
        else (None, err))
  /\ (forall n err,
      ddccustomers.GetBucketsCount env api = (n, err) ->
      (n <> 0%Z -> err = None
         /\ exists key,
              ddccustomers.types_CreateStorageKey env (ddccustomers.meta api)
                "DdcCustomers" "BucketsCount" [] = inl key
              /\ ddccustomers.GetStorageLatest_U64 env key 0%Z = (true, None, n)))
  /\ (forall key stored,
      ddccustomers.types_CreateStorageKey env (ddccustomers.meta api)
        "DdcCustomers" "BucketsCount" [] = inl key ->
      ddccustomers.GetStorageLatest_U64 env key 0%Z = (false, None, stored) ->
      ddccustomers.GetBucketsCount env api = (0%Z, None))
  /\ (forall owner bytes key ok err l,
      ddccustomers.codec_Encode_AccountID env owner = inl bytes ->
      ddccustomers.types_CreateStorageKey env (ddccustomers.meta api)
        "DdcCustomers" "Ledger" [bytes] = inl key ->
      ddccustomers.GetStorageLatest_AccountsLedger env key ddccustomers.AccountsLedger_zero
      = (ok, err, l) ->
      ddccustomers.GetLedger env api owner
      = if ok then match err with None => (Some l, None) | Some _ => (None, err) end
        else (None, err))
  /\ (forall key ok err n,
      ddccustomers.types_CreateStorageKey env (ddccustomers.meta api)
        "DdcCustomers" "BucketsCount" [] = inl key ->
      ddccustomers.GetStorageLatest_U64 env key 0%Z = (ok, err, n) ->
      ddccustomers.GetBucketsCount env api
      = match err with
        | Some _ => (0%Z, err)
        | None => if ok then (n, None) else (0%Z, None)
        end)
  /\ (forall bucketId err,
      ddccustomers.codec_Encode_BucketId env bucketId = inr err ->
      ddccustomers.GetBuckets env api bucketId = (None, Some err))
  /\ (forall bucketId bytes err,
      ddccustomers.codec_Encode_BucketId env bucketId = inl bytes ->
      ddccustomers.types_CreateStorageKey env (ddccustomers.meta api)
        "DdcCustomers" "Buckets" [bytes] = inr err ->
      ddccustomers.GetBuckets env api bucketId = (None, Some err))
  /\ (forall owner err,
      ddccustomers.codec_Encode_AccountID env owner = inr err ->
      ddccustomers.GetLedger env api owner = (None, Some err))
  /\ (forall owner bytes err,
      ddccustomers.codec_Encode_AccountID env owner = inl bytes ->
      ddccustomers.types_CreateStorageKey env (ddccustomers.meta api)
        "DdcCustomers" "Ledger" [bytes] = inr err ->
      ddccustomers.GetLedger env api owner = (None, Some err))
  /\ (forall err,
      ddccustomers.types_CreateStorageKey env (ddccustomers.meta api)
        "DdcCustomers" "BucketsCount" [] = inr err ->
      ddccustomers.GetBucketsCount env api = (0%Z, Some err)).
Proof.
  split; [|split; [|split; [|split; [|split; [|split; [|split; [|split;
    [|split; [|split; [|split]]]]]]]]]].
  - intros bucketId b err. unfold ddccustomers.GetBuckets.
    destruct (ddccustomers.codec_Encode_BucketId env bucketId) as [bytes|e]; [|discriminate].
    destruct (ddccustomers.types_CreateStorageKey env _ _ _ _) as [key|e] eqn:Hk;
      [|discriminate].
    destruct (ddccustomers.GetStorageLatest_Bucket env key _) as [[ok e] b'] eqn:Hs.
    destruct ok, e; cbn; try discriminate. intros [= <- <-].
    split; [reflexivity|]. exists bytes, key. auto.
  - intros owner l err. unfold ddccustomers.GetLedger.
    destruct (ddccustomers.codec_Encode_AccountID env owner) as [bytes|e]; [|discriminate].
    destruct (ddccustomers.types_CreateStorageKey env _ _ _ _) as [key|e] eqn:Hk;
      [|discriminate].
    destruct (ddccustomers.GetStorageLatest_AccountsLedger env key _) as [[ok e] l'] eqn:Hs.
    destruct ok, e; cbn; try discriminate. intros [= <- <-].
    split; [reflexivity|]. exists bytes, key. auto.
  - intros bucketId bytes key ok err b He Hk Hs. unfold ddccustomers.GetBuckets.
    rewrite He, Hk, Hs. now destruct ok, err.
  - intros n err. unfold ddccustomers.GetBucketsCount.
    destruct (ddccustomers.types_CreateStorageKey env _ _ _ _) as [key|e] eqn:Hk.
    + destruct (ddccustomers.GetStorageLatest_U64 env key 0%Z) as [[ok e] m] eqn:Hs.
      destruct e, ok; cbn; intros [= <- <-] Hn; try congruence.
      split; [reflexivity|]. exists key. auto.
    + intros [= <- <-] Hn. congruence.
  - intros key stored Hk Hs. unfold ddccustomers.GetBucketsCount. now rewrite Hk, Hs.
  - intros owner bytes key ok err l He Hk Hs. unfold ddccustomers.GetLedger.
    rewrite He, Hk, Hs. now destruct ok, err.
  - intros key ok err n Hk Hs. unfold ddccustomers.GetBucketsCount.
    rewrite Hk, Hs. now destruct err, ok.
  - intros bucketId err He. unfold ddccustomers.GetBuckets. now rewrite He.
  - intros bucketId bytes err He Hk. unfold ddccustomers.GetBuckets. now rewrite He, Hk.
  - intros owner err He. unfold ddccustomers.GetLedger. now rewrite He.
  - intros owner bytes err He Hk. unfold ddccustomers.GetLedger. now rewrite He, Hk.
  - intros err Hk. unfold ddccustomers.GetBucketsCount. now rewrite Hk.
Qed.

(** * The DDC bucket contract client *)

Section ContractClient.

Import contract.

Variable hex_DecodeString : string -> result (list Z).
Variable types_NewHashFromHexString : string -> result types_Hash.

Ltac next_method :=
  match goal with
  | |- context [hex_DecodeString ?s] =>
      destruct (hex_DecodeString s) as [?id|?err]; cbv beta iota
  end.

(** X14. [hex.DecodeString] rejects a string of odd length, and
    [accountDepositMethod] is the one-character string ["1"]: with any
    such decoder [CreateDdcBucketContract] never returns a contract, for
    every client and address it ends in [log.Fatal].  When the decoder
    takes the 32 method constants that come first, the fatal entry is the
    one of [accountDepositMethod], with the decoder's error. *)
Theorem CreateDdcBucketContract_is_fatal (client : BlockchainClient)
    (address : string) :
  (forall s, Nat.odd (String.length s) = true -> exists err, hex_DecodeString s = inr err) ->
  (forall d, CreateDdcBucketContract hex_DecodeString types_NewHashFromHexString
               client address <> inl d)
  /\ (Forall (fun m => exists id, hex_DecodeString m = inl id)
        decoded_before_accountDeposit ->
      exists err, hex_DecodeString accountDepositMethod = inr err
        /\ CreateDdcBucketContract hex_DecodeString types_NewHashFromHexString
             client address
           = inr (mkFatal ("method", accountDepositMethod)
                    "Can't decode method accountDepositMethodId" err)).
Proof.
  intros Hodd. destruct (Hodd accountDepositMethod eq_refl) as [err Herr].
  split.
  - intros d. unfold CreateDdcBucketContract, decode_method. rewrite Herr.
    repeat (next_method; [|discriminate]). discriminate.
  - intros Hbefore. exists err. split; [exact Herr|].
    unfold CreateDdcBucketContract, decode_method. rewrite Herr.
    unfold decoded_before_accountDeposit in Hbefore.
    repeat match goal with
           | H : Forall _ (_ :: _) |- _ => apply Forall_cons in H as [[? ?Hid] H]
           end.
    repeat match goal with
           | H : hex_DecodeString _ = inl _ |- _ => rewrite H; clear H
           end.
    reflexivity.
Qed.

(** X16. A handler is set at most once per event hash.  After a
    successful [AddContractEventHandler] for [event] with a handler, the
    entry of the event's hash holds that handler and its argument type as
    before, nothing else of the contract has changed, and every further
    call for an event with the same hash fails with "Contract event
    handler already set for ..." and changes nothing. *)
Theorem AddContractEventHandler_sets_once (d d' : ddcBucketContract) (event : string)
    (handler : nat) :
  AddContractEventHandler types_NewHashFromHexString d event (Some handler) = (d', None) ->
  exists key entry,
    types_NewHashFromHexString event = inl key
    /\ eventDispatcher d !! key = Some entry
    /\ Handler entry = None
    /\ d' = set_eventDispatcher
              (<[key := mkEntry (ArgumentType entry) (Some handler)]> (eventDispatcher d)) d
    /\ eventDispatcher d' !! key = Some (mkEntry (ArgumentType entry) (Some handler))
    /\ (forall key', key' <> key -> eventDispatcher d' !! key' = eventDispatcher d !! key')
    /\ (forall event' handler',
        types_NewHashFromHexString event' = inl key ->
        AddContractEventHandler types_NewHashFromHexString d' event' handler'
        = (d', Some ("Contract event handler already set for " ++ event')%string)).
Proof.
  unfold AddContractEventHandler.
  destruct (types_NewHashFromHexString event) as [key|err] eqn:Hk; [|discriminate].
  destruct (eventDispatcher d !! key) as [entry|] eqn:He; [|discriminate].
  destruct (Handler entry) as [h|] eqn:Hh; [discriminate|].
  intros [= <-]. exists key, entry.
  split; [reflexivity|]. split; [exact He|]. split; [exact Hh|].
  split; [reflexivity|].
  assert (Hd : eventDispatcher
                 (set_eventDispatcher
                    (<[key := mkEntry (ArgumentType entry) (Some handler)]>
                       (eventDispatcher d)) d)
               = <[key := mkEntry (ArgumentType entry) (Some handler)]> (eventDispatcher d))
    by reflexivity.
  rewrite Hd. split; [apply lookup_insert_eq|].
  split; [intros key' Hne; now apply lookup_insert_ne|].
  intros event' handler' Hk'. rewrite Hk', lookup_insert_eq. reflexivity.
Qed.

Section Calls.

Variable decodeDdcBucketContract :
  forall T : Type, string -> T -> option error * option error * T.
Variable BucketInfo : Type.
Variable BucketInfo_zero : BucketInfo.

Lemma callToRead_contract {T : Type} (d : ddcBucketContract) (now : time_Time)
    (result : T) (method : list Z) (args : list value) :
  (callToRead decodeDdcBucketContract d now result method args).1.1
  = match CallToReadEncoded (contract d) (contractAddressSS58 d) (contractAddressSS58 d)
            method args with
    | inl _ => set_lastAccessTime now d
    | inr _ => d
    end.
Proof.
  unfold callToRead.
  destruct (CallToReadEncoded _ _ _ _ _) as [data|err]; [|reflexivity].
  destruct (decodeDdcBucketContract T data result) as [[e re] r]. now destruct e.
Qed.

Lemma serve_spec (d : ddcBucketContract) (now : time_Time) (r : request) :
  serve decodeDdcBucketContract BucketInfo BucketInfo_zero d now r
  = if answered d r then set_lastAccessTime now d else d.
Proof.
  unfold answered.
  destruct r; cbn [serve sent fst snd];
    unfold BucketGet, AccountGet, NodeCreate, HasPermission, AccountGetUsdPerCere,
      GetAccounts, BucketCreate;
    match goal with
    | |- context [callToRead _ ?d ?now ?res ?m ?a] =>
        pose proof (callToRead_contract d now res m a) as H;
        destruct (callToRead decodeDdcBucketContract d now res m a) as [[d1 e] x]
    end;
    cbn [fst snd] in H; subst d1;
    try (destruct e);
    cbn [fst snd];
    now destruct (CallToReadEncoded _ _ _ _ _).
Qed.

Lemma answered_set_lastAccessTime (t : time_Time) (d : ddcBucketContract) (r : request) :
  answered (set_lastAccessTime t d) r = answered d r.
Proof. now destruct r. Qed.

Lemma set_lastAccessTime_twice (t t' : time_Time) (d : ddcBucketContract) :
  set_lastAccessTime t' (set_lastAccessTime t d) = set_lastAccessTime t' d.
Proof. reflexivity. Qed.

Lemma last_answered_set (t0 t : time_Time) (d : ddcBucketContract)
    (rs : list (time_Time * request)) :
  last_answered (set_lastAccessTime t0 d) rs t = last_answered d rs t.
Proof.
  revert t. induction rs as [|[now r] rs IH]; intros t; [reflexivity|].
  cbn [last_answered fold_left fst snd]. rewrite answered_set_lastAccessTime.
  apply IH.
Qed.

Lemma serve_all_set (rs : list (time_Time * request)) (d : ddcBucketContract)
    (t : time_Time) :
  serve_all decodeDdcBucketContract BucketInfo BucketInfo_zero (set_lastAccessTime t d) rs
  = set_lastAccessTime (last_answered d rs t) d.
Proof.
  revert t. induction rs as [|[now r] rs IH]; intros t; [reflexivity|].
  cbn [serve_all last_answered fold_left fst snd].
  rewrite serve_spec, answered_set_lastAccessTime.
  destruct (answered d r).
  - rewrite set_lastAccessTime_twice. apply IH.
  - apply IH.
Qed.

(** X17. [GetLastAccessTime] after any sequence of calls is the clock
    reading of the last call that the blockchain client answered without
    error, whether or not the answer could be decoded or carried a
    contract error, and the access time from before when there is no such
    call; the calls change nothing else of the contract. *)
Theorem last_access_time_is_last_answered_call (d : ddcBucketContract)
    (rs : list (time_Time * request)) :
  let d' := serve_all decodeDdcBucketContract BucketInfo BucketInfo_zero d rs in
  GetLastAccessTime d' = last_answered d rs (GetLastAccessTime d)
  /\ d' = set_lastAccessTime (GetLastAccessTime d') d
  /\ (forall now r, answered d r = true ->
      GetLastAccessTime
        (serve_all decodeDdcBucketContract BucketInfo BucketInfo_zero d (rs ++ [(now, r)]))
      = now)
  /\ (forall now r, answered d r = false ->
      serve_all decodeDdcBucketContract BucketInfo BucketInfo_zero d (rs ++ [(now, r)])
      = d').
Proof.
  assert (Hd : d = set_lastAccessTime (lastAccessTime d) d) by now destruct d.
  assert (Hall : forall rs',
             serve_all decodeDdcBucketContract BucketInfo BucketInfo_zero d rs'
             = set_lastAccessTime (last_answered d rs' (lastAccessTime d)) d).
  { intros rs'. rewrite Hd at 1. apply serve_all_set. }
  cbv zeta. unfold GetLastAccessTime. rewrite !Hall.
  split; [reflexivity|]. split; [reflexivity|]. split.
  - intros now r Ha. rewrite Hall. unfold last_answered. rewrite fold_left_app.
    cbn. now rewrite Ha.
  - intros now r Ha. rewrite Hall. unfold last_answered. rewrite fold_left_app.
    cbn. now rewrite Ha.
Qed.


End Calls.

End ContractClient.

Lemma hex_pairs_odd (s : string) :
  Nat.odd (String.length s) = true -> exists err, contract.hex_pairs s = inr err.
Proof.
  remember (String.length s) as n eqn:Hn. revert s Hn.
  induction n as [n IH] using lt_wf_ind. intros s Hn Hodd.
  destruct s as [|a [|b rest]].
  - subst n. discriminate.
  - cbn. eauto.
  - cbn [contract.hex_pairs].
    destruct (contract.hex_digit a); [|eauto]. destruct (contract.hex_digit b); [|eauto].
    destruct (IH (String.length rest)) with (s := rest) as [err Herr].
    + subst n. cbn. lia.
    + reflexivity.
    + subst n. cbn [String.length] in Hodd. now rewrite Nat.odd_succ_succ in Hodd.
    + rewrite Herr. eauto.
Qed.

Lemma CreateDdcBucketContract_is_fatal_witness :
  contract.CreateDdcBucketContract contract.hex_pairs contract.hash_of_64_digits
    contract.example_client "5DoxVBEMVT5nMqQebF6GgjJsk5BPNBtFjMUXwhnAbArVw578"
  = inr (contract.mkFatal ("method", "1") "Can't decode method accountDepositMethodId"
           "encoding/hex: odd length hex string").
Proof.
  assert (Hbefore : Forall (fun m => exists id, contract.hex_pairs m = inl id)
                      contract.decoded_before_accountDeposit).
  { unfold contract.decoded_before_accountDeposit.
    repeat (constructor; [eexists; vm_compute; reflexivity|]).
    constructor. }
  destruct (proj2 (CreateDdcBucketContract_is_fatal contract.hex_pairs
                     contract.hash_of_64_digits contract.example_client
                     "5DoxVBEMVT5nMqQebF6GgjJsk5BPNBtFjMUXwhnAbArVw578" hex_pairs_odd)
              Hbefore)
    as (err & Herr & Hrun).
  rewrite Hrun. vm_compute in Herr. injection Herr as <-. reflexivity.
Defined.

Lemma AddContractEventHandler_sets_once_witness :
  let d' := (contract.AddContractEventHandler contract.hash_of_64_digits
               contract.example_contract contract.DepositEventId (Some 7)).1 in
  (contract.AddContractEventHandler contract.hash_of_64_digits d'
     contract.DepositEventId (Some 8)).2
  = Some ("Contract event handler already set for " ++ contract.DepositEventId)%string.
Proof.
  intros d'.
  destruct (AddContractEventHandler_sets_once contract.hash_of_64_digits
              contract.example_contract d' contract.DepositEventId 7 eq_refl)
    as (key & entry & Hk & _ & _ & _ & _ & _ & Hagain).
  now rewrite (Hagain contract.DepositEventId (Some 8) Hk).
Defined.

(** ** Listeners that never hear anything *)

Section Silent.

Variable rpc : RPC.

Lemma step_unstarted (l : Listener) (a : action) :
  l_registered l = false -> l_spawned l = [] -> subscriptionStarted l = false ->
  l_pc l = AwaitStarted -> cancelled l = true -> l_once l = true ->
  step rpc l a = l.
Proof.
  intros Hreg Hsp Hst Hpc Hc Ho. unfold step.
  destruct (l_panicked l); [reflexivity|]. destruct a as [c|k| |].
  - now rewrite Hreg.
  - now rewrite Hsp.
  - unfold backfill_step. now rewrite Hpc, Hst.
  - unfold cancel_listener. now rewrite Ho.
Qed.

(** X19. A listener cancelled before the first live notification is no
    longer in [eventsListeners], so no wrapper is ever started for it and
    [subscriptionStarted] is never closed: whatever happens afterwards,
    its goroutine stays blocked on the channel and never returns, nothing
    is fetched and the callback is never invoked. *)
Theorem cancel_before_start_blocks_the_goroutine (idx : Z) (begin : N)
    (sched : list action) :
  let l := exec rpc (Listener_new idx begin) (ACancel :: sched) in
  l_pc l = AwaitStarted
  /\ subscriptionStarted l = false
  /\ cancelled l = true
  /\ l_trace l = []
  /\ delivered l = []
  /\ l_spawned l = [].
Proof.
  intros l. subst l. rewrite exec_cons.
  change (step rpc (Listener_new idx begin) ACancel)
    with (mkListener idx begin 0 false pendingEvents_zero true true false AwaitStarted
            [] false []).
  assert (H : exec rpc (mkListener idx begin 0 false pendingEvents_zero true true false
                          AwaitStarted [] false []) sched
              = mkListener idx begin 0 false pendingEvents_zero true true false
                  AwaitStarted [] false []).
  { induction sched as [|a sched IH]; [reflexivity|].
    rewrite exec_cons, step_unstarted by reflexivity. exact IH. }
  rewrite H. auto 10.
Qed.

(** X20. When the metadata or the storage key cannot be obtained, the
    goroutine of a listener with history to replay sends the wrapped
    error and returns before the loop and before [pendingEvents.Do]: no
    height is fetched, the queue is never closed, and whatever happens
    afterwards every notification stays in the queue and the callback is
    never invoked. *)
Theorem failed_setup_silences_the_listener (idx : Z) (begin : N) (c0 : call)
    (sched : list action) (err : error) :
  (begin < call_number c0)%N ->
  (State_GetMetadataLatest rpc = inr err
   \/ exists meta, State_GetMetadataLatest rpc = inl meta
                   /\ CreateStorageKey rpc meta = inr err) ->
  let l := exec rpc (Listener_new idx begin) (arrivals [c0] ++ ATick :: sched) in
  l_pc l = Returned
  /\ (State_GetMetadataLatest rpc = inr err ->
      errors_sent l = [Errorf "get metadata" err])
  /\ (forall meta, State_GetMetadataLatest rpc = inl meta ->
      errors_sent l = [Errorf "create storage key" err])
  /\ requests l = [EGetMetadataLatest]
  /\ heights_fetched l = []
  /\ delivered l = []
  /\ pe_done (l_pendingEvents l) = false.
Proof.
  intros Hlt Hfail l. subst l. rewrite exec_app, first_arrival, exec_cons.
  assert (Hle : (call_number c0 <=? begin)%N = false) by (apply N.leb_gt; lia).
  match goal with
  | |- context [exec rpc ?s sched] => remember s as l1 eqn:Hl1
  end.
  assert (Hst : exists es,
             l1 = mkListener idx begin (call_number c0) true
                    (mkPendingEvents [entry_of c0] false) false false true Returned
                    [] false (EGetMetadataLatest :: [EErr es])
             /\ (State_GetMetadataLatest rpc = inr err -> es = Errorf "get metadata" err)
             /\ (forall meta, State_GetMetadataLatest rpc = inl meta ->
                 es = Errorf "create storage key" err)).
  { subst l1. unfold step, backfill_step. tick_norm. rewrite Hle.
    destruct Hfail as [Hm | (meta & Hm & Hk)].
    - rewrite Hm. eexists. split; [reflexivity|]. split; [reflexivity|discriminate].
    - rewrite Hm, Hk. eexists. split; [reflexivity|]. split; [discriminate|reflexivity]. }
  destruct Hst as (es & -> & Hes1 & Hes2). clear Hl1.
  match goal with
  | |- context [exec rpc ?s sched] =>
      destruct (exec_returned rpc sched s eq_refl) as (H1 & _ & H3 & H4 & H5 & H6)
  end.
  split; [exact H1|].
  split; [intros Hm; rewrite H4, <- (Hes1 Hm); reflexivity|].
  split; [intros meta Hm; rewrite H4, <- (Hes2 meta Hm); reflexivity|].
  split; [rewrite H3; reflexivity|].
  split; [rewrite heights_fetched_requests, H3; reflexivity|].
  split; [rewrite (H6 eq_refl); reflexivity|].
  rewrite H5. reflexivity.
Qed.

End Silent.

Lemma failed_setup_silences_the_listener_witness :
  let l := exec node_down (Listener_new 0 1)
             (arrivals [notification 3] ++ ATick :: arrivals [notification 4]) in
  delivered l = [] /\ l_pc l = Returned.
Proof.
  destruct (failed_setup_silences_the_listener node_down 0 1 (notification 3)
              (arrivals [notification 4]) "connection refused" eq_refl
              (or_introl eq_refl)) as (H1 & _ & _ & _ & _ & H5 & _).
  split; [exact H5|exact H1].
Defined.
